(** * PDL release comparison: table naming, dashboard reshaping, batch generator

    A shallow embedding of
    - [pdl_version_comparison_app.py] (the Streamlit dashboard reader),
    - [postings_employer_tables_rerun.py] (the employer batch generator),
    - [edu tables rerun.py] (the one-table education rerun script),
    together with the properties of the written specification that concern them. *)

From Stdlib Require Import QArith Qreduction Qabs Qpower String Ascii.
From stdpp Require Import base tactics option list strings numbers sorting.
From Stdlib Require Import Permutation Sorted Lqa.

Local Open Scope nat_scope.
Local Open Scope list_scope.

(** ** Table names ([clean_name], [make_kpi_table_name], [make_comparison_table_name])

    A Python [str] is a sequence of Unicode code points.  The three
    [replace] calls of [clean_name] each look for a single character, and
    [upper] works character by character, so a string is modelled as the
    list of its code points. *)

Module TableNames.

Definition codepoint := N.
Definition str := list codepoint.

(** A string literal of the source, as code points. *)
Definition py (s : string) : str := map N_of_ascii (list_ascii_of_string s).

Definition SPACE : codepoint := 32%N.
Definition APOSTROPHE : codepoint := 39%N.
Definition HYPHEN : codepoint := 45%N.
Definition UNDERSCORE : codepoint := 95%N.

Definition is_separator (c : codepoint) : bool :=
  (c =? SPACE)%N || (c =? HYPHEN)%N || (c =? APOSTROPHE)%N.

Section Unicode.

(** [str.upper] on a code point outside ASCII is the Unicode full case
    mapping (it may yield several code points, as for the sharp s).  The
    table is the interpreter's, not the repository's: it is a parameter. *)
Variable unicode_upper : codepoint -> list codepoint.

(** No Unicode upper-case mapping produces a space, a hyphen-minus or an
    apostrophe. *)
Hypothesis unicode_upper_no_separator :
  forall c d, (128 <= c)%N -> In d (unicode_upper c) -> is_separator d = false.

(** [c.upper()] for one character. *)
Definition upper_char (c : codepoint) : list codepoint :=
  if (c <? 128)%N
  then if ((97 <=? c) && (c <=? 122))%N then [(c - 32)%N] else [c]
  else unicode_upper c.

(** [s.upper()] *)
Definition upper (s : str) : str := flat_map upper_char s.

(** [s.replace(old, new)] where [old] is a single character. *)
Definition replace (old : codepoint) (new : str) (s : str) : str :=
  flat_map (fun c => if (c =? old)%N then new else [c]) s.

(** [clean_name]:
    [s.upper().replace(" ", "_").replace("-", "_").replace("'", "")] *)
Definition clean_name (s : str) : str :=
  replace APOSTROPHE [] (replace HYPHEN [UNDERSCORE] (replace SPACE [UNDERSCORE] (upper s))).

(** [f"COMP_{clean_name(topic)}_{clean_name(field)}_{clean_name(country)}"] *)
Definition make_comparison_table_name (topic field country : str) : str :=
  py "COMP_" ++ clean_name topic ++ py "_" ++ clean_name field ++ py "_" ++ clean_name country.

(** [f"KPI_{clean_name(topic)}_{clean_name(field)}_{clean_name(country)}"] *)
Definition make_kpi_table_name (topic field country : str) : str :=
  py "KPI_" ++ clean_name topic ++ py "_" ++ clean_name field ++ py "_" ++ clean_name country.

(** What the normalisation does to one input character: a space or a
    hyphen becomes an underscore, an apostrophe disappears, every other
    character is upper-cased. *)
Definition clean_char (c : codepoint) : str :=
  if ((c =? SPACE) || (c =? HYPHEN))%N then [UNDERSCORE]
  else if (c =? APOSTROPHE)%N then []
  else upper_char c.

(** ["_".join(parts)] *)
Fixpoint join_underscore (parts : list str) : str :=
  match parts with
  | [] => []
  | [p] => p
  | p :: ps => p ++ [UNDERSCORE] ++ join_underscore ps
  end.

(** What [clean_name] cannot tell apart: space, hyphen and underscore
    count as one character, and so do the two cases of an ASCII letter. *)
Definition fold_char (c : codepoint) : codepoint :=
  if ((c =? SPACE) || (c =? HYPHEN))%N then UNDERSCORE
  else if ((97 <=? c) && (c <=? 122))%N then (c - 32)%N
  else c.

Definition is_ascii (s : str) : Prop := Forall (fun c => (c < 128)%N) s.

(** *** Facts about the name builders *)

Lemma replace_flat_map (old : codepoint) (new : str) (f : codepoint -> str) (s : str) :
  replace old new (flat_map f s) = flat_map (fun c => replace old new (f c)) s.
Proof.
  unfold replace. induction s as [|c s IH]; simpl; [reflexivity|].
  rewrite flat_map_app. f_equal. exact IH.
Qed.

Lemma replace_absent (old : codepoint) (new : str) (s : str) :
  (forall d, In d s -> (d =? old)%N = false) -> replace old new s = s.
Proof.
  unfold replace. induction s as [|c s IH]; simpl; intros H; [reflexivity|].
  rewrite (H c) by (left; reflexivity). simpl. f_equal.
  apply IH. intros d Hd. apply H. right. exact Hd.
Qed.

Lemma is_separator_false (d : codepoint) :
  is_separator d = false ->
  (d =? SPACE)%N = false /\ (d =? HYPHEN)%N = false /\ (d =? APOSTROPHE)%N = false.
Proof.
  unfold is_separator. intros H.
  destruct (d =? SPACE)%N, (d =? HYPHEN)%N, (d =? APOSTROPHE)%N; simpl in H;
    try discriminate; auto.
Qed.

Lemma replace_no_separator (s : str) :
  (forall d, In d s -> is_separator d = false) ->
  replace APOSTROPHE [] (replace HYPHEN [UNDERSCORE] (replace SPACE [UNDERSCORE] s)) = s.
Proof.
  intros H.
  rewrite (replace_absent SPACE) by (intros d Hd; apply is_separator_false; auto).
  rewrite (replace_absent HYPHEN) by (intros d Hd; apply is_separator_false; auto).
  apply replace_absent. intros d Hd. apply is_separator_false; auto.
Qed.

(** ASCII upper-casing yields one character; it is a separator exactly
    when the input is that separator. *)
Lemma upper_char_ascii (c : codepoint) :
  (c < 128)%N -> exists d, upper_char c = [d] /\ (is_separator d = true -> d = c).
Proof.
  intros Hc. unfold upper_char.
  destruct (N.ltb_spec c 128) as [_|Hge]; [|lia].
  destruct ((97 <=? c) && (c <=? 122))%N eqn:Hlow.
  - exists (c - 32)%N. split; [reflexivity|].
    apply andb_true_iff in Hlow as [H1 H2].
    apply N.leb_le in H1, H2.
    unfold is_separator, SPACE, HYPHEN, APOSTROPHE. intros Hs.
    apply orb_true_iff in Hs as [Hs|Hs]; [apply orb_true_iff in Hs as [Hs|Hs]|];
      apply N.eqb_eq in Hs; lia.
  - exists c. split; [reflexivity|]. intros _. reflexivity.
Qed.

Lemma upper_char_no_separator (c d : codepoint) :
  is_separator c = false -> In d (upper_char c) -> is_separator d = false.
Proof.
  intros Hc Hd. destruct (N.ltb_spec c 128) as [Hlt|Hge].
  - destruct (upper_char_ascii c Hlt) as (e & He & Hsep).
    rewrite He in Hd. destruct Hd as [<-|[]].
    destruct (is_separator e) eqn:E; [|reflexivity].
    rewrite (Hsep eq_refl) in E. congruence.
  - apply (unicode_upper_no_separator c); [exact Hge|].
    unfold upper_char in Hd. destruct (N.ltb_spec c 128); [lia|exact Hd].
Qed.

Lemma separator_ascii (c : codepoint) : is_separator c = true -> (c < 128)%N.
Proof.
  unfold is_separator, SPACE, HYPHEN, APOSTROPHE. intros Hs.
  apply orb_true_iff in Hs as [Hs|Hs]; [apply orb_true_iff in Hs as [Hs|Hs]|];
    apply N.eqb_eq in Hs; lia.
Qed.

(** Upper-casing and then replacing is the same as normalising each input
    character on its own. *)
Lemma clean_name_chars (s : str) : clean_name s = flat_map clean_char s.
Proof.
  unfold clean_name, upper. rewrite !replace_flat_map.
  apply flat_map_ext. intros c.
  destruct (is_separator c) eqn:Hsep.
  - assert (Hc : (c < 128)%N) by (apply separator_ascii; exact Hsep).
    unfold clean_char, upper_char.
    destruct (N.ltb_spec c 128) as [_|?]; [|lia].
    unfold is_separator in Hsep.
    destruct (N.eqb_spec c SPACE) as [E|H1]; [rewrite E; reflexivity|].
    destruct (N.eqb_spec c HYPHEN) as [E|H2]; [rewrite E; reflexivity|].
    destruct (N.eqb_spec c APOSTROPHE) as [E|H3]; [rewrite E; reflexivity|].
    discriminate.
  - rewrite replace_no_separator
      by (intros d Hd; apply (upper_char_no_separator c); assumption).
    unfold clean_char. apply is_separator_false in Hsep as (-> & -> & ->).
    reflexivity.
Qed.

Lemma clean_char_no_separator (c d : codepoint) :
  In d (clean_char c) -> is_separator d = false.
Proof.
  unfold clean_char.
  destruct (N.eqb_spec c SPACE) as [E|H1]; simpl.
  { intros [<-|[]]. reflexivity. }
  destruct (N.eqb_spec c HYPHEN) as [E|H2]; simpl.
  { intros [<-|[]]. reflexivity. }
  destruct (N.eqb_spec c APOSTROPHE) as [E|H3]; simpl.
  { intros []. }
  apply upper_char_no_separator. unfold is_separator.
  apply N.eqb_neq in H1, H2, H3. rewrite H1, H2, H3. reflexivity.
Qed.

Lemma clean_name_no_separator (s : str) (d : codepoint) :
  In d (clean_name s) -> is_separator d = false.
Proof.
  rewrite clean_name_chars, in_flat_map. intros (c & _ & Hd).
  apply (clean_char_no_separator c). exact Hd.
Qed.

Lemma joined_no_separator (prefix : str) (topic field country : str) (d : codepoint) :
  (forall e, In e prefix -> is_separator e = false) ->
  In d (prefix ++ join_underscore (map clean_name [topic; field; country])) ->
  is_separator d = false.
Proof.
  intros Hp. simpl. rewrite !in_app_iff. simpl. rewrite !in_app_iff. simpl.
  intros [H|[H|[<-|[H|[<-|H]]]]];
    eauto using clean_name_no_separator.
Qed.

(** C2 (table-name builders).  Both builders return the fixed prefix
    followed by the three cleaned inputs joined with underscores; a cleaned
    input is the input with every space and hyphen turned into an
    underscore, every apostrophe removed and every other character
    upper-cased; no produced name contains a space, a hyphen or an
    apostrophe; and the KPI name of ("employers", "BGI Company Name",
    "United States") is KPI_EMPLOYERS_BGI_COMPANY_NAME_UNITED_STATES. *)
Theorem table_names_normalized (topic field country : str) :
  make_kpi_table_name topic field country
    = py "KPI_" ++ join_underscore (map (flat_map clean_char) [topic; field; country])
  /\ make_comparison_table_name topic field country
    = py "COMP_" ++ join_underscore (map (flat_map clean_char) [topic; field; country])
  /\ (forall d, In d (make_kpi_table_name topic field country) -> is_separator d = false)
  /\ (forall d, In d (make_comparison_table_name topic field country) -> is_separator d = false)
  /\ make_kpi_table_name (py "employers") (py "BGI Company Name") (py "United States")
    = py "KPI_EMPLOYERS_BGI_COMPANY_NAME_UNITED_STATES".
Proof.
  assert (Hk : make_kpi_table_name topic field country
            = py "KPI_" ++ join_underscore (map clean_name [topic; field; country])).
  { reflexivity. }
  assert (Hc : make_comparison_table_name topic field country
            = py "COMP_" ++ join_underscore (map clean_name [topic; field; country])).
  { reflexivity. }
  split; [|split; [|split; [|split]]].
  - rewrite Hk. simpl. rewrite !clean_name_chars. reflexivity.
  - rewrite Hc. simpl. rewrite !clean_name_chars. reflexivity.
  - intros d. rewrite Hk. apply joined_no_separator.
    intros e He. vm_compute in He. intuition (subst; reflexivity).
  - intros d. rewrite Hc. apply joined_no_separator.
    intros e He. vm_compute in He. intuition (subst; reflexivity).
  - vm_compute. reflexivity.
Qed.

(** *** Further facts: what the names identify *)

Lemma replace_app (old : codepoint) (new s t : str) :
  replace old new (s ++ t) = replace old new s ++ replace old new t.
Proof. unfold replace. apply flat_map_app. Qed.

Lemma clean_name_app (s t : str) : clean_name (s ++ t) = clean_name s ++ clean_name t.
Proof. unfold clean_name, upper. rewrite flat_map_app, !replace_app. reflexivity. Qed.

Lemma clean_name_underscore : clean_name [UNDERSCORE] = [UNDERSCORE].
Proof. reflexivity. Qed.

(** X1.  A table name does not determine the topic and the field it was
    built from: a word moved across the boundary, from the end of the topic
    to the front of the field, gives the same KPI name and the same
    comparison name. *)
Theorem table_name_boundaries_lost (a b c country : str) :
  make_kpi_table_name (a ++ [UNDERSCORE] ++ b) c country
    = make_kpi_table_name a (b ++ [UNDERSCORE] ++ c) country
  /\ make_comparison_table_name (a ++ [UNDERSCORE] ++ b) c country
    = make_comparison_table_name a (b ++ [UNDERSCORE] ++ c) country.
Proof.
  unfold make_kpi_table_name, make_comparison_table_name.
  rewrite !clean_name_app, clean_name_underscore.
  change (py "_") with [UNDERSCORE].
  rewrite <- !app_assoc. split; reflexivity.
Qed.

Ltac codepoint_cases :=
  repeat (match goal with
          | |- context [(?a =? ?b)%N] => destruct (N.eqb_spec a b); try lia
          | |- context [(?a <=? ?b)%N] => destruct (N.leb_spec a b); try lia
          | |- context [(?a <? ?b)%N] => destruct (N.ltb_spec a b); try lia
          end; cbn [orb andb]; cbv iota).

Lemma clean_char_fold (c : codepoint) : clean_char (fold_char c) = clean_char c.
Proof.
  unfold fold_char, SPACE, HYPHEN, UNDERSCORE.
  destruct (N.eqb_spec c 32) as [E|H1]; [rewrite E; reflexivity|].
  destruct (N.eqb_spec c 45) as [E|H2]; [rewrite E; reflexivity|]. cbn [orb].
  destruct (N.leb_spec 97 c), (N.leb_spec c 122); cbn [andb]; cbv iota;
    unfold clean_char, upper_char, SPACE, HYPHEN, APOSTROPHE;
    codepoint_cases; reflexivity.
Qed.

Lemma flat_map_map {A B C} (f : A -> B) (g : B -> list C) (l : list A) :
  flat_map g (map f l) = flat_map (fun x => g (f x)) l.
Proof. induction l as [|x l IH]; simpl; [reflexivity|]. rewrite IH. reflexivity. Qed.

(** X2.  [clean_name] is blind to the case of ASCII letters and to the
    choice among space, hyphen and underscore: two inputs that agree once
    those are folded together get the same cleaned name. *)
Theorem clean_name_folds (s s' : str) :
  map fold_char s = map fold_char s' -> clean_name s = clean_name s'.
Proof.
  intros H. rewrite !clean_name_chars.
  transitivity (flat_map clean_char (map fold_char s)).
  - rewrite flat_map_map. apply flat_map_ext. intros c. symmetry. apply clean_char_fold.
  - rewrite H, flat_map_map. apply flat_map_ext. intros c. apply clean_char_fold.
Qed.

Lemma clean_char_ascii_fixed (c d : codepoint) :
  (c < 128)%N -> In d (clean_char c) -> (d < 128)%N /\ clean_char d = [d].
Proof.
  intros Hc. unfold clean_char at 1. unfold upper_char, SPACE, HYPHEN, APOSTROPHE.
  destruct (N.eqb_spec c 32) as [E|H1]; cbn [orb].
  { intros [<-|[]]. split; [reflexivity|reflexivity]. }
  destruct (N.eqb_spec c 45) as [E|H2].
  { intros [<-|[]]. split; [reflexivity|reflexivity]. }
  destruct (N.eqb_spec c 39) as [E|H3]; [intros []|].
  destruct (N.ltb_spec c 128) as [_|?]; [|lia].
  assert (Hfix : forall e, (e < 128)%N -> e <> 32%N -> e <> 45%N -> e <> 39%N ->
                      (e < 97 \/ 122 < e)%N -> clean_char e = [e]).
  { intros e He E1 E2 E3 Hcase. unfold clean_char, upper_char, SPACE, HYPHEN, APOSTROPHE.
    destruct (N.eqb_spec e 32); [contradiction|].
    destruct (N.eqb_spec e 45); [contradiction|]. cbn [orb].
    destruct (N.eqb_spec e 39); [contradiction|].
    destruct (N.ltb_spec e 128); [|lia].
    destruct (N.leb_spec 97 e); cbn [andb]; [|reflexivity].
    destruct (N.leb_spec e 122); [lia|reflexivity]. }
  destruct (N.leb_spec 97 c) as [Hlo|Hlo]; cbn [andb].
  - destruct (N.leb_spec c 122) as [Hhi|Hhi]; intros [<-|[]].
    + split; [lia|]. apply Hfix; lia.
    + split; [lia|]. apply Hfix; lia.
  - intros [<-|[]]. split; [lia|]. apply Hfix; lia.
Qed.

(** X3.  On ASCII input [clean_name] is idempotent, and its result is
    ASCII again: cleaning an already cleaned name changes nothing. *)
Theorem clean_name_idempotent (s : str) :
  is_ascii s -> is_ascii (clean_name s) /\ clean_name (clean_name s) = clean_name s.
Proof.
  intros Hs. rewrite !clean_name_chars. unfold is_ascii in *.
  induction Hs as [|c s Hc Hs [IH1 IH2]]; simpl; [split; [constructor|reflexivity]|].
  split.
  - apply Forall_app. split; [|exact IH1].
    apply List.Forall_forall. intros d Hd. apply (clean_char_ascii_fixed c d Hc Hd).
  - rewrite flat_map_app, IH2. f_equal.
    assert (Hall : forall d, In d (clean_char c) -> clean_char d = [d]).
    { intros d Hd. apply (clean_char_ascii_fixed c d Hc Hd). }
    induction (clean_char c) as [|d l IHl]; simpl; [reflexivity|].
    rewrite Hall by (left; reflexivity). simpl. f_equal.
    apply IHl. intros e He. apply Hall. right. exact He.
Qed.

End Unicode.

(** The identity is an admissible stand-in for the Unicode table on the
    inputs below: it never produces a separator from a non-ASCII code point. *)
Lemma table_names_normalized_witness :
  make_kpi_table_name (fun c => [c]) (py "education") (py "Bachelor's-Degree X") (py "Hong Kong")
    = py "KPI_EDUCATION_BACHELORS_DEGREE_X_HONG_KONG"
  /\ make_comparison_table_name (fun c => [c]) (py "roles") (py "bgi_soc2 name") (py "New Zealand")
    = py "COMP_ROLES_BGI_SOC2_NAME_NEW_ZEALAND".
Proof.
  assert (Hup : forall c d : codepoint,
             (128 <= c)%N -> In d ((fun c => [c]) c) -> is_separator d = false).
  { intros c d Hc [<-|[]].
    destruct (is_separator c) eqn:E; [|reflexivity].
    apply separator_ascii in E. lia. }
  split.
  - rewrite (proj1 (table_names_normalized _ Hup _ _ _)). vm_compute. reflexivity.
  - rewrite (proj1 (proj2 (table_names_normalized _ Hup _ _ _))). vm_compute. reflexivity.
Defined.

Lemma identity_upper_no_separator (c d : codepoint) :
  (128 <= c)%N -> In d [c] -> is_separator d = false.
Proof.
  intros Hc [<-|[]].
  destruct (is_separator c) eqn:E; [|reflexivity].
  apply separator_ascii in E. lia.
Qed.

Lemma clean_name_folds_witness :
  clean_name (fun c => [c]) (py "New-Zealand") = clean_name (fun c => [c]) (py "new zealand").
Proof.
  apply (clean_name_folds (fun c => [c]) identity_upper_no_separator
           (py "New-Zealand") (py "new zealand")).
  reflexivity.
Defined.

Lemma clean_name_idempotent_witness :
  clean_name (fun c => [c]) (clean_name (fun c => [c]) (py "Bachelor's Degree"))
    = clean_name (fun c => [c]) (py "Bachelor's Degree").
Proof.
  apply (clean_name_idempotent (fun c => [c]) identity_upper_no_separator
           (py "Bachelor's Degree")).
  unfold is_ascii. repeat constructor.
Defined.

End TableNames.

(** ** The table generators ([postings_employer_tables_rerun.py], [edu tables rerun.py])

    Both scripts import their configuration, the SQL builders, the name
    builders and [execute_ddl] from [postings_release_temp_tables], which
    they only call: those are parameters here.  What the scripts themselves
    decide is the control flow around [execute_ddl]: which statements are
    submitted, what is printed, and what an exception does. *)

Module Generator.

Local Open Scope string_scope.
Local Open Scope list_scope.

(** One entry of [meta["fields"]]: the three value expressions and the
    optional source-table overrides read with [fmap.get(..., default)]. *)
Record FieldMapping := {
  v1_expr : string;
  v2_expr : string;
  lc_expr : string;
  v1_from : option string;
  v2_from : option string;
  lc_from : option string
}.

(** [TOPICS[topic]] as far as the scripts read it. *)
Record TopicMeta := {
  fields : list (string * FieldMapping);          (* [meta["fields"].items()], in dict order *)
  exclude_values_ilike : option (list string);    (* [meta.get("exclude_values_ilike", [])] *)
  extra_where : option string                     (* [meta.get("extra_where")] *)
}.

(** What the scripts print.  The timestamps of the first and last line of
    the batch are left out. *)
Inductive line :=
  | Rebuilding                                  (* "Rebuilding employer tables in ..." *)
  | Created (table : string)                    (* "  ✓ {name}" *)
  | Failed (table : string) (error : string)    (* "  ✗ {name}: {e}" *)
  | Summary (total : nat)                       (* "Done — created {total} employer tables." *)
  | DoneTable (table : string).                 (* "Done: {kpi_name}" *)

(** The observable state of a run: the statements submitted on the
    connection so far, the lines printed, and whether [conn.close()] ran. *)
Record run := {
  submitted : list string;
  stdout : list line;
  closed : bool
}.

Definition fresh_run : run := {| submitted := []; stdout := []; closed := false |}.

(** A Python computation: it returns a value or raises an [Exception]
    (carried as its message), and leaves a state either way. *)
Inductive outcome_of (A : Type) :=
  | Returned (a : A)
  | Raised (message : string).
Arguments Returned {A} a.
Arguments Raised {A} message.

Definition M (A : Type) := run -> outcome_of A * run.

Definition ret {A} (a : A) : M A := fun r => (Returned a, r).

Definition bind {A B} (m : M A) (k : A -> M B) : M B :=
  fun r => match m r with
           | (Returned a, r') => k a r'
           | (Raised e, r') => (Raised e, r')
           end.

(** [try: body except Exception as e: handler(e)] *)
Definition try_except {A} (body : M A) (handler : string -> M A) : M A :=
  fun r => match body r with
           | (Returned a, r') => (Returned a, r')
           | (Raised e, r') => handler e r'
           end.

Notation "x <- m ;; k" := (bind m (fun x => k))
  (at level 100, m at next level, right associativity).
Notation "m ;; k" := (bind m (fun _ => k))
  (at level 100, right associativity).

Definition print (l : line) : M unit :=
  fun r => (Returned tt, {| submitted := submitted r; stdout := stdout r ++ [l]; closed := closed r |}).

Definition conn_close : M unit :=
  fun r => (Returned tt, {| submitted := submitted r; stdout := stdout r; closed := true |}).

(** [for x in xs: acc = body(acc, x)], an exception leaving the loop. *)
Fixpoint for_each {A X} (xs : list X) (acc : A) (body : A -> X -> M A) : M A :=
  match xs with
  | [] => ret acc
  | x :: xs' => acc' <- body acc x ;; for_each xs' acc' body
  end.

(** [d[key]] on a dict of field mappings: a missing key raises [KeyError]. *)
Fixpoint subscript (d : list (string * FieldMapping)) (key : string) : M FieldMapping :=
  match d with
  | [] => fun r => (Raised ("KeyError: " +:+ key), r)
  | (k, v) :: rest => if String.eqb k key then ret v else subscript rest key
  end.

Definition newline : string := String (ascii_of_nat 10) EmptyString.

(** [f"CREATE OR REPLACE TABLE {name} AS\n{sql}"] *)
Definition create_or_replace (name sql : string) : string :=
  "CREATE OR REPLACE TABLE " +:+ name +:+ " AS" +:+ newline +:+ sql.

(** *** A concrete warehouse

    Simple builders in place of the imported ones, a warehouse in which
    the source table of every COMP query is missing, and one in which
    every statement fails. *)

Definition demo_name (prefix topic field : string) : string :=
  prefix +:+ "_" +:+ topic +:+ "_" +:+ field.

Definition demo_sql (kind : string) (a b c f1 f2 f3 : string)
    (exclude : list string) (extra : option string) : string :=
  kind +:+ " " +:+ a +:+ " " +:+ f1.

Definition demo_fmap : FieldMapping :=
  {| v1_expr := "x"; v2_expr := "y"; lc_expr := "z";
     v1_from := None; v2_from := Some "t2"; lc_from := None |}.

Definition demo_topics (topic : string) : TopicMeta :=
  if String.eqb topic "education"
  then {| fields := [("DEGREE", demo_fmap); ("MIN_REQUIRED_DEGREE", demo_fmap)];
          exclude_values_ilike := Some ["unknown"];
          extra_where := None |}
  else {| fields := [("NAICS2", demo_fmap); ("COMPANY", demo_fmap)];
          exclude_values_ilike := None;
          extra_where := Some "naics4 = 5613" |}.

Definition comparisons_fail (history : list string) (statement : string) : option string :=
  if String.prefix "CREATE OR REPLACE TABLE COMP_" statement
  then Some "missing source table" else None.

Definition always_fail (history : list string) (statement : string) : option string :=
  Some "missing source table".

Section Scripts.

(** Imported from [postings_release_temp_tables]. *)
Variables make_kpi_name make_comp_name make_comp_lc_name : string -> string -> string.
Variables sql_generic_kpis sql_generic_compare sql_generic_compare_lc :
  string -> string -> string -> string -> string -> string ->
  list string -> option string -> string.
Variables _V1_FROM _V2_FROM _LC_FROM : string.
Variable TOPICS : string -> TopicMeta.

(** The warehouse: whether a statement succeeds may depend on everything
    submitted on the connection before it.  [None] is success, [Some e] is
    the exception [execute_ddl] raises. *)
Variable warehouse : list string -> string -> option string.

(** [execute_ddl(statement, conn)] *)
Definition execute_ddl (statement : string) : M unit :=
  fun r =>
    let r' := {| submitted := submitted r ++ [statement]; stdout := stdout r; closed := closed r |} in
    match warehouse (submitted r) statement with
    | None => (Returned tt, r')
    | Some e => (Raised e, r')
    end.

(** One [try: execute_ddl(...); print(✓); total += 1  except Exception as e: print(✗)] block. *)
Definition create_table (name sql : string) (total : nat) : M nat :=
  try_except
    (execute_ddl (create_or_replace name sql) ;;
     print (Created name) ;;
     ret (total + 1))
    (fun e => print (Failed name e) ;; ret total).

(** [main] of [postings_employer_tables_rerun.py]. *)
Definition main : M unit :=
  print Rebuilding ;;
  (* conn = snow.connect(...) *)
  let meta := TOPICS "employers" in
  let exclude_ilike := default [] (exclude_values_ilike meta) in
  let extra_where := extra_where meta in
  total <- for_each (fields meta) 0 (fun total '(field_name, fmap) =>
    let v1_from := default _V1_FROM (v1_from fmap) in
    let v2_from := default _V2_FROM (v2_from fmap) in
    let lc_from := default _LC_FROM (lc_from fmap) in
    (* KPI table *)
    let kpi_name := make_kpi_name "employers" field_name in
    let kpi_sql := sql_generic_kpis (v1_expr fmap) (v2_expr fmap) (lc_expr fmap)
                     v1_from v2_from lc_from exclude_ilike extra_where in
    total <- create_table kpi_name kpi_sql total ;;
    (* COMP table *)
    let comp_name := make_comp_name "employers" field_name in
    let comp_sql := sql_generic_compare (v1_expr fmap) (v2_expr fmap) (lc_expr fmap)
                      v1_from v2_from lc_from exclude_ilike extra_where in
    total <- create_table comp_name comp_sql total ;;
    (* COMP LC table (top 25 by Lightcast) *)
    let complc_name := make_comp_lc_name "employers" field_name in
    let complc_sql := sql_generic_compare_lc (v1_expr fmap) (v2_expr fmap) (lc_expr fmap)
                        v1_from v2_from lc_from exclude_ilike extra_where in
    create_table complc_name complc_sql total) ;;
  conn_close ;;
  print (Summary total).

(** The module body of [edu tables rerun.py].  [sql_generic_kpis] is
    called without its last argument, which takes its default. *)
Definition edu_tables_rerun : M unit :=
  (* conn = snow.connect(...) *)
  let meta := TOPICS "education" in
  fmap <- subscript (fields meta) "MIN_REQUIRED_DEGREE" ;;
  let exclude_ilike := default [] (exclude_values_ilike meta) in
  let kpi_name := make_kpi_name "education" "MIN_REQUIRED_DEGREE" in
  let kpi_sql := sql_generic_kpis (v1_expr fmap) (v2_expr fmap) (lc_expr fmap)
                   (default _V1_FROM (v1_from fmap))
                   (default _V2_FROM (v2_from fmap))
                   (default _LC_FROM (lc_from fmap))
                   exclude_ilike None in
  execute_ddl (create_or_replace kpi_name kpi_sql) ;;
  print (DoneTable kpi_name) ;;
  conn_close.

(** The tables of the employer batch, in the order [main] reaches them:
    for every field its KPI, COMP and COMP-LC table, each with the
    statement that creates it. *)
Definition tables_of_field (meta : TopicMeta) (f : string * FieldMapping) : list (string * string) :=
  let '(field_name, fmap) := f in
  let exclude_ilike := default [] (exclude_values_ilike meta) in
  let a := v1_expr fmap in
  let b := v2_expr fmap in
  let c := lc_expr fmap in
  let f1 := default _V1_FROM (v1_from fmap) in
  let f2 := default _V2_FROM (v2_from fmap) in
  let f3 := default _LC_FROM (lc_from fmap) in
  [ (make_kpi_name "employers" field_name,
     create_or_replace (make_kpi_name "employers" field_name)
       (sql_generic_kpis a b c f1 f2 f3 exclude_ilike (extra_where meta)));
    (make_comp_name "employers" field_name,
     create_or_replace (make_comp_name "employers" field_name)
       (sql_generic_compare a b c f1 f2 f3 exclude_ilike (extra_where meta)));
    (make_comp_lc_name "employers" field_name,
     create_or_replace (make_comp_lc_name "employers" field_name)
       (sql_generic_compare_lc a b c f1 f2 f3 exclude_ilike (extra_where meta))) ].

Definition employer_tables : list (string * string) :=
  flat_map (tables_of_field (TOPICS "employers")) (fields (TOPICS "employers")).

(** The line a table gets, from what the warehouse answered. *)
Definition report (name : string) (answer : option string) : line :=
  match answer with
  | None => Created name
  | Some e => Failed name e
  end.

Definition is_created (l : line) : bool :=
  match l with Created _ => true | _ => false end.

Fixpoint count_created (ls : list line) : nat :=
  match ls with
  | [] => 0
  | l :: ls' => (if is_created l then 1 else 0) + count_created ls'
  end.

(** Every table of a list is attempted in turn, whatever the earlier
    answers were: the lines this prints, starting from history [h]. *)
Fixpoint attempts (h : list string) (ts : list (string * string)) : list line :=
  match ts with
  | [] => []
  | (name, stmt) :: ts' => report name (warehouse h stmt) :: attempts (h ++ [stmt]) ts'
  end.

Definition is_failed (l : line) : bool :=
  match l with Failed _ _ => true | _ => false end.

Fixpoint count_failed (ls : list line) : nat :=
  match ls with
  | [] => 0
  | l :: ls' => (if is_failed l then 1 else 0) + count_failed ls'
  end.

(** *** Facts about the batch *)

Lemma create_table_run (name sql : string) (total : nat) (r : run) :
  create_table name sql total r
  = (Returned (total + count_created [report name (warehouse (submitted r) (create_or_replace name sql))]),
     {| submitted := submitted r ++ [create_or_replace name sql];
        stdout := stdout r ++ [report name (warehouse (submitted r) (create_or_replace name sql))];
        closed := closed r |}).
Proof.
  unfold create_table, try_except, bind, execute_ddl, print, ret.
  destruct (warehouse (submitted r) (create_or_replace name sql)) as [e|]; simpl.
  - rewrite Nat.add_0_r. reflexivity.
  - reflexivity.
Qed.

Lemma count_created_app (xs ys : list line) :
  count_created (xs ++ ys) = count_created xs + count_created ys.
Proof. induction xs as [|x xs IH]; simpl; [reflexivity|]. rewrite IH. lia. Qed.

Lemma attempts_app (h : list string) (ts us : list (string * string)) :
  attempts h (ts ++ us) = attempts h ts ++ attempts (h ++ map snd ts) us.
Proof.
  revert h. induction ts as [|[n s] ts IH]; intros h; simpl.
  - rewrite app_nil_r. reflexivity.
  - rewrite IH, <- app_assoc. reflexivity.
Qed.

Lemma attempts_length (h : list string) (ts : list (string * string)) :
  length (attempts h ts) = length ts.
Proof.
  revert h. induction ts as [|[n s] ts IH]; intros h; simpl; [reflexivity|].
  rewrite IH. reflexivity.
Qed.

(** The [i]-th line is decided by the warehouse's answer to the [i]-th
    statement after all [i] earlier statements were submitted. *)
Lemma attempts_lookup (h : list string) (ts : list (string * string)) (i : nat) (name stmt : string) :
  ts !! i = Some (name, stmt) ->
  attempts h ts !! i = Some (report name (warehouse (h ++ take i (map snd ts)) stmt)).
Proof.
  revert h i. induction ts as [|[n s] ts IH]; intros h i Hi; [discriminate|].
  destruct i as [|i]; simpl in *.
  - injection Hi as -> ->. rewrite app_nil_r. reflexivity.
  - rewrite (IH _ _ Hi), <- app_assoc. reflexivity.
Qed.

Lemma fields_loop_run (meta : TopicMeta) (fs : list (string * FieldMapping)) (total : nat) (r : run) :
  let ts := flat_map (tables_of_field meta) fs in
  for_each fs total (fun total '(field_name, fmap) =>
    let v1_from := default _V1_FROM (v1_from fmap) in
    let v2_from := default _V2_FROM (v2_from fmap) in
    let lc_from := default _LC_FROM (lc_from fmap) in
    let kpi_name := make_kpi_name "employers" field_name in
    let kpi_sql := sql_generic_kpis (v1_expr fmap) (v2_expr fmap) (lc_expr fmap)
                     v1_from v2_from lc_from (default [] (exclude_values_ilike meta)) (extra_where meta) in
    total <- create_table kpi_name kpi_sql total ;;
    let comp_name := make_comp_name "employers" field_name in
    let comp_sql := sql_generic_compare (v1_expr fmap) (v2_expr fmap) (lc_expr fmap)
                      v1_from v2_from lc_from (default [] (exclude_values_ilike meta)) (extra_where meta) in
    total <- create_table comp_name comp_sql total ;;
    let complc_name := make_comp_lc_name "employers" field_name in
    let complc_sql := sql_generic_compare_lc (v1_expr fmap) (v2_expr fmap) (lc_expr fmap)
                        v1_from v2_from lc_from (default [] (exclude_values_ilike meta)) (extra_where meta) in
    create_table complc_name complc_sql total) r
  = (Returned (total + count_created (attempts (submitted r) ts)),
     {| submitted := submitted r ++ map snd ts;
        stdout := stdout r ++ attempts (submitted r) ts;
        closed := closed r |}).
Proof.
  revert total r. induction fs as [|[field_name fmap] fs IH]; intros total r.
  - simpl. unfold ret. rewrite !app_nil_r, Nat.add_0_r. destruct r; reflexivity.
  - cbn zeta. cbn [for_each flat_map]. unfold bind at 1. unfold bind at 1.
    rewrite create_table_run. unfold bind at 1. rewrite create_table_run.
    rewrite create_table_run. cbn zeta in IH. rewrite IH.
    cbn [submitted stdout closed].
    rewrite attempts_app, count_created_app, map_app.
    cbn [tables_of_field attempts map snd count_created].
    rewrite <- !app_assoc. cbn [app].
    f_equal. f_equal. lia.
Qed.

Lemma main_run (r : run) :
  let entries := attempts (submitted r) employer_tables in
  main r
  = (Returned tt,
     {| submitted := submitted r ++ map snd employer_tables;
        stdout := stdout r ++ Rebuilding :: entries ++ [Summary (count_created entries)];
        closed := true |}).
Proof.
  unfold main. cbn zeta. unfold bind at 1. cbn [print].
  unfold bind at 1. rewrite fields_loop_run. cbn [submitted stdout closed].
  unfold bind, conn_close, print. cbn [submitted stdout closed].
  unfold employer_tables. rewrite <- !app_assoc. reflexivity.
Qed.

(** C3 (the batch).  Whatever the warehouse answers, the batch run
    [main] returns normally; every table of every field is submitted, in
    order, each after all the earlier ones whether they failed or not;
    table [i] gets the line "created" or the line "failed" with its name
    and the error; the connection is closed; and the last line printed is
    the summary with the number of tables created. *)
Theorem employer_batch_continues (r : run) :
  exists entries : list line,
    main r
    = (Returned tt,
       {| submitted := submitted r ++ map snd employer_tables;
          stdout := stdout r ++ Rebuilding :: entries ++ [Summary (count_created entries)];
          closed := true |})
    /\ length entries = length employer_tables
    /\ length employer_tables = 3 * length (fields (TOPICS "employers"))
    /\ forall i name stmt,
         employer_tables !! i = Some (name, stmt) ->
         entries !! i
         = Some (report name (warehouse (submitted r ++ take i (map snd employer_tables)) stmt)).
Proof.
  exists (attempts (submitted r) employer_tables).
  split; [apply main_run|]. split; [apply attempts_length|]. split.
  - unfold employer_tables. induction (fields (TOPICS "employers")) as [|[n f] fs IH]; simpl.
    + reflexivity.
    + rewrite IH. lia.
  - intros i name stmt Hi. apply attempts_lookup. exact Hi.
Qed.

(** *** Further facts: accounting, and the script without a handler *)

Lemma attempts_accounted (h : list string) (ts : list (string * string)) :
  count_created (attempts h ts) + count_failed (attempts h ts) = length ts.
Proof.
  revert h. induction ts as [|[n s] ts IH]; intros h; simpl; [reflexivity|].
  specialize (IH (h ++ [s])).
  destruct (warehouse h s); simpl; lia.
Qed.

Lemma employer_tables_length :
  length employer_tables = 3 * length (fields (TOPICS "employers")).
Proof.
  unfold employer_tables. induction (fields (TOPICS "employers")) as [|[n f] fs IH]; simpl.
  - reflexivity.
  - rewrite IH. lia.
Qed.

(** X4.  The employer batch accounts for every table: between the opening
    line and the summary it prints one line per table, each either
    "created" or "failed", and the number in the summary plus the number of
    "failed" lines is three times the number of fields. *)
Theorem employer_batch_accounting (r : run) :
  exists entries : list line,
    stdout (snd (main r))
      = stdout r ++ Rebuilding :: entries ++ [Summary (count_created entries)]
    /\ count_created entries + count_failed entries
       = 3 * length (fields (TOPICS "employers"))
    /\ count_created entries + count_failed entries = length entries.
Proof.
  exists (attempts (submitted r) employer_tables).
  rewrite main_run. split; [reflexivity|].
  rewrite attempts_accounted, attempts_length. split; [apply employer_tables_length|reflexivity].
Qed.

Lemma subscript_run (d : list (string * FieldMapping)) (key : string) (r : run) :
  (exists v, subscript d key r = (Returned v, r))
  \/ (exists e, subscript d key r = (Raised e, r)).
Proof.
  induction d as [|[k v] d IH]; simpl.
  - right. eexists. reflexivity.
  - destruct (String.eqb k key); [left; exists v; reflexivity|exact IH].
Qed.

Lemma edu_rerun_cases (r : run) :
  (exists e, edu_tables_rerun r = (Raised e, r))
  \/ (exists e stmt, edu_tables_rerun r
        = (Raised e, {| submitted := submitted r ++ [stmt]; stdout := stdout r;
                        closed := closed r |}))
  \/ (exists stmt name, edu_tables_rerun r
        = (Returned tt, {| submitted := submitted r ++ [stmt];
                           stdout := stdout r ++ [DoneTable name]; closed := true |})).
Proof.
  unfold edu_tables_rerun. cbn zeta. unfold bind.
  destruct (subscript_run (fields (TOPICS "education")) "MIN_REQUIRED_DEGREE" r)
    as [[fmap E]|[e E]]; rewrite E; cbv beta iota.
  - unfold execute_ddl, print, conn_close. cbv beta zeta.
    destruct (warehouse (submitted r) _) as [e|]; cbn [fst snd submitted stdout closed].
    + right. left. eexists _, _. reflexivity.
    + right. right. eexists _, _. reflexivity.
  - left. exists e. reflexivity.
Qed.

(** X5.  The education rerun has no handler and no [finally]: started on
    an open connection it submits at most one statement, it closes the
    connection exactly when it returns normally, and when it raises (a
    missing field or a failed statement) it has printed nothing. *)
Theorem edu_rerun_closes_only_on_success (r : run) :
  closed r = false ->
  (closed (snd (edu_tables_rerun r)) = true <-> fst (edu_tables_rerun r) = Returned tt)
  /\ (fst (edu_tables_rerun r) <> Returned tt -> stdout (snd (edu_tables_rerun r)) = stdout r)
  /\ exists stmts, submitted (snd (edu_tables_rerun r)) = submitted r ++ stmts
                   /\ length stmts <= 1.
Proof.
  intros Hopen.
  destruct (edu_rerun_cases r) as [[e ->]|[(e & stmt & ->)|(stmt & name & ->)]];
    cbn [fst snd submitted stdout closed].
  - rewrite Hopen. split; [split; intros H; discriminate H|]. split; [reflexivity|].
    exists []. rewrite app_nil_r. split; [reflexivity|]. simpl. lia.
  - rewrite Hopen. split; [split; intros H; discriminate H|]. split; [reflexivity|].
    eexists. split; [reflexivity|]. simpl. lia.
  - split; [split; reflexivity|]. split; [congruence|].
    eexists. split; [reflexivity|]. simpl. lia.
Qed.

End Scripts.

(** With the two COMP tables failing, the batch still reaches all six
    tables and reports the four it created. *)
Example employer_batch_demo :
  stdout (snd (main (demo_name "KPI") (demo_name "COMP") (demo_name "COMPLC")
                    (demo_sql "kpi") (demo_sql "cmp") (demo_sql "cmplc")
                    "v1" "v2" "lc" demo_topics comparisons_fail fresh_run))
  = [ Rebuilding;
      Created "KPI_employers_NAICS2";
      Failed "COMP_employers_NAICS2" "missing source table";
      Created "COMPLC_employers_NAICS2";
      Created "KPI_employers_COMPANY";
      Failed "COMP_employers_COMPANY" "missing source table";
      Created "COMPLC_employers_COMPANY";
      Summary 4 ].
Proof. vm_compute. reflexivity. Qed.

(** When its statement succeeds, the education rerun prints the table's
    name and closes the connection. *)
Example edu_rerun_success :
  edu_tables_rerun (demo_name "KPI") (demo_sql "kpi") "v1" "v2" "lc"
                   demo_topics comparisons_fail fresh_run
  = (Returned tt,
     {| submitted := [create_or_replace "KPI_education_MIN_REQUIRED_DEGREE" "kpi x v1"];
        stdout := [DoneTable "KPI_education_MIN_REQUIRED_DEGREE"];
        closed := true |}).
Proof. vm_compute. reflexivity. Qed.

(** The education rerun is not a batch: it submits one statement.  When
    that statement fails the exception is not caught; the script ends there
    with nothing printed and the connection left open. *)
Example edu_rerun_failure_not_caught :
  edu_tables_rerun (demo_name "KPI") (demo_sql "kpi") "v1" "v2" "lc"
                   demo_topics always_fail fresh_run
  = (Raised "missing source table",
     {| submitted := [create_or_replace "KPI_education_MIN_REQUIRED_DEGREE" "kpi x v1"];
        stdout := [];
        closed := false |}).
Proof. vm_compute. reflexivity. Qed.

Lemma edu_rerun_closes_only_on_success_witness :
  closed (snd (edu_tables_rerun (demo_name "KPI") (demo_sql "kpi") "v1" "v2" "lc"
                 demo_topics always_fail fresh_run)) = false
  /\ stdout (snd (edu_tables_rerun (demo_name "KPI") (demo_sql "kpi") "v1" "v2" "lc"
                 demo_topics always_fail fresh_run)) = [].
Proof.
  destruct (edu_rerun_closes_only_on_success (demo_name "KPI") (demo_sql "kpi") "v1" "v2" "lc"
              demo_topics always_fail fresh_run eq_refl) as (Hclosed & Hquiet & _).
  split.
  - apply not_true_is_false. intros E.
    apply Hclosed in E. vm_compute in E. discriminate.
  - apply Hquiet. vm_compute. discriminate.
Defined.

End Generator.

(** ** The dashboard reader ([pdl_version_comparison_app.py])

    pandas values are modelled as follows.
    - A cell is missing ([NaN]/[None]), a number, a string or an IEEE
      infinity.  Numbers are rationals kept in lowest terms: the counts are
      integers, and a quotient is written as the rational it rounds; what
      float64 stores for it is [float64_of] of that rational, which the
      statement about the sum of the percentages takes into account.  An
      infinity arises in one place, the quotient of line 492 at a base
      count of zero, and is a cell so that what [.where] does to it shows.
    - A [Series] is the list of its cells; the index is left out, because
      every Series the code assigns to a frame was computed from that same
      frame, so alignment is positional.
    - A [DataFrame] is its row count and its columns in order.
    - A frame is a mutable object: the functions receive references into a
      store, and [df.copy()] allocates. *)

Module Dashboard.

Local Open Scope string_scope.
Local Open Scope list_scope.

(** *** Strings *)

Definition lower_char (c : ascii) : ascii :=
  let n := nat_of_ascii c in
  if ((65 <=? n) && (n <=? 90))%nat then ascii_of_nat (n + 32) else c.

(** [s.lower()], on the ASCII strings the module applies it to (the
    version constants and the warehouse's column names). *)
Fixpoint lower (s : string) : string :=
  match s with
  | EmptyString => EmptyString
  | String c s' => String (lower_char c) (lower s')
  end.

(** [s.replace(old, new)] for a non-empty [old]: occurrences are replaced
    from the left and do not overlap.  [skip] counts the characters of an
    occurrence still to be passed over. *)
Fixpoint replace_from (old new : string) (skip : nat) (s : string) : string :=
  match s with
  | EmptyString => EmptyString
  | String c s' =>
      match skip with
      | S k => replace_from old new k s'
      | O => if String.prefix old s
             then new +:+ replace_from old new (String.length old - 1) s'
             else String c (replace_from old new 0 s')
      end
  end.

Definition str_replace (old new : string) (s : string) : string :=
  replace_from old new 0 s.

(** Whether [old] occurs in [s]. *)
Fixpoint occurs (old s : string) : bool :=
  String.prefix old s
  || match s with
     | EmptyString => false
     | String _ s' => occurs old s'
     end.

Fixpoint map_chars (f : ascii -> ascii) (s : string) : string :=
  match s with
  | EmptyString => EmptyString
  | String c s' => String (f c) (map_chars f s')
  end.

Definition is_ascii_string (s : string) : Prop :=
  Forall (fun c => nat_of_ascii c < 128) (list_ascii_of_string s).

(** *** Version configuration *)

Definition BASE_VERSION : string := "v5_OCT25".
Definition NEW_VERSION : string := "v5_JAN26".

(** [version.lower().replace("-", "_").replace(" ", "_")] *)
Definition _alias (version : string) : string :=
  str_replace " " "_" (str_replace "-" "_" (lower version)).

(** What [_alias] does to one character. *)
Definition alias_char (c : ascii) : ascii :=
  let c1 := lower_char c in
  let c2 := if Ascii.eqb c1 "-" then "_"%char else c1 in
  if Ascii.eqb c2 " " then "_"%char else c2.

Definition _label (version : string) : string := version.

Definition BASE_A : string := Eval vm_compute in _alias BASE_VERSION.
Definition NEW_A : string := Eval vm_compute in _alias NEW_VERSION.

Definition NULL_LABEL : string := "<NULL>".

Definition _VERSION_ORDER_DEFAULT : list string := [NEW_VERSION; BASE_VERSION].
Definition _VERSION_ORDER_IPEDS : list string := [NEW_VERSION; BASE_VERSION; "ipeds"].
Definition _VERSION_ORDER_BLS : list string := [NEW_VERSION; BASE_VERSION; "BLS 2023"].
Definition _VERSION_ORDER_ROLES : list string := [NEW_VERSION; BASE_VERSION; "OEWS"; "ACS"].

Definition _DEGREE_ORDER : list string :=
  ["High School"; "Certificate"; "Associate"; "Bachelor's Degree"; "Master's Degree"; "Doctorate"].

Definition FIVE_COLOR_SCALE : list string :=
  ["#C22036"; "#A44914"; "#C68C0A"; "#03497A"; "#000000"].

(** *** Cells, Series, frames *)

(** A float64 value that is finite or NaN: [None] is NaN. *)
Abbreviation num := (option Q).

Inductive cell :=
  | NA
  | Num (q : Q)
  | Str (s : string)
  | Inf (positive : bool).

Abbreviation Series := (list cell).

Record DataFrame := {
  nrows : nat;
  columns : list (string * Series)
}.

(** The exceptions that occur.  [Unbound] and [NotFinite] are the model's
    own: a reference to no object, which no run of the module produces, and
    an infinity read as a number, which no run on a table of finite numbers
    produces. *)
Inductive exn :=
  | KeyError (key : string)
  | TypeError
  | ValueError
  | AttributeError
  | Unbound
  | NotFinite.

Inductive res (A : Type) :=
  | Ok (a : A)
  | Raise (e : exn).
Arguments Ok {A} a.
Arguments Raise {A} e.

Definition res_bind {A B} (r : res A) (k : A -> res B) : res B :=
  match r with
  | Ok a => k a
  | Raise e => Raise e
  end.

Notation "'let*' x := r 'in' k" := (res_bind r (fun x => k))
  (at level 10, x name, r at level 100, k at level 200).

Fixpoint res_map {A B} (f : A -> res B) (xs : list A) : res (list B) :=
  match xs with
  | [] => Ok []
  | x :: xs' => let* y := f x in let* ys := res_map f xs' in Ok (y :: ys)
  end.

(** [d[key]] on a dict kept as an association list. *)
Fixpoint assoc {V} (key : string) (kvs : list (string * V)) : option V :=
  match kvs with
  | [] => None
  | (k, v) :: rest => if String.eqb k key then Some v else assoc key rest
  end.

(** [d[key] = v]: an existing key keeps its position, a new one goes last. *)
Fixpoint assoc_set {V} (key : string) (v : V) (kvs : list (string * V)) : list (string * V) :=
  match kvs with
  | [] => [(key, v)]
  | (k, v0) :: rest =>
      if String.eqb k key then (k, v) :: rest else (k, v0) :: assoc_set key v rest
  end.

Definition column_names (d : DataFrame) : list string := map fst (columns d).

(** [name in df.columns] *)
Definition has_column (d : DataFrame) (name : string) : bool :=
  existsb (String.eqb name) (column_names d).

(** [df[name]] *)
Definition getcol (d : DataFrame) (name : string) : res Series :=
  match assoc name (columns d) with
  | Some s => Ok s
  | None => Raise (KeyError name)
  end.

(** [df[name] = series] *)
Definition setcol (d : DataFrame) (name : string) (s : Series) : DataFrame :=
  {| nrows := nrows d; columns := assoc_set name s (columns d) |}.

(** [df[name] = scalar] *)
Definition setcol_scalar (d : DataFrame) (name : string) (c : cell) : DataFrame :=
  setcol d name (repeat c (nrows d)).

(** [df.empty] *)
Definition is_empty (d : DataFrame) : bool :=
  ((nrows d =? 0) || (length (columns d) =? 0))%nat.

(** Every column has as many cells as the frame has rows, and no two
    columns share a name. *)
Definition well_formed (d : DataFrame) : Prop :=
  Forall (fun c => length (snd c) = nrows d) (columns d) /\ List.NoDup (column_names d).

(** *** Numeric Series *)

Definition of_num (x : num) : cell :=
  match x with
  | Some q => Num q
  | None => NA
  end.

(** Reading a cell as a float.  The columns the module computes with are
    the warehouse's count and share columns; a string in one of them makes
    the arithmetic raise [TypeError], and the model raises where the column
    is first used as numbers.  The numbers read are finite or NaN: the
    warehouse's counts and shares are finite, and the one column of the
    module that is computed by a division that can give an infinity,
    [pct_change], is masked before it is stored
    ([compute_pct_change_finite]), so no column that is read holds an
    infinity; reading one is outside the model. *)
Definition to_num (c : cell) : res num :=
  match c with
  | NA => Ok None
  | Num q => Ok (Some q)
  | Str _ => Raise TypeError
  | Inf _ => Raise NotFinite
  end.

Definition as_num (s : Series) : res (list num) := res_map to_num s.
Definition of_nums (xs : list num) : Series := map of_num xs.

(** [a - b] *)
Definition num_sub (a b : num) : num :=
  match a, b with
  | Some x, Some y => Some (Qred (x - y))
  | _, _ => None
  end.

(** [a / b] on float64 operands, as numpy divides: a finite quotient for a
    divisor that is not zero; for a zero divisor the infinity with the sign
    of the dividend (the zero of a count is +0), and NaN for 0 / 0; NaN
    when an operand is NaN. *)
Definition true_div (a b : num) : cell :=
  match a, b with
  | Some x, Some y =>
      if Qeq_bool y 0
      then (if Qeq_bool x 0 then NA else Inf (Qle_bool 0 x))
      else Num (Qred (x / y))
  | _, _ => NA
  end.

(** The quotient as a number, for the statements: what [true_div] returns
    on a divisor that is not zero ([true_div_num_div]), which is the case of
    the column total of line 264, tested on line 263, and of the literal
    [100.0] of line 342. *)
Definition num_div (a b : num) : num :=
  match a, b with
  | Some x, Some y => if Qeq_bool y 0 then None else Some (Qred (x / y))
  | _, _ => None
  end.

(** [a != 0], which is true of NaN. *)
Definition num_ne0 (a : num) : bool :=
  match a with
  | Some x => negb (Qeq_bool x 0)
  | None => true
  end.

(** [x.where(cond)]: keep where the condition holds, NaN elsewhere. *)
Definition num_where (x : cell) (cond : bool) : cell :=
  if cond then x else NA.

(** [abs(a)] *)
Definition num_abs (a : num) : num :=
  match a with
  | Some x => Some (Qabs x)
  | None => None
  end.

(** [series.sum()]: missing cells are skipped, the empty sum is 0.  The
    sum is the exact one.  That of a column of counts is what pandas
    returns as long as the total stays below 2^53, where int64 does not
    wrap and float64 adds whole numbers without rounding. *)
Fixpoint nansum (xs : list num) : Q :=
  match xs with
  | [] => 0
  | Some x :: xs' => Qred (x + nansum xs')
  | None :: xs' => nansum xs'
  end.

(** Truth value of a number in [if total]. *)
Definition truthy (q : Q) : bool := negb (Qeq_bool q 0).

Fixpoint zip_with_num {A} (f : num -> num -> A) (xs ys : list num) : list A :=
  match xs, ys with
  | x :: xs', y :: ys' => f x y :: zip_with_num f xs' ys'
  | _, _ => []
  end.

(** *** float64

    The numbers above are written as rationals.  What float64 stores for a
    quotient is the nearest number with a 53-bit significand, and what it
    returns for a sum likewise.  The exponent range plays no part: the
    numbers of the module are counts, shares and quotients of counts, far
    from overflow and underflow. *)

(** The unit roundoff of float64, 2^-53. *)
Definition unit_roundoff : Q := 1 # 9007199254740992.

(** The nearest integer, ties to the even one. *)
Definition round_half_even (x : Q) : Z :=
  let n := Qnum x in
  let d := Zpos (Qden x) in
  let q := (n / d)%Z in
  let r := (n mod d)%Z in
  match (2 * r ?= d)%Z with
  | Lt => q
  | Gt => (q + 1)%Z
  | Eq => if Z.even q then q else (q + 1)%Z
  end.

(** For a positive [x], the [L] with 2^L <= x < 2^(L+1). *)
Definition binade (x : Q) : Z :=
  let k := (Z.log2 (Qnum x) - Z.log2 (Zpos (Qden x)))%Z in
  if Qle_bool (2 ^ k) x then k else (k - 1)%Z.

(** The float64 nearest to [r] (IEEE 754 round to nearest, ties to even):
    [r] is scaled into [2^52, 2^53), rounded to an integer and scaled
    back. *)
Definition float64_of (r : Q) : Q :=
  if Qeq_bool r 0 then 0%Q
  else let e := (binade (Qabs r) - 52)%Z in
       Qred (inject_Z (round_half_even (r / 2 ^ e)) * 2 ^ e).

(** What is known of a rounding to nearest, whatever it does with ties. *)
Definition rounds_to_nearest (fl : Q -> Q) : Prop :=
  forall r, (Qabs (fl r - r) <= unit_roundoff * Qabs r)%Q.

(** The cells of a computed column as float64 stores them. *)
Definition stored (fl : Q -> Q) (xs : list num) : list num := map (option_map fl) xs.

(** A count: a whole number that is not negative. *)
Definition is_count (x : num) : Prop :=
  match x with
  | Some q => (0 <= q)%Q /\ Qden q = 1%positive
  | None => True
  end.

Fixpoint Qsum (ys : list Q) : Q :=
  match ys with
  | [] => 0
  | y :: ys' => y + Qsum ys'
  end.

(** [float_sum fl ys s k]: adding up the numbers [ys] in float64 can give
    [s], with [k] additions.  The order of the additions is left open
    (Python's [sum] adds from the left, numpy adds in blocks and pairs):
    any way of splitting the numbers into two parts, adding up either part
    and adding the two results is allowed. *)
Inductive float_sum (fl : Q -> Q) : list Q -> Q -> nat -> Prop :=
  | fs_nil : float_sum fl [] 0%Q 0
  | fs_one (y : Q) : float_sum fl [y] y 0
  | fs_add (ys1 ys2 : list Q) (s1 s2 : Q) (k1 k2 : nat) :
      float_sum fl ys1 s1 k1 -> float_sum fl ys2 s2 k2 ->
      float_sum fl (ys1 ++ ys2) (fl (s1 + s2)%Q) (S (k1 + k2))
  | fs_perm (ys ys' : list Q) (s : Q) (k : nat) :
      Permutation ys ys' -> float_sum fl ys s k -> float_sum fl ys' s k.

(** Adding from the left, starting from 0, as Python's [sum] does. *)
Definition float_sum_seq (fl : Q -> Q) (ys : list Q) : Q :=
  fold_left (fun acc y => fl (acc + y)%Q) ys 0%Q.

(** (1 + 2^-53)^k, the factor by which [k] roundings can move a sum. *)
Fixpoint compound (k : nat) : Q :=
  match k with
  | O => 1
  | S k' => (1 + unit_roundoff) * compound k'
  end.

(** *** Row selection *)

Definition take_rows (indexer : list nat) (s : Series) : Series :=
  map (fun i => nth i s NA) indexer.

(** [df.iloc[indexer]]: the rows at the given positions, in that order. *)
Definition iloc (d : DataFrame) (indexer : list nat) : DataFrame :=
  {| nrows := length indexer;
     columns := map (fun c => (fst c, take_rows indexer (snd c))) (columns d) |}.

(** [df.head(n)] *)
Definition head (n : nat) (d : DataFrame) : DataFrame :=
  {| nrows := Nat.min n (nrows d);
     columns := map (fun c => (fst c, take n (snd c))) (columns d) |}.

(** [np.nonzero(mask)], counting positions from [i]. *)
Fixpoint positions_from (i : nat) (mask : list bool) : list nat :=
  match mask with
  | [] => []
  | b :: mask' => (if b then [i] else []) ++ positions_from (S i) mask'
  end.

Definition positions (mask : list bool) : list nat := positions_from 0 mask.

Definition notna (c : cell) : bool :=
  match c with
  | NA => false
  | _ => true
  end.

(** [df.dropna(subset=[name])] *)
Definition dropna (name : string) (d : DataFrame) : res DataFrame :=
  let* s := getcol d name in
  Ok (iloc d (positions (map notna s))).

(** [df.assign(name=series)]: a new frame with the column added. *)
Definition assign (name : string) (s : Series) (d : DataFrame) : DataFrame :=
  setcol d name s.

(** The frame with its column names in lower case. *)
Definition lower_columns (d : DataFrame) : DataFrame :=
  {| nrows := nrows d; columns := map (fun c => (lower (fst c), snd c)) (columns d) |}.

(** [df.columns = df.columns.str.lower()].  pandas gives the [.str]
    accessor only on an index of strings: the column index of a frame
    without columns ([pd.DataFrame()]) holds none, and the access raises
    [AttributeError]. *)
Definition set_lower_columns (d : DataFrame) : res DataFrame :=
  match columns d with
  | [] => Raise AttributeError
  | _ :: _ => Ok (lower_columns d)
  end.

(** *** Labels *)

Section Pandas.

(** [str(x)] for a float: Python's shortest repr, a parameter. *)
Variable str_of_float : Q -> string.

(** The scalar branch of [_prepare]:
    [NULL_LABEL if pd.isna(val) else str(val)]. *)
Definition _prepare_scalar (val : cell) : string :=
  match val with
  | NA => NULL_LABEL
  | Num q => str_of_float q
  | Str s => s
  | Inf positive => if positive then "inf" else "-inf"
  end.

(** The Series branch of [_prepare]: [val.fillna(NULL_LABEL).astype(str)],
    which does to every cell what the scalar branch does. *)
Definition _prepare (val : Series) : Series :=
  map (fun c => Str (_prepare_scalar c)) val.

(** [series.map(mapping)] with a dict: a key that is absent gives NaN. *)
Definition map_dict (mapping : list (string * string)) (s : Series) : Series :=
  map (fun c => match c with
                | Str k => match assoc k mapping with
                           | Some v => Str v
                           | None => NA
                           end
                | _ => NA
                end) s.

(** *** Sorting

    [df.sort_values(by, ascending=False)] is called without [kind], so
    pandas hands the keys to [numpy.argsort] with its default kind,
    "quicksort".  That routine belongs to numpy; what it promises is an
    index array that is a permutation and along which the keys ascend.  It
    does not promise an order among equal keys: numpy documents the kind as
    not stable, and what it does with equal keys depends on the length of
    the array, on the numpy version and on the processor.  The routine is
    therefore a parameter, known by its contract [SortKind]. *)

Variable argsort : list Q -> list nat.

Definition key_at (keys : list Q) (i : nat) : Q := nth i keys 0%Q.

Definition SortKind (sorter : list Q -> list nat) : Prop :=
  forall keys,
    Permutation (sorter keys) (seq 0 (length keys))
    /\ StronglySorted (fun i j => (key_at keys i <= key_at keys j)%Q) (sorter keys).

Definition isna (x : num) : bool :=
  match x with
  | None => true
  | Some _ => false
  end.

(** [items[~mask]] *)
Fixpoint non_nans_of (items : list num) : list Q :=
  match items with
  | [] => []
  | Some q :: items' => q :: non_nans_of items'
  | None :: items' => non_nans_of items'
  end.

(** pandas' [nargsort(items, ascending=False, na_position="last")]: the
    present keys are reversed, argsorted ascending, mapped back to their
    positions and reversed again; the positions of the missing keys follow. *)
Definition nargsort_desc (items : list num) : list nat :=
  let non_nans := rev (non_nans_of items) in
  let non_nan_idx := rev (positions (map (fun x => negb (isna x)) items)) in
  let nan_idx := positions (map isna items) in
  let indexer := rev (map (fun j => nth j non_nan_idx 0) (argsort non_nans)) in
  indexer ++ nan_idx.

(** [df.sort_values(by, key=key, ascending=False)].  Every call site sorts
    by a count or share column; a key column holding a string is outside
    the model and raises here. *)
Definition sort_values_desc (by_ : string) (key : num -> num) (d : DataFrame) : res DataFrame :=
  let* s := getcol d by_ in
  let* items := as_num s in
  Ok (iloc d (nargsort_desc (map key items))).

(** Descending order of keys, the missing ones last. *)
Definition ranks_before (a b : num) : Prop :=
  match a, b with
  | Some x, Some y => (y <= x)%Q
  | Some _, None => True
  | None, None => True
  | None, Some _ => False
  end.

(** *** Reshaping *)

Fixpoint remove_str (x : string) (xs : list string) : list string :=
  match xs with
  | [] => []
  | y :: xs' => if String.eqb x y then remove_str x xs' else y :: remove_str x xs'
  end.

(** First occurrences, in order. *)
Fixpoint unique (xs : list string) : list string :=
  match xs with
  | [] => []
  | x :: xs' => x :: remove_str x (unique xs')
  end.

(** [df.melt(id_vars=id, value_vars=value_vars, var_name=var_name,
    value_name=value_name)].  pandas refuses a [value_name] that is already
    a column, checks that the identifier and the value columns exist, keeps
    each named column once, and then stacks the value columns: the
    identifier column is tiled once per value column, the variable column
    repeats each column name once per row, and the value column is the
    value columns one after the other. *)
Definition melt (d : DataFrame) (id_vars : string) (value_vars : list string)
    (var_name value_name : string) : res DataFrame :=
  if has_column d value_name then Raise ValueError else
  let* id_data := getcol d id_vars in
  let* _ := res_map (getcol d) value_vars in
  let value_cols := remove_str id_vars (unique value_vars) in
  let* values := res_map (getcol d) value_cols in
  let N := nrows d in
  let K := length value_cols in
  Ok {| nrows := N * K;
        columns := [ (id_vars, concat (repeat id_data K));
                     (var_name, flat_map (fun v => repeat (Str v) N) value_cols);
                     (value_name, concat values) ] |}.


(** *** The derived columns of [main]

    [main] computes these in line; they are named here after the
    operations of the specification. *)

(** One row of lines 491-493:
    [((new - base) / base).where(base != 0)]. *)
Definition compute_pct_change (base new : num) : cell :=
  num_where (true_div (num_sub new base) base) (num_ne0 base).

(** Lines 491-493: the Series assigned to [df["pct_change"]]. *)
Definition pct_change_column (d : DataFrame) : res Series :=
  let* new_s := getcol d ("cnt_" +:+ NEW_A) in
  let* base_s := getcol d ("cnt_" +:+ BASE_A) in
  let* new := as_num new_s in
  let* base := as_num base_s in
  Ok (zip_with_num (fun b n => compute_pct_change b n) base new).

(** Line 495, [df.sort_values(sort_key, ascending=False).head(n)];
    [main] uses the new version's count column and 25. *)
Definition rank_top_n (sort_key : string) (n : nat) (d : DataFrame) : res DataFrame :=
  let* sorted := sort_values_desc sort_key (fun x => x) d in
  Ok (head n sorted).

(** Lines 506-511,
    [df.dropna(subset=["pct_change"]).assign(abs_change=...)
       .sort_values("abs_change", ascending=False).head(n)];
    [main] uses 20. *)
Definition rank_by_abs_change (n : nat) (d : DataFrame) : res DataFrame :=
  let* dropped := dropna "pct_change" d in
  let* pc_s := getcol dropped "pct_change" in
  let* pc := as_num pc_s in
  let assigned := assign "abs_change" (of_nums (map num_abs pc)) dropped in
  let* sorted := sort_values_desc "abs_change" (fun x => x) assigned in
  Ok (head n sorted).

(** *** The store

    A [DataFrame] variable of the source holds a reference.  [df.copy()]
    and binding the result of a frame-returning method allocate a new
    object; [df[name] = ...] updates the object the reference points to. *)

Abbreviation loc := nat.

(** What a chart function hands to [st.altair_chart]: the data and the
    orderings; colours and axes are kept only as far as they are computed. *)
Record chart := {
  ch_title : string;
  ch_data : DataFrame;
  ch_y : string;
  ch_y_sort : list cell;
  ch_x : string;
  ch_version_order : list string;
  ch_colors : list string;
  ch_height : nat
}.

Inductive widget :=
  | AltairChart (c : chart)
  | Info (message : string)
  | Error (message : string) (e : exn)
  | Divider.

Record state := {
  heap : list DataFrame;
  page : list widget
}.

Definition M (A : Type) := state -> res A * state.

Definition ret {A} (a : A) : M A := fun st => (Ok a, st).

Definition bind {A B} (m : M A) (k : A -> M B) : M B :=
  fun st => match m st with
            | (Ok a, st') => k a st'
            | (Raise e, st') => (Raise e, st')
            end.

Notation "x <- m ;; k" := (bind m (fun x => k))
  (at level 100, m at next level, right associativity).
Notation "m ;; k" := (bind m (fun _ => k))
  (at level 100, right associativity).

(** A pure pandas expression, which may raise. *)
Definition lift {A} (r : res A) : M A := fun st => (r, st).

(** [try: body except Exception as e: handler(e)] *)
Definition try_except {A} (body : M A) (handler : exn -> M A) : M A :=
  fun st => match body st with
            | (Ok a, st') => (Ok a, st')
            | (Raise e, st') => handler e st'
            end.

Definition deref (l : loc) : M DataFrame :=
  fun st => match heap st !! l with
            | Some d => (Ok d, st)
            | None => (Raise Unbound, st)
            end.

Definition new (d : DataFrame) : M loc :=
  fun st => (Ok (length (heap st)), {| heap := heap st ++ [d]; page := page st |}).

Definition store (l : loc) (d : DataFrame) : M unit :=
  fun st => (Ok tt, {| heap := <[l := d]> (heap st); page := page st |}).

Definition emit (w : widget) : M unit :=
  fun st => (Ok tt, {| heap := heap st; page := page st ++ [w] |}).

(** [df.copy()] *)
Definition copy (l : loc) : M loc := d <- deref l ;; new d.

(** [df[name]] *)
Definition getitem (l : loc) (name : string) : M Series :=
  d <- deref l ;; lift (getcol d name).

(** [df[name] = series] *)
Definition setitem (l : loc) (name : string) (s : Series) : M unit :=
  d <- deref l ;; store l (setcol d name s).

(** [df[name] = scalar] *)
Definition setitem_scalar (l : loc) (name : string) (c : cell) : M unit :=
  d <- deref l ;; store l (setcol_scalar d name c).

(** [name in df.columns] *)
Definition contains (l : loc) (name : string) : M bool :=
  d <- deref l ;; ret (has_column d name).

(** [for x in xs: body(x)] *)
Fixpoint for_each {X} (xs : list X) (body : X -> M unit) : M unit :=
  match xs with
  | [] => ret tt
  | x :: xs' => body x ;; for_each xs' body
  end.

(** [[f(x) for x in xs]] and [{x: f(x) for x in xs}] *)
Fixpoint comprehension {X Y} (xs : list X) (f : X -> M Y) : M (list Y) :=
  match xs with
  | [] => ret []
  | x :: xs' => y <- f x ;; ys <- comprehension xs' f ;; ret (y :: ys)
  end.

(** [totals[col]] *)
Definition lookup_total (totals : list (string * Q)) (col : string) : res Q :=
  match assoc col totals with
  | Some t => Ok t
  | None => Raise (KeyError col)
  end.

(** *** Chart helpers *)

(** [_melt] *)
Definition _melt (df : loc) (value_cols : list string) (value_name : string) : M loc :=
  df_disp <- copy df ;;
  field_value <- getitem df_disp "field_value" ;;
  setitem df_disp "field_value" (_prepare field_value) ;;
  d <- deref df_disp ;;
  long <- lift (melt d "field_value" value_cols "version" value_name) ;;
  new long.

(** Lines 222-229 of [chart_counts], and in the same words lines 268-275
    of [chart_percentages]: the reshape of the specification.  [_melt]
    stacks the value columns, and the name of each value column is then
    replaced by the label its version has in [version_map]. *)
Definition reshape_wide_to_long (df : loc) (value_cols : list string) (value_name : string)
    (version_map : list (string * string)) : M loc :=
  long <- _melt df value_cols value_name ;;
  version <- getitem long "version" ;;
  setitem long "version" (map_dict version_map version) ;;
  ret long.

Definition mem_str (x : string) (xs : list string) : bool := existsb (String.eqb x) xs.

(** [_sort_by_new] *)
Definition _sort_by_new (df : loc) (new_col : string) : M (list cell) :=
  ipeds <- contains df "cnt_ipeds" ;;
  if ipeds then
    field_value <- getitem df "field_value" ;;
    let seen := map _prepare_scalar field_value in
    let order := List.filter (fun d => mem_str d seen) _DEGREE_ORDER
                 ++ List.filter (fun v => negb (mem_str v _DEGREE_ORDER)) seen in
    ret (map Str order)
  else
    d <- deref df ;;
    sorted <- lift (sort_values_desc new_col (fun x => x) d) ;;
    field_value <- lift (getcol sorted "field_value") ;;
    ret (map (fun v => Str (_prepare_scalar v)) field_value).

(** [f"pct_{col.replace('cnt_', '')}"] *)
Definition pct_name (col : string) : string := "pct_" +:+ str_replace "cnt_" "" col.

(** Lines 260-264 of [chart_percentages]: the column totals, the copy, and
    one percentage column per value column.  Returns [df_pct]. *)
Definition compute_percentages (df : loc) (value_cols : list string) : M loc :=
  totals <- comprehension value_cols (fun col =>
              s <- getitem df col ;;
              xs <- lift (as_num s) ;;
              ret (col, nansum xs)) ;;
  df_pct <- copy df ;;
  for_each value_cols (fun col =>
    total <- lift (lookup_total totals col) ;;
    if truthy total then
      s <- getitem df col ;;
      xs <- lift (as_num s) ;;
      setitem df_pct (pct_name col) (map (fun x => true_div x (Some total)) xs)
    else
      setitem_scalar df_pct (pct_name col) (Num 0)) ;;
  ret df_pct.

(** [st.altair_chart(chart, use_container_width=True)] *)
Definition altair_chart (c : chart) : M unit := emit (AltairChart c).

(** The value columns and the version order shared by [chart_counts] and
    [chart_percentages]. *)
Definition count_columns (ipeds : bool) : list string :=
  ["cnt_" +:+ BASE_A; "cnt_" +:+ NEW_A] ++ (if ipeds then ["cnt_ipeds"] else []).

Definition version_order_of (ipeds : bool) : list string :=
  if ipeds then _VERSION_ORDER_IPEDS else _VERSION_ORDER_DEFAULT.

(** [chart_counts] *)
Definition chart_counts (df : loc) (title : string) : M unit :=
  ipeds <- contains df "cnt_ipeds" ;;
  let value_cols := count_columns ipeds in
  let version_order := version_order_of ipeds in
  order <- _sort_by_new df ("cnt_" +:+ NEW_A) ;;
  long <- _melt df value_cols "count" ;;
  let version_map := [ ("cnt_" +:+ BASE_A, _label BASE_VERSION);
                       ("cnt_" +:+ NEW_A, _label NEW_VERSION);
                       ("cnt_ipeds", "ipeds") ] in
  version <- getitem long "version" ;;
  setitem long "version" (map_dict version_map version) ;;
  let my_colors := take (length version_order) FIVE_COLOR_SCALE in
  data <- deref long ;;
  altair_chart {| ch_title := title; ch_data := data;
                  ch_y := "field_value"; ch_y_sort := order; ch_x := "count";
                  ch_version_order := version_order; ch_colors := my_colors;
                  ch_height := 600 |}.

(** [chart_percentages] *)
Definition chart_percentages (df : loc) (title : string) : M unit :=
  ipeds <- contains df "cnt_ipeds" ;;
  let value_cols := count_columns ipeds in
  let version_order := version_order_of ipeds in
  df_pct <- compute_percentages df value_cols ;;
  order <- _sort_by_new df ("cnt_" +:+ NEW_A) ;;
  let pct_cols := map pct_name value_cols in
  long <- _melt df_pct pct_cols "pct" ;;
  let version_map := [ ("pct_" +:+ BASE_A, _label BASE_VERSION);
                       ("pct_" +:+ NEW_A, _label NEW_VERSION);
                       ("pct_ipeds", "ipeds") ] in
  version <- getitem long "version" ;;
  setitem long "version" (map_dict version_map version) ;;
  let my_colors := take (length version_order) FIVE_COLOR_SCALE in
  data <- deref long ;;
  altair_chart {| ch_title := title; ch_data := data;
                  ch_y := "field_value"; ch_y_sort := order; ch_x := "pct";
                  ch_version_order := version_order; ch_colors := my_colors;
                  ch_height := 600 |}.

(** [chart_pct_change] *)
Definition chart_pct_change (df : loc) (title : string) : M unit :=
  df_disp <- copy df ;;
  field_value <- getitem df_disp "field_value" ;;
  setitem df_disp "field_value" (_prepare field_value) ;;
  d <- deref df_disp ;;
  sorted <- lift (sort_values_desc "pct_change" num_abs d) ;;
  order <- lift (getcol sorted "field_value") ;;
  altair_chart {| ch_title := title; ch_data := d;
                  ch_y := "field_value"; ch_y_sort := order; ch_x := "pct_change";
                  ch_version_order := []; ch_colors := ["#03497A"; "#C22036"];
                  ch_height := 600 |}.

(** [chart_role_benchmarks] *)
Definition chart_role_benchmarks (df : loc) (title : string) : M unit :=
  let pct_base_col := "pct_" +:+ BASE_A in
  let pct_new_col := "pct_" +:+ NEW_A in
  let value_cols := [pct_new_col; pct_base_col; "oews_emp_share"; "acs_emp_share"] in
  let version_map := [ (pct_new_col, NEW_VERSION); (pct_base_col, BASE_VERSION);
                       ("oews_emp_share", "OEWS"); ("acs_emp_share", "ACS") ] in
  df_disp <- copy df ;;
  scaled <- comprehension value_cols (fun col =>
              s <- getitem df_disp col ;;
              xs <- lift (as_num s) ;;
              ret (col, map (fun x => true_div x (Some 100%Q)) xs)) ;;
  for_each scaled (fun cs => setitem df_disp (fst cs) (snd cs)) ;;
  soc2 <- getitem df_disp "bgi_soc2_name" ;;
  setitem df_disp "field_value" (_prepare soc2) ;;
  d <- deref df_disp ;;
  sorted <- lift (sort_values_desc pct_new_col (fun x => x) d) ;;
  order <- lift (getcol sorted "field_value") ;;
  melted <- lift (melt d "field_value" value_cols "version" "pct") ;;
  long <- new melted ;;
  version <- getitem long "version" ;;
  setitem long "version" (map_dict version_map version) ;;
  let version_order := _VERSION_ORDER_ROLES in
  let my_colors := take (length version_order) FIVE_COLOR_SCALE in
  data <- deref long ;;
  altair_chart {| ch_title := title; ch_data := data;
                  ch_y := "field_value"; ch_y_sort := order; ch_x := "pct";
                  ch_version_order := version_order; ch_colors := my_colors;
                  ch_height := 700 |}.

(** [chart_employer_industry] *)
Definition chart_employer_industry (df : loc) (title : string) : M unit :=
  let perc_base_col := "perc_" +:+ BASE_A in
  let perc_new_col := "perc_" +:+ NEW_A in
  let value_cols := ["perc_bls"; perc_base_col; perc_new_col] in
  let col_to_version := [ ("perc_bls", "BLS 2023"); (perc_base_col, BASE_VERSION);
                          (perc_new_col, NEW_VERSION) ] in
  d <- deref df ;;
  sorted <- lift (sort_values_desc perc_new_col (fun x => x) d) ;;
  industry <- lift (getcol sorted "industry") ;;
  let order := map (fun v => Str (_prepare_scalar v)) industry in
  melted <- lift (melt d "industry" value_cols "source" "pct") ;;
  long <- new melted ;;
  source <- getitem long "source" ;;
  setitem long "version" (map_dict col_to_version source) ;;
  let version_order := _VERSION_ORDER_BLS in
  let my_colors := take (length version_order) FIVE_COLOR_SCALE in
  data <- deref long ;;
  altair_chart {| ch_title := title; ch_data := data;
                  ch_y := "industry"; ch_y_sort := order; ch_x := "pct";
                  ch_version_order := version_order; ch_colors := my_colors;
                  ch_height := 600 |}.

(** [f"{what} ({NEW_VERSION} vs {BASE_VERSION})"] *)
Definition versions_title (what : string) : string :=
  what +:+ " (" +:+ NEW_VERSION +:+ " vs " +:+ BASE_VERSION +:+ ")".

(** The comparison part of one field in [main] (lines 482-516), from the
    frame the query returned.  Returns whether the loop [continue]d. *)
Definition comparison_charts (df : loc) : M bool :=
  d <- deref df ;;
  lowered <- lift (set_lower_columns d) ;;
  store df lowered ;;
  d <- deref df ;;
  if is_empty d then
    emit (Info "No data returned.") ;;
    emit Divider ;;
    ret true
  else
    pct_change <- lift (pct_change_column d) ;;
    setitem df "pct_change" pct_change ;;
    d <- deref df ;;
    top25 <- lift (rank_top_n ("cnt_" +:+ NEW_A) 25 d) ;;
    df_top25 <- new top25 ;;
    chart_percentages df_top25 (versions_title "Top 25 Values - Percentages") ;;
    chart_counts df_top25 (versions_title "Top 25 Values - Counts") ;;
    d <- deref df ;;
    change <- lift (rank_by_abs_change 20 d) ;;
    df_change <- new change ;;
    (if is_empty change then ret tt
     else chart_pct_change df_change (versions_title "Largest Percentage Differences")) ;;
    ret false.

(** Lines 481-522: the query result is either a frame or the exception the
    warehouse raised; any exception is shown in line. *)
Definition comparison_section (query : res DataFrame) (expected_table : string) : M unit :=
  continued <- try_except
    (d <- lift query ;;
     df <- new d ;;
     comparison_charts df)
    (fun e =>
     emit (Error "Error loading comparison data" e) ;;
     emit (Info ("Expected table: " +:+ expected_table)) ;;
     ret false) ;;
  if continued then ret tt else emit Divider.

(** Lines 528-545: the extra chart of the roles topic, from what the query
    for the benchmark table returned. *)
Definition roles_section (query : res DataFrame) (expected_table : string) : M unit :=
  try_except
    (d <- lift query ;;
     roles_df <- new d ;;
     d <- deref roles_df ;;
     lowered <- lift (set_lower_columns d) ;;
     store roles_df lowered ;;
     d <- deref roles_df ;;
     if is_empty d then
       emit (Info "No data returned for Roles benchmark chart.")
     else
       let pct_new_col := "pct_" +:+ NEW_A in
       top <- lift (rank_top_n pct_new_col 25 d) ;;
       roles_df <- new top ;;
       chart_role_benchmarks roles_df
         ("SOC-2 Employment Share: " +:+ NEW_VERSION +:+ " vs " +:+ BASE_VERSION
          +:+ " vs OEWS vs ACS"))
    (fun e =>
     emit (Error "Error loading roles benchmark data" e) ;;
     emit (Info ("Expected table: " +:+ expected_table))) ;;
  emit Divider.

(** Lines 551-565: the extra chart of the employers topic. *)
Definition employers_section (query : res DataFrame) (expected_table : string) : M unit :=
  try_except
    (d <- lift query ;;
     bls_df <- new d ;;
     d <- deref bls_df ;;
     lowered <- lift (set_lower_columns d) ;;
     store bls_df lowered ;;
     d <- deref bls_df ;;
     if is_empty d then
       emit (Info "No data returned for Employer Industry chart.")
     else
       let perc_new_col := "perc_" +:+ NEW_A in
       top <- lift (rank_top_n perc_new_col 20 d) ;;
       bls_df <- new top ;;
       chart_employer_industry bls_df "Comparison with BLS, Year = 2023")
    (fun e =>
     emit (Error "Error loading employer industry data" e) ;;
     emit (Info ("Expected table: " +:+ expected_table))) ;;
  emit Divider.

(** *** Auxiliary definitions for the statements *)

(** The numbers of a column known to be numeric. *)
Definition column_nums (d : DataFrame) (col : string) : list num :=
  match getcol d col with
  | Ok s => match as_num s with Ok xs => xs | Raise _ => [] end
  | Raise _ => []
  end.

(** The number a cell holds, if it holds one. *)
Definition num_of (c : cell) : num :=
  match c with
  | Num q => Some q
  | _ => None
  end.

(** The percent changes of lines 491-493 as numbers; the column holds
    nothing else ([pct_change_nums_column]). *)
Definition pct_change_nums (base new : list num) : list num :=
  map num_of (zip_with_num (fun b n => compute_pct_change b n) base new).

(** The percentage column lines 262-264 derive from a count column. *)
Definition pct_column (n : nat) (xs : list num) : Series :=
  if truthy (nansum xs)
  then of_nums (map (fun x => num_div x (Some (nansum xs))) xs)
  else repeat (Num 0) n.

(** One turn of the loop of lines 262-264, as a change of [df_pct]. *)
Definition pct_step (d : DataFrame) (d_pct : DataFrame) (col : string) : DataFrame :=
  setcol d_pct (pct_name col) (pct_column (nrows d_pct) (column_nums d col)).

(** The [version_map] of [chart_counts] and that of [chart_percentages]. *)
Definition count_version_map : list (string * string) :=
  [ ("cnt_" +:+ BASE_A, _label BASE_VERSION);
    ("cnt_" +:+ NEW_A, _label NEW_VERSION);
    ("cnt_ipeds", "ipeds") ].

Definition pct_version_map : list (string * string) :=
  [ ("pct_" +:+ BASE_A, _label BASE_VERSION);
    ("pct_" +:+ NEW_A, _label NEW_VERSION);
    ("pct_ipeds", "ipeds") ].

(** What [.map(version_map)] makes of the name of a value column. *)
Definition version_cell (version_map : list (string * string)) (col : string) : cell :=
  match assoc col version_map with
  | Some label => Str label
  | None => NA
  end.

(** The labels the version maps give the value columns, in column order. *)
Definition version_labels (ipeds : bool) : list string :=
  [_label BASE_VERSION; _label NEW_VERSION] ++ (if ipeds then ["ipeds"] else []).

(** The long table behind a grouped bar chart: one block of [N] rows per
    version, each block listing the categories beside that version's label
    and values. *)
Definition long_table (N : nat) (categories : Series) (versions : list string)
    (value_name : string) (values : list Series) : DataFrame :=
  {| nrows := N * length versions;
     columns := [ ("field_value", concat (repeat categories (length versions)));
                  ("version", flat_map (fun v => repeat (Str v) N) versions);
                  (value_name, concat values) ] |}.

(** *** Frames a computation leaves untouched

    [extends_from b post m]: started on a heap of at least [b] objects, [m]
    leaves the first [b] as they are, drops none, and any value it returns
    satisfies [post]. *)

Definition extends_from {A} (b : nat) (post : A -> Prop) (m : M A) : Prop :=
  forall st, b <= length (heap st) ->
    take b (heap (snd (m st))) = take b (heap st)
    /\ b <= length (heap (snd (m st)))
    /\ forall a, fst (m st) = Ok a -> post a.

Definition anything {A} (a : A) : Prop := True.
Definition fresh_from (b : nat) (l : loc) : Prop := b <= l.

(** *** What a computation guarantees when it returns

    [post_of P m]: whenever [m] returns a value, [P] holds of the value and
    the state it leaves. *)

Definition post_of {A} (P : A -> state -> Prop) (m : M A) : Prop :=
  forall st a, fst (m st) = Ok a -> P a (snd (m st)).

(** *** Two sort routines

    Both meet what numpy promises of [argsort]; they differ on equal keys.
    Neither is numpy's routine, whose treatment of equal keys changes from
    one array to the next: the module returns the tied rows of [tied] in
    row order, the order [stable_argsort] gives, and those of [tied_pairs]
    in reverse, the order [reversing_argsort] gives.
    Insertion by [before]: index [i] goes in front of the first [j] whose
    key it may precede. *)

Fixpoint insert_index (before : Q -> Q -> bool) (keys : list Q) (i : nat) (sorted : list nat)
    : list nat :=
  match sorted with
  | [] => [i]
  | j :: rest =>
      if before (key_at keys i) (key_at keys j)
      then i :: j :: rest
      else j :: insert_index before keys i rest
  end.

Definition insertion_argsort (before : Q -> Q -> bool) (keys : list Q) : list nat :=
  fold_right (insert_index before keys) [] (seq 0 (length keys)).

(** Equal keys keep their order. *)
Definition stable_argsort : list Q -> list nat := insertion_argsort Qle_bool.

(** Equal keys come out in reverse order. *)
Definition reversing_argsort : list Q -> list nat :=
  insertion_argsort (fun a b => negb (Qle_bool b a)).

(** *** Concrete tables *)

(** Three values; the first two have the same new count. *)
Definition tied : DataFrame :=
  {| nrows := 3;
     columns := [ ("field_value", [Str "A"; Str "B"; Str "C"]);
                  ("cnt_" +:+ BASE_A, [Num 5; Num 6; Num 8]);
                  ("cnt_" +:+ NEW_A, [Num 7; Num 7; Num 9]) ] |}.

(** A small comparison table with a missing category and a zero base count. *)
Definition sample : DataFrame :=
  {| nrows := 3;
     columns := [ ("field_value", [Str "Associate"; NA; Str "Doctorate"]);
                  ("cnt_" +:+ BASE_A, [Num 100; Num 0; Num 100]);
                  ("cnt_" +:+ NEW_A, [Num 150; Num 10; Num 50]) ] |}.

(** The same with a column whose sum is zero. *)
Definition sample_zero : DataFrame :=
  {| nrows := 3;
     columns := [ ("field_value", [Str "Associate"; NA; Str "Doctorate"]);
                  ("cnt_" +:+ BASE_A, [Num 0; Num 0; Num 0]);
                  ("cnt_" +:+ NEW_A, [Num 150; Num 10; Num 50]) ] |}.

Definition str_of_float_demo (q : Q) : string := "0.0".

(** The scenario of the specification: two rows, the second with a base
    count of zero. *)
Definition scenario : DataFrame :=
  {| nrows := 2;
     columns := [ ("field_value", [Str "Bachelor's Degree"; Str "Certificate"]);
                  ("cnt_" +:+ BASE_A, [Num 100; Num 0]);
                  ("cnt_" +:+ NEW_A, [Num 120; Num 10]) ] |}.

Definition scenario_ranked : DataFrame :=
  {| nrows := 1;
     columns := [ ("field_value", [Str "Bachelor's Degree"]);
                  ("cnt_" +:+ BASE_A, [Num 100]);
                  ("cnt_" +:+ NEW_A, [Num 120]);
                  ("pct_change", [Num (1 # 5)]);
                  ("abs_change", [Num (1 # 5)]) ] |}.

(** An industry table with one industry missing. *)
Definition industry_table : DataFrame :=
  {| nrows := 2;
     columns := [ ("industry", [Str "Retail Trade"; NA]);
                  ("perc_bls", [Num (3 # 5); Num (2 # 5)]);
                  ("perc_" +:+ BASE_A, [Num (1 # 2); Num (1 # 2)]);
                  ("perc_" +:+ NEW_A, [Num (7 # 10); Num (3 # 10)]) ] |}.

(** An industry table whose rows are not in the order of the new share. *)
Definition employers_table : DataFrame :=
  {| nrows := 3;
     columns := [ ("industry", [NA; Str "Retail Trade"; Str "Finance"]);
                  ("perc_bls", [Num (1 # 4); Num (2 # 5); Num (7 # 20)]);
                  ("perc_" +:+ BASE_A, [Num (1 # 4); Num (9 # 20); Num (3 # 10)]);
                  ("perc_" +:+ NEW_A, [Num (1 # 5); Num (1 # 2); Num (3 # 10)]) ] |}.

(** A degree table with the IPEDS benchmark column. *)
Definition degree_table : DataFrame :=
  {| nrows := 3;
     columns := [ ("field_value", [Str "Doctorate"; NA; Str "Associate"]);
                  ("cnt_" +:+ BASE_A, [Num 5; Num 1; Num 20]);
                  ("cnt_" +:+ NEW_A, [Num 6; Num 2; Num 30]);
                  ("cnt_ipeds", [Num 4; Num 0; Num 25]) ] |}.

(** The roles benchmark table, its shares in percent. *)
Definition roles_table : DataFrame :=
  {| nrows := 2;
     columns := [ ("bgi_soc2_name", [Str "Management"; NA]);
                  ("pct_" +:+ NEW_A, [Num 40; Num 60]);
                  ("pct_" +:+ BASE_A, [Num 55; Num 45]);
                  ("oews_emp_share", [Num 50; Num 50]);
                  ("acs_emp_share", [Num 52; Num 48]) ] |}.

(** The scenario table as the warehouse returns it, its column names in
    upper case. *)
Definition warehouse_table : DataFrame :=
  {| nrows := 2;
     columns := [ ("FIELD_VALUE", [Str "Bachelor's Degree"; Str "Certificate"]);
                  ("CNT_V5_OCT25", [Num 100; Num 0]);
                  ("CNT_V5_JAN26", [Num 120; Num 10]) ] |}.

(** Four values whose new counts tie in pairs. *)
Definition tied_pairs : DataFrame :=
  {| nrows := 4;
     columns := [ ("field_value", [Str "A"; Str "B"; Str "C"; Str "D"]);
                  ("cnt_" +:+ BASE_A, [Num 5; Num 6; Num 8; Num 8]);
                  ("cnt_" +:+ NEW_A, [Num 7; Num 7; Num 9; Num 9]) ] |}.

(** A table of percent changes with a missing category and a missing
    change. *)
Definition changes_table : DataFrame :=
  {| nrows := 4;
     columns := [ ("field_value", [Str "Associate"; NA; Str "Doctorate"; Str "Certificate"]);
                  ("pct_change", [Num (1 # 2); Num (-3 # 4); NA; Num (1 # 4)]) ] |}.

Definition charts_of (ws : list widget) : list chart :=
  flat_map (fun w => match w with AltairChart c => [c] | _ => [] end) ws.

Definition charted_categories (category : string) (w : widget) : option (res Series) :=
  match w with
  | AltairChart c => Some (getcol (ch_data c) category)
  | _ => None
  end.

(** *** Facts: association lists and columns *)

Lemma assoc_set_eq {V} (key : string) (v : V) (kvs : list (string * V)) :
  assoc key (assoc_set key v kvs) = Some v.
Proof.
  induction kvs as [|[k v0] kvs IH]; simpl.
  - rewrite String.eqb_refl. reflexivity.
  - destruct (String.eqb k key) eqn:E; simpl; rewrite E; [reflexivity|exact IH].
Qed.

Lemma assoc_set_ne {V} (key key' : string) (v : V) (kvs : list (string * V)) :
  key <> key' -> assoc key' (assoc_set key v kvs) = assoc key' kvs.
Proof.
  intros Hne. induction kvs as [|[k v0] kvs IH]; simpl.
  - destruct (String.eqb_spec key key'); [contradiction|reflexivity].
  - destruct (String.eqb_spec k key) as [->|Hk]; simpl.
    + destruct (String.eqb_spec key key'); [contradiction|reflexivity].
    + destruct (String.eqb k key'); [reflexivity|exact IH].
Qed.

Lemma getcol_setcol_eq (d : DataFrame) (name : string) (s : Series) :
  getcol (setcol d name s) name = Ok s.
Proof. unfold getcol, setcol. simpl. rewrite assoc_set_eq. reflexivity. Qed.

Lemma getcol_setcol_ne (d : DataFrame) (name name' : string) (s : Series) :
  name <> name' -> getcol (setcol d name s) name' = getcol d name'.
Proof. intros H. unfold getcol, setcol. simpl. rewrite assoc_set_ne by exact H. reflexivity. Qed.

Lemma assoc_In {V} (key : string) (v : V) (kvs : list (string * V)) :
  assoc key kvs = Some v -> In (key, v) kvs.
Proof.
  induction kvs as [|[k v0] kvs IH]; simpl; [discriminate|].
  destruct (String.eqb_spec k key) as [->|Hk].
  - intros [= ->]. left. reflexivity.
  - intros H. right. apply IH. exact H.
Qed.

Lemma assoc_map_snd {V W} (f : V -> W) (key : string) (kvs : list (string * V)) :
  assoc key (map (fun c => (fst c, f (snd c))) kvs) = option_map f (assoc key kvs).
Proof.
  induction kvs as [|[k v0] kvs IH]; simpl; [reflexivity|].
  destruct (String.eqb k key); [reflexivity|exact IH].
Qed.

Lemma getcol_length (d : DataFrame) (name : string) (s : Series) :
  well_formed d -> getcol d name = Ok s -> length s = nrows d.
Proof.
  intros [Hlen _]. unfold getcol. destruct (assoc name (columns d)) as [s'|] eqn:E; [|discriminate].
  intros [= <-]. apply assoc_In in E.
  rewrite List.Forall_forall in Hlen. apply (Hlen _ E).
Qed.

Lemma has_column_getcol (d : DataFrame) (name : string) :
  has_column d name = true <-> exists s, getcol d name = Ok s.
Proof.
  unfold has_column, getcol, column_names.
  induction (columns d) as [|[k v] kvs IH]; simpl.
  - split; [discriminate|intros [s [=]]].
  - rewrite String.eqb_sym. destruct (String.eqb k name); simpl.
    + split; [eauto|reflexivity].
    + exact IH.
Qed.

(** *** Facts: numeric Series *)

Lemma as_num_of_nums (xs : list num) : as_num (of_nums xs) = Ok xs.
Proof.
  unfold as_num, of_nums. induction xs as [|[q|] xs IH]; simpl; [reflexivity| |];
    rewrite IH; reflexivity.
Qed.

Lemma zip_with_num_length {A} (f : num -> num -> A) (xs ys : list num) :
  length xs = length ys -> length (zip_with_num f xs ys) = length xs.
Proof.
  revert ys. induction xs as [|x xs IH]; intros [|y ys]; simpl; try discriminate; [reflexivity|].
  intros [= H]. rewrite (IH _ H). reflexivity.
Qed.

Lemma zip_with_num_lookup {A} (f : num -> num -> A) (xs ys : list num) (i : nat) (x y : num) :
  xs !! i = Some x -> ys !! i = Some y -> zip_with_num f xs ys !! i = Some (f x y).
Proof.
  revert ys i. induction xs as [|x0 xs IH]; intros [|y0 ys] [|i]; simpl; try discriminate.
  - intros [= ->] [= ->]. reflexivity.
  - apply IH.
Qed.

Lemma of_nums_lookup (xs : list num) (i : nat) (x : num) :
  xs !! i = Some x -> of_nums xs !! i = Some (of_num x).
Proof.
  unfold of_nums. revert i. induction xs as [|x0 xs IH]; intros [|i]; simpl; try discriminate.
  - intros [= ->]. reflexivity.
  - apply IH.
Qed.

Lemma truthy_false (q : Q) : truthy q = false <-> (q == 0)%Q.
Proof.
  unfold truthy. rewrite negb_false_iff. apply Qeq_bool_iff.
Qed.

Lemma truthy_true (q : Q) : truthy q = true <-> ~ (q == 0)%Q.
Proof.
  rewrite <- truthy_false. destruct (truthy q); split; congruence.
Qed.

Lemma true_div_num_div (a : num) (t : Q) :
  ~ (t == 0)%Q -> true_div a (Some t) = of_num (num_div a (Some t)).
Proof.
  intros Ht. unfold true_div, num_div. destruct a as [x|]; [|reflexivity].
  destruct (Qeq_bool t 0) eqn:E; [|reflexivity].
  apply Qeq_bool_iff in E. contradiction.
Qed.

Lemma true_div_column (t : Q) (xs : list num) :
  ~ (t == 0)%Q ->
  map (fun x => true_div x (Some t)) xs = of_nums (map (fun x => num_div x (Some t)) xs).
Proof.
  intros Ht. unfold of_nums. rewrite map_map. apply map_ext. intros x.
  apply true_div_num_div. exact Ht.
Qed.

(** *** Facts: percent change *)

(** Over a zero divisor the quotient is an infinity, unless the dividend
    is zero too. *)
Lemma true_div_zero (x y : Q) :
  (y == 0)%Q -> ~ (x == 0)%Q -> true_div (Some x) (Some y) = Inf (Qle_bool 0 x).
Proof.
  intros Hy Hx. unfold true_div.
  apply Qeq_bool_iff in Hy. rewrite Hy.
  destruct (Qeq_bool x 0) eqn:E; [|reflexivity].
  apply Qeq_bool_iff in E. contradiction.
Qed.

Lemma compute_pct_change_nonzero (b n : Q) :
  ~ (b == 0)%Q ->
  exists q, compute_pct_change (Some b) (Some n) = Num q /\ (q == (n - b) / b)%Q.
Proof.
  intros Hb. unfold compute_pct_change, num_ne0, true_div, num_sub, num_where.
  destruct (Qeq_bool b 0) eqn:E.
  - apply Qeq_bool_iff in E. contradiction.
  - simpl. eexists. split; [reflexivity|].
    rewrite Qred_correct. rewrite Qred_correct. reflexivity.
Qed.

Lemma compute_pct_change_zero (b : Q) (new : num) :
  (b == 0)%Q -> compute_pct_change (Some b) new = NA.
Proof.
  intros Hb. unfold compute_pct_change, num_ne0, num_where.
  apply Qeq_bool_iff in Hb. rewrite Hb. reflexivity.
Qed.

(** The quotient that the mask of line 493 replaces: at a base count of
    zero and a new count that is not zero, numpy's division has given an
    infinity, with the sign of the new count. *)
Lemma unmasked_quotient_infinite (b n : Q) :
  (b == 0)%Q -> ~ (n == 0)%Q ->
  true_div (num_sub (Some n) (Some b)) (Some b) = Inf (Qle_bool 0 n).
Proof.
  intros Hb Hn. unfold num_sub. rewrite true_div_zero.
  - f_equal. destruct (Qle_bool 0 n) eqn:E1, (Qle_bool 0 (Qred (n - b))) eqn:E2;
      try reflexivity; exfalso.
    + apply Qle_bool_iff in E1.
      assert (H : ~ (0 <= Qred (n - b))%Q) by (rewrite <- Qle_bool_iff; congruence).
      apply H. rewrite Qred_correct. lra.
    + apply Qle_bool_iff in E2. rewrite Qred_correct in E2.
      assert (H : ~ (0 <= n)%Q) by (rewrite <- Qle_bool_iff; congruence).
      apply H. lra.
  - exact Hb.
  - rewrite Qred_correct. lra.
Qed.

(** After the mask no infinity is left: a percent change is a number or
    missing. *)
Lemma compute_pct_change_finite (base new : num) :
  compute_pct_change base new = of_num (num_of (compute_pct_change base new)).
Proof.
  unfold compute_pct_change, num_where, num_ne0, true_div, num_sub.
  destruct base as [b|], new as [n|]; try reflexivity;
    destruct (Qeq_bool b 0); reflexivity.
Qed.

Lemma pct_change_nums_column (base new : list num) :
  zip_with_num (fun b n => compute_pct_change b n) base new
  = of_nums (pct_change_nums base new).
Proof.
  unfold pct_change_nums, of_nums. rewrite map_map. revert new.
  induction base as [|b base IH]; intros [|n new]; try reflexivity.
  simpl. rewrite <- compute_pct_change_finite. f_equal. apply IH.
Qed.

(** C1 (percent change).  In a comparison table whose two count columns
    are numeric, the column [main] assigns to [pct_change] has one cell per
    row, each a number or missing; in a row with base count [b] and new
    count [n] the cell is the number (n - b) / b when [b] is not zero; in
    every row whose base count is zero the cell is missing, whatever the
    new count, and it is the mask [.where(base != 0)] that makes it so: the
    quotient it replaces is an infinity when the new count is not zero;
    and compute_pct_change(100, 150) = 0.5,
    compute_pct_change(100, 50) = -0.5. *)
Theorem pct_change_rows (d : DataFrame) (base new : list num) :
  getcol d ("cnt_" +:+ BASE_A) = Ok (of_nums base) ->
  getcol d ("cnt_" +:+ NEW_A) = Ok (of_nums new) ->
  length base = length new ->
  exists s,
    pct_change_column d = Ok s
    /\ length s = length base
    /\ Forall (fun c => c = NA \/ exists q, c = Num q) s
    /\ (forall i b n, base !! i = Some (Some b) -> new !! i = Some (Some n) -> ~ (b == 0)%Q ->
          exists q, s !! i = Some (Num q) /\ (q == (n - b) / b)%Q)
    /\ (forall i b x, base !! i = Some (Some b) -> new !! i = Some x -> (b == 0)%Q ->
          s !! i = Some NA)
    /\ (forall i b n, base !! i = Some (Some b) -> new !! i = Some (Some n) ->
          (b == 0)%Q -> ~ (n == 0)%Q ->
          true_div (num_sub (Some n) (Some b)) (Some b) = Inf (Qle_bool 0 n)
          /\ s !! i = Some (num_where (Inf (Qle_bool 0 n)) (num_ne0 (Some b))))
    /\ compute_pct_change (Some 100%Q) (Some 150%Q) = Num (1 # 2)%Q
    /\ compute_pct_change (Some 100%Q) (Some 50%Q) = Num (-1 # 2)%Q.
Proof.
  intros Hb Hn Hlen. unfold pct_change_column. rewrite Hn, Hb. simpl.
  rewrite !as_num_of_nums. simpl. eexists. split; [reflexivity|].
  split; [|split; [|split; [|split; [|split; [|split]]]]].
  - apply zip_with_num_length. exact Hlen.
  - rewrite pct_change_nums_column. unfold of_nums. apply Forall_map.
    apply List.Forall_forall. intros [q|] _; simpl; eauto.
  - intros i b n Hi Hj Hnz.
    destruct (compute_pct_change_nonzero b n Hnz) as (q & Hq & Heq).
    exists q. split; [|exact Heq].
    rewrite <- Hq. apply (zip_with_num_lookup (fun b n => compute_pct_change b n)); assumption.
  - intros i b x Hi Hj Hz.
    rewrite <- (compute_pct_change_zero b x Hz).
    apply (zip_with_num_lookup (fun b n => compute_pct_change b n)); assumption.
  - intros i b n Hi Hj Hz Hnz.
    pose proof (unmasked_quotient_infinite b n Hz Hnz) as Hinf.
    split; [exact Hinf|]. rewrite <- Hinf.
    rewrite (zip_with_num_lookup (fun b n => compute_pct_change b n) base new i _ _ Hi Hj).
    reflexivity.
  - reflexivity.
  - reflexivity.
Qed.

(** *** Facts: running store operations

    A state is kept in the form [h ++ ext]: [h] is the heap the function
    was entered with, [ext] what it has allocated since. *)

Lemma new_run (h ext : list DataFrame) (p : list widget) (d : DataFrame) :
  new d {| heap := h ++ ext; page := p |}
  = (Ok (length h + length ext), {| heap := h ++ (ext ++ [d]); page := p |}).
Proof. unfold new. simpl. rewrite length_app, <- app_assoc. reflexivity. Qed.

Lemma deref_base (h ext : list DataFrame) (p : list widget) (l : loc) (d : DataFrame) :
  h !! l = Some d ->
  deref l {| heap := h ++ ext; page := p |} = (Ok d, {| heap := h ++ ext; page := p |}).
Proof. intros H. unfold deref. simpl. rewrite (lookup_app_l_Some _ _ _ _ H). reflexivity. Qed.

Lemma deref_ext (h ext : list DataFrame) (p : list widget) (k : nat) :
  deref (length h + k) {| heap := h ++ ext; page := p |}
  = (match ext !! k with Some d => Ok d | None => Raise Unbound end,
     {| heap := h ++ ext; page := p |}).
Proof.
  unfold deref. simpl. rewrite lookup_app_r by lia.
  replace (length h + k - length h) with k by lia. destruct (ext !! k); reflexivity.
Qed.

Lemma store_ext (h ext : list DataFrame) (p : list widget) (k : nat) (d : DataFrame) :
  store (length h + k) d {| heap := h ++ ext; page := p |}
  = (Ok tt, {| heap := h ++ <[k := d]> ext; page := p |}).
Proof. unfold store. simpl. rewrite insert_app_r. reflexivity. Qed.

Lemma bind_run {A B} (m : M A) (k : A -> M B) (st : state) :
  bind m k st
  = match m st with
    | (Ok a, st') => k a st'
    | (Raise e, st') => (Raise e, st')
    end.
Proof. reflexivity. Qed.

Lemma ret_run {A} (a : A) (st : state) : ret a st = (Ok a, st).
Proof. reflexivity. Qed.

Lemma lift_run {A} (r : res A) (st : state) : lift r st = (r, st).
Proof. reflexivity. Qed.

Lemma getitem_base (h ext : list DataFrame) (p : list widget) (l : loc) (d : DataFrame)
    (name : string) :
  h !! l = Some d ->
  getitem l name {| heap := h ++ ext; page := p |}
  = (getcol d name, {| heap := h ++ ext; page := p |}).
Proof.
  intros H. unfold getitem. rewrite bind_run, (deref_base _ _ _ _ _ H). reflexivity.
Qed.

Lemma getitem_ext (h ext : list DataFrame) (p : list widget) (k : nat) (d : DataFrame)
    (name : string) :
  ext !! k = Some d ->
  getitem (length h + k) name {| heap := h ++ ext; page := p |}
  = (getcol d name, {| heap := h ++ ext; page := p |}).
Proof.
  intros H. unfold getitem. rewrite bind_run, deref_ext, H. reflexivity.
Qed.

Lemma copy_base (h ext : list DataFrame) (p : list widget) (l : loc) (d : DataFrame) :
  h !! l = Some d ->
  copy l {| heap := h ++ ext; page := p |}
  = (Ok (length h + length ext), {| heap := h ++ (ext ++ [d]); page := p |}).
Proof.
  intros H. unfold copy. rewrite bind_run, (deref_base _ _ _ _ _ H). apply new_run.
Qed.

Lemma setitem_ext (h ext : list DataFrame) (p : list widget) (k : nat) (d : DataFrame)
    (name : string) (s : Series) :
  ext !! k = Some d ->
  setitem (length h + k) name s {| heap := h ++ ext; page := p |}
  = (Ok tt, {| heap := h ++ <[k := setcol d name s]> ext; page := p |}).
Proof.
  intros H. unfold setitem. rewrite bind_run, deref_ext, H. apply store_ext.
Qed.

Lemma setitem_scalar_ext (h ext : list DataFrame) (p : list widget) (k : nat) (d : DataFrame)
    (name : string) (c : cell) :
  ext !! k = Some d ->
  setitem_scalar (length h + k) name c {| heap := h ++ ext; page := p |}
  = (Ok tt, {| heap := h ++ <[k := setcol_scalar d name c]> ext; page := p |}).
Proof.
  intros H. unfold setitem_scalar. rewrite bind_run, deref_ext, H. apply store_ext.
Qed.

Lemma _melt_run (h : list DataFrame) (p : list widget) (df : loc) (d : DataFrame)
    (value_cols : list string) (value_name : string) :
  h !! df = Some d ->
  _melt df value_cols value_name {| heap := h; page := p |}
  = match getcol d "field_value" with
    | Raise e => (Raise e, {| heap := h ++ [d]; page := p |})
    | Ok fv =>
        let d' := setcol d "field_value" (_prepare fv) in
        match melt d' "field_value" value_cols "version" value_name with
        | Raise e => (Raise e, {| heap := h ++ [d']; page := p |})
        | Ok long => (Ok (length h + 1), {| heap := h ++ [d'; long]; page := p |})
        end
    end.
Proof.
  intros Hdf. rewrite <- (app_nil_r h) at 1.
  unfold _melt, copy, getitem, setitem, bind.
  rewrite (deref_base _ _ _ _ _ Hdf). cbv beta iota.
  rewrite new_run. cbv beta iota. simpl length. simpl app.
  rewrite deref_ext. simpl (_ !! _). cbv beta iota. unfold lift at 1.
  destruct (getcol d "field_value") as [fv|e]; [|reflexivity].
  rewrite deref_ext. simpl (_ !! _). cbv beta iota.
  rewrite store_ext. cbv beta iota. simpl (<[_:=_]> _).
  rewrite deref_ext. simpl (_ !! _). cbv beta iota. unfold lift.
  destruct (melt _ _ _ _ _) as [long|e]; [|reflexivity].
  rewrite new_run. reflexivity.
Qed.

(** *** Facts: reshaping *)

Lemma remove_str_notin (x : string) (xs : list string) :
  ~ In x xs -> remove_str x xs = xs.
Proof.
  induction xs as [|y xs IH]; simpl; intros H; [reflexivity|].
  destruct (String.eqb_spec x y) as [->|Hne].
  - exfalso. apply H. left. reflexivity.
  - f_equal. apply IH. intros Hin. apply H. right. exact Hin.
Qed.

Lemma unique_nodup (xs : list string) : List.NoDup xs -> unique xs = xs.
Proof.
  induction 1 as [|x xs Hx Hnd IH]; simpl; [reflexivity|].
  rewrite IH, remove_str_notin by exact Hx. reflexivity.
Qed.

Lemma res_map_getcol (d : DataFrame) (names : list string) :
  (forall c, In c names -> has_column d c = true) ->
  exists values,
    res_map (getcol d) names = Ok values
    /\ length values = length names
    /\ forall j c, names !! j = Some c ->
         exists s, values !! j = Some s /\ getcol d c = Ok s.
Proof.
  induction names as [|c names IH]; intros H.
  - exists []. repeat split. intros j c [=].
  - destruct (proj1 (has_column_getcol d c) (H c (or_introl eq_refl))) as [s Hs].
    destruct IH as (values & Hv & Hlen & Hrows).
    { intros c' Hc'. apply H. right. exact Hc'. }
    exists (s :: values). simpl. rewrite Hs, Hv. simpl. repeat split.
    + rewrite Hlen. reflexivity.
    + intros [|j] c' Hj; simpl in *.
      * injection Hj as <-. exists s. split; [reflexivity|exact Hs].
      * apply Hrows. exact Hj.
Qed.

(** Stacking blocks of equal length: cell [i] of block [j] lands at
    position [j * N + i]. *)
Lemma concat_lookup_uniform {A} (N : nat) (blocks : list (list A)) (j i : nat) (block : list A) :
  Forall (fun b => length b = N) blocks ->
  blocks !! j = Some block -> i < N ->
  concat blocks !! (j * N + i) = block !! i.
Proof.
  revert j. induction blocks as [|b blocks IH]; intros j Hall Hj Hi; [discriminate|].
  inversion Hall as [|? ? Hb Hrest]; subst.
  destruct j as [|j]; simpl in *.
  - injection Hj as ->. apply lookup_app_l. lia.
  - rewrite lookup_app_r by lia.
    replace (length b + j * length b + i - length b) with (j * length b + i) by lia.
    apply IH; assumption.
Qed.

Lemma concat_length_uniform {A} (N : nat) (blocks : list (list A)) :
  Forall (fun b => length b = N) blocks -> length (concat blocks) = N * length blocks.
Proof.
  induction 1 as [|b blocks Hb _ IH]; simpl; [lia|].
  rewrite length_app, IH, Hb. lia.
Qed.

Lemma repeat_lookup {A} (x : A) (n i : nat) : i < n -> repeat x n !! i = Some x.
Proof.
  revert i. induction n as [|n IH]; intros [|i] H; simpl; try lia; [reflexivity|].
  apply IH. lia.
Qed.

Lemma Forall_repeat {A} (P : A -> Prop) (x : A) (n : nat) : P x -> Forall P (repeat x n).
Proof. intros H. induction n; simpl; constructor; assumption. Qed.

Lemma map_lookup {A B} (f : A -> B) (xs : list A) (i : nat) :
  map f xs !! i = option_map f (xs !! i).
Proof.
  revert i. induction xs as [|x xs IH]; intros [|i]; simpl; try reflexivity. apply IH.
Qed.

(** The frame [melt] returns on a well-formed frame whose identifier and
    value columns exist, the value columns being distinct. *)
Lemma melt_ok (d : DataFrame) (id_vars var_name value_name : string)
    (value_vars : list string) (id_data : Series) :
  getcol d id_vars = Ok id_data ->
  has_column d value_name = false ->
  List.NoDup value_vars -> ~ In id_vars value_vars ->
  (forall c, In c value_vars -> has_column d c = true) ->
  exists values,
    res_map (getcol d) value_vars = Ok values
    /\ melt d id_vars value_vars var_name value_name
       = Ok {| nrows := nrows d * length value_vars;
               columns := [ (id_vars, concat (repeat id_data (length value_vars)));
                            (var_name, flat_map (fun v => repeat (Str v) (nrows d)) value_vars);
                            (value_name, concat values) ] |}.
Proof.
  intros Hid Hval Hnd Hnotin Hall.
  destruct (res_map_getcol d value_vars Hall) as (values & Hv & _ & _).
  exists values. split; [exact Hv|].
  unfold melt. rewrite Hval, Hid. simpl. rewrite Hv. simpl.
  rewrite (unique_nodup _ Hnd), (remove_str_notin _ _ Hnotin), Hv. simpl. reflexivity.
Qed.

Lemma setcol_column_names (d : DataFrame) (name : string) (s : Series) :
  has_column d name = true -> column_names (setcol d name s) = column_names d.
Proof.
  unfold has_column, column_names, setcol. simpl.
  induction (columns d) as [|[k v] kvs IH]; simpl; [discriminate|].
  rewrite String.eqb_sym. destruct (String.eqb k name); simpl; [reflexivity|].
  intros H. rewrite (IH H). reflexivity.
Qed.

Lemma setcol_has_column (d : DataFrame) (name c : string) (s : Series) :
  has_column d name = true -> has_column (setcol d name s) c = has_column d c.
Proof. intros H. unfold has_column. rewrite (setcol_column_names _ _ _ H). reflexivity. Qed.

Lemma _prepare_length (s : Series) : length (_prepare s) = length s.
Proof. unfold _prepare. apply length_map. Qed.

Lemma _prepare_lookup (s : Series) (i : nat) (c : cell) :
  s !! i = Some c -> _prepare s !! i = Some (Str (_prepare_scalar c)).
Proof. intros H. unfold _prepare. rewrite map_lookup, H. reflexivity. Qed.

Lemma assoc_set_names {V} (key : string) (v : V) (kvs : list (string * V)) :
  map fst (assoc_set key v kvs)
  = if existsb (String.eqb key) (map fst kvs) then map fst kvs else map fst kvs ++ [key].
Proof.
  induction kvs as [|[k v0] kvs IH]; simpl; [reflexivity|].
  rewrite (String.eqb_sym key k). destruct (String.eqb k key); simpl; [reflexivity|].
  rewrite IH. destruct (existsb (String.eqb key) (map fst kvs)); reflexivity.
Qed.

Lemma existsb_eqb_In (x : string) (xs : list string) :
  existsb (String.eqb x) xs = true <-> In x xs.
Proof.
  rewrite existsb_exists. split.
  - intros (y & Hy & E). apply String.eqb_eq in E. subst. exact Hy.
  - intros H. exists x. split; [exact H|apply String.eqb_refl].
Qed.

Lemma assoc_set_Forall {V} (P : V -> Prop) (key : string) (v : V) (kvs : list (string * V)) :
  P v -> Forall (fun c => P (snd c)) kvs -> Forall (fun c => P (snd c)) (assoc_set key v kvs).
Proof.
  intros Hv. induction 1 as [|[k v0] kvs Hk Hrest IH]; simpl.
  - constructor; [exact Hv|constructor].
  - destruct (String.eqb k key); constructor; assumption.
Qed.

Lemma setcol_well_formed (d : DataFrame) (name : string) (s : Series) :
  well_formed d -> length s = nrows d -> well_formed (setcol d name s).
Proof.
  intros [Hlen Hnd] Hs. split.
  - unfold setcol. simpl. apply (assoc_set_Forall (fun s => length s = nrows d)); assumption.
  - unfold column_names, setcol in *. simpl. rewrite assoc_set_names.
    destruct (existsb (String.eqb name) (map fst (columns d))) eqn:E; [exact Hnd|].
    apply List.NoDup_app.
    + exact Hnd.
    + constructor; [intros []|constructor].
    + intros x Hx [->|[]]. apply existsb_eqb_In in Hx. congruence.
Qed.

Lemma res_map_getcol_lengths (d : DataFrame) (names : list string) (values : list Series) :
  well_formed d -> res_map (getcol d) names = Ok values ->
  Forall (fun s => length s = nrows d) values.
Proof.
  intros Hwf. revert values. induction names as [|c names IH]; simpl; intros values.
  - intros [= <-]. constructor.
  - destruct (getcol d c) as [s|] eqn:Hs; simpl; [|discriminate].
    destruct (res_map (getcol d) names) as [vs|]; simpl; [|discriminate].
    intros [= <-]. constructor; [|apply IH; reflexivity].
    apply (getcol_length d c); assumption.
Qed.

Lemma flat_map_repeat_lookup (N : nat) (names : list string) (j i : nat) (c : string) :
  names !! j = Some c -> i < N ->
  flat_map (fun v => repeat (Str v) N) names !! (j * N + i) = Some (Str c).
Proof.
  intros Hj Hi. rewrite flat_map_concat_map.
  rewrite (concat_lookup_uniform N _ j i (repeat (Str c) N)).
  - apply repeat_lookup. exact Hi.
  - apply List.Forall_forall. intros b Hb. apply in_map_iff in Hb as (v & <- & _).
    apply repeat_length.
  - rewrite map_lookup, Hj. reflexivity.
  - exact Hi.
Qed.

Lemma flat_map_repeat_length (N : nat) (names : list string) :
  length (flat_map (fun v => repeat (Str v) N) names) = N * length names.
Proof.
  induction names as [|c names IH]; simpl; [lia|].
  rewrite length_app, repeat_length, IH. lia.
Qed.

(** What [_melt] builds from the prepared copy: one row per (input row,
    value column), block after block. *)
Lemma melt_prepared_rows (d : DataFrame) (fv : Series) (value_cols : list string)
    (value_name : string) :
  well_formed d ->
  getcol d "field_value" = Ok fv ->
  has_column d value_name = false -> value_name <> "version" ->
  List.NoDup value_cols -> ~ In "field_value" value_cols ->
  (forall c, In c value_cols -> has_column d c = true) ->
  exists long F V X,
    melt (setcol d "field_value" (_prepare fv)) "field_value" value_cols "version" value_name
      = Ok long
    /\ nrows long = nrows d * length value_cols
    /\ columns long = [("field_value", F); ("version", V); (value_name, X)]
    /\ getcol long "field_value" = Ok F
    /\ getcol long "version" = Ok V
    /\ getcol long value_name = Ok X
    /\ well_formed long
    /\ forall i j col s,
         i < nrows d -> value_cols !! j = Some col -> getcol d col = Ok s ->
         F !! (j * nrows d + i) = option_map (fun c => Str (_prepare_scalar c)) (fv !! i)
         /\ V !! (j * nrows d + i) = Some (Str col)
         /\ X !! (j * nrows d + i) = s !! i.
Proof.
  intros Hwf Hfv Hval Hver Hnd Hnotin Hall.
  assert (Hfvcol : has_column d "field_value" = true).
  { apply has_column_getcol. exists fv. exact Hfv. }
  assert (Hne : value_name <> "field_value").
  { intros ->. congruence. }
  set (d' := setcol d "field_value" (_prepare fv)).
  assert (Hwf' : well_formed d').
  { apply setcol_well_formed; [exact Hwf|].
    rewrite _prepare_length. apply (getcol_length d "field_value"); assumption. }
  assert (Hlenfv : length fv = nrows d) by (apply (getcol_length d "field_value"); assumption).
  destruct (melt_ok d' "field_value" "version" value_name value_cols (_prepare fv))
    as (values & Hvalues & Hmelt).
  { apply getcol_setcol_eq. }
  { unfold d'. rewrite setcol_has_column by exact Hfvcol. exact Hval. }
  { exact Hnd. }
  { exact Hnotin. }
  { intros c Hc. unfold d'. rewrite setcol_has_column by exact Hfvcol. apply Hall. exact Hc. }
  pose proof (res_map_getcol_lengths d' value_cols values Hwf' Hvalues) as Hlens.
  change (nrows d') with (nrows d) in *.
  assert (HlenF : length (concat (repeat (_prepare fv) (length value_cols)))
                  = nrows d * length value_cols).
  { rewrite (concat_length_uniform (nrows d)), repeat_length; [reflexivity|].
    apply Forall_repeat. rewrite _prepare_length. exact Hlenfv. }
  assert (Hlenvalues : length values = length value_cols).
  { destruct (res_map_getcol d' value_cols) as (values' & Hv' & Hl' & _).
    - intros c Hc. unfold d'. rewrite setcol_has_column by exact Hfvcol. apply Hall. exact Hc.
    - rewrite Hvalues in Hv'. injection Hv' as <-. exact Hl'. }
  eexists _, _, _, _. split; [exact Hmelt|].
  split; [reflexivity|]. split; [reflexivity|].
  split; [reflexivity|]. split; [reflexivity|]. split.
  { unfold getcol. cbn [columns assoc].
    destruct (String.eqb_spec "field_value" value_name) as [E|_]; [congruence|].
    destruct (String.eqb_spec "version" value_name) as [E|_]; [congruence|].
    rewrite String.eqb_refl. reflexivity. }
  split.
  { split.
    - simpl. repeat constructor; simpl.
      + exact HlenF.
      + apply flat_map_repeat_length.
      + rewrite (concat_length_uniform (nrows d)) by exact Hlens.
        rewrite Hlenvalues. reflexivity.
    - unfold column_names. simpl. repeat constructor; simpl.
      + intros [E|[E|[]]]; [discriminate|congruence].
      + intros [E|[]]. congruence.
      + intros []. }
  intros i j col s Hi Hj Hs. split; [|split].
  - rewrite (concat_lookup_uniform (nrows d) _ j i (_prepare fv)).
    + unfold _prepare. apply map_lookup.
    + apply Forall_repeat. rewrite _prepare_length. exact Hlenfv.
    + apply repeat_lookup. apply lookup_lt_Some in Hj. exact Hj.
    + exact Hi.
  - apply flat_map_repeat_lookup; assumption.
  - destruct (res_map_getcol d' value_cols) as (values' & Hv' & _ & Hrows).
    { intros c Hc. unfold d'. rewrite setcol_has_column by exact Hfvcol. apply Hall. exact Hc. }
    rewrite Hvalues in Hv'. injection Hv' as <-.
    destruct (Hrows j col Hj) as (s' & Hs' & Hget).
    assert (Hcol : col <> "field_value").
    { intros ->. apply Hnotin. apply list_elem_of_In, list_elem_of_lookup. eauto. }
    unfold d' in Hget. rewrite getcol_setcol_ne in Hget by congruence.
    rewrite Hs in Hget. injection Hget as <-.
    apply (concat_lookup_uniform (nrows d)); assumption.
Qed.

Lemma position_split (N K r : nat) :
  r < N * K -> exists i j, i < N /\ j < K /\ r = j * N + i.
Proof.
  intros Hr. assert (HN : N <> 0) by (intros ->; lia).
  exists (r mod N), (r / N). split; [|split].
  - apply Nat.mod_upper_bound. exact HN.
  - apply Nat.Div0.div_lt_upper_bound. lia.
  - rewrite (Nat.div_mod_eq r N) at 1. lia.
Qed.

Lemma map_dict_length (mapping : list (string * string)) (s : Series) :
  length (map_dict mapping s) = length s.
Proof. unfold map_dict. apply length_map. Qed.

Lemma map_dict_lookup (mapping : list (string * string)) (s : Series) (i : nat) (k : string) :
  s !! i = Some (Str k) -> map_dict mapping s !! i = Some (version_cell mapping k).
Proof. intros H. unfold map_dict. rewrite map_lookup, H. reflexivity. Qed.

(** The reshape, run: the copy with the prepared categories and the long
    frame are allocated, and the long frame's [version] column is mapped in
    place. *)
Lemma reshape_wide_to_long_run (h : list DataFrame) (p : list widget) (df : loc)
    (d long : DataFrame) (fv F V X : Series) (value_cols : list string) (value_name : string)
    (version_map : list (string * string)) :
  h !! df = Some d ->
  getcol d "field_value" = Ok fv ->
  melt (setcol d "field_value" (_prepare fv)) "field_value" value_cols "version" value_name
    = Ok long ->
  columns long = [("field_value", F); ("version", V); (value_name, X)] ->
  reshape_wide_to_long df value_cols value_name version_map {| heap := h; page := p |}
  = (Ok (length h + 1),
     {| heap := h ++ [setcol d "field_value" (_prepare fv);
                      {| nrows := nrows long;
                         columns := [("field_value", F);
                                     ("version", map_dict version_map V);
                                     (value_name, X)] |}];
        page := p |}).
Proof.
  intros Hdf Hfv Hmelt Hcols.
  assert (HV : getcol long "version" = Ok V).
  { unfold getcol. rewrite Hcols. reflexivity. }
  assert (Hset : setcol long "version" (map_dict version_map V)
                 = {| nrows := nrows long;
                      columns := [("field_value", F); ("version", map_dict version_map V);
                                  (value_name, X)] |}).
  { unfold setcol. rewrite Hcols. reflexivity. }
  unfold reshape_wide_to_long.
  rewrite bind_run, (_melt_run h p df d value_cols value_name Hdf), Hfv. cbv zeta.
  rewrite Hmelt. cbv beta iota.
  rewrite bind_run. erewrite (getitem_ext h _ p 1 _ "version"); [|reflexivity].
  rewrite HV.
  rewrite bind_run. erewrite (setitem_ext h _ p 1 _ "version"); [|reflexivity].
  change (<[1:=?x]> [?a; ?b]) with [a; x]. rewrite Hset. reflexivity.
Qed.

(** [chart_counts] and [chart_percentages] are this reshape between their
    sort order and their chart. *)
Lemma chart_counts_reshapes (df : loc) (title : string) (st : state) :
  chart_counts df title st
  = (ipeds <- contains df "cnt_ipeds" ;;
     order <- _sort_by_new df ("cnt_" +:+ NEW_A) ;;
     long <- reshape_wide_to_long df (count_columns ipeds) "count" count_version_map ;;
     data <- deref long ;;
     altair_chart {| ch_title := title; ch_data := data;
                     ch_y := "field_value"; ch_y_sort := order; ch_x := "count";
                     ch_version_order := version_order_of ipeds;
                     ch_colors := take (length (version_order_of ipeds)) FIVE_COLOR_SCALE;
                     ch_height := 600 |}) st.
Proof.
  unfold chart_counts, reshape_wide_to_long, count_version_map.
  cbv beta zeta delta [bind].
  destruct (contains df "cnt_ipeds" st) as [[ipeds|e] st1]; [|reflexivity]. cbv beta iota.
  destruct (_sort_by_new _ _ st1) as [[order|e] st2]; [|reflexivity]. cbv beta iota.
  destruct (_melt _ _ _ st2) as [[long|e] st3]; [|reflexivity]. cbv beta iota.
  destruct (getitem long "version" st3) as [[version|e] st4]; [|reflexivity]. cbv beta iota.
  destruct (setitem long "version" _ st4) as [[[]|e] st5]; reflexivity.
Qed.

Lemma chart_percentages_reshapes (df : loc) (title : string) (st : state) :
  chart_percentages df title st
  = (ipeds <- contains df "cnt_ipeds" ;;
     df_pct <- compute_percentages df (count_columns ipeds) ;;
     order <- _sort_by_new df ("cnt_" +:+ NEW_A) ;;
     long <- reshape_wide_to_long df_pct (map pct_name (count_columns ipeds)) "pct"
               pct_version_map ;;
     data <- deref long ;;
     altair_chart {| ch_title := title; ch_data := data;
                     ch_y := "field_value"; ch_y_sort := order; ch_x := "pct";
                     ch_version_order := version_order_of ipeds;
                     ch_colors := take (length (version_order_of ipeds)) FIVE_COLOR_SCALE;
                     ch_height := 600 |}) st.
Proof.
  unfold chart_percentages, reshape_wide_to_long, pct_version_map.
  cbv beta zeta delta [bind].
  destruct (contains df "cnt_ipeds" st) as [[ipeds|e] st1]; [|reflexivity]. cbv beta iota.
  destruct (compute_percentages _ _ st1) as [[df_pct|e] st2]; [|reflexivity]. cbv beta iota.
  destruct (_sort_by_new _ _ st2) as [[order|e] st3]; [|reflexivity]. cbv beta iota.
  destruct (_melt _ _ _ st3) as [[long|e] st4]; [|reflexivity]. cbv beta iota.
  destruct (getitem long "version" st4) as [[version|e] st5]; [|reflexivity]. cbv beta iota.
  destruct (setitem long "version" _ st5) as [[[]|e] st6]; reflexivity.
Qed.

(** C8 (wide to long).  Run on a reference to a well-formed table that has
    a [field_value] column and the distinct value columns asked for, the
    reshape returns a new long frame with exactly rows x columns rows and
    the three columns [field_value], [version], [value_name]; every
    position of it is that of one (input row, value column) pair, and the
    row of pair (i, j) carries row i's category value (as prepared), the
    version label that the map gives value column j, and row i's cell of
    that column.  With the maps of the two charts the labels of the count
    columns, and of the percentage columns, are the version labels
    v5_OCT25, v5_JAN26 and ipeds. *)
Theorem reshape_wide_to_long_rows (st : state) (df : loc) (d : DataFrame) (fv : Series)
    (value_cols : list string) (value_name : string) (version_map : list (string * string)) :
  heap st !! df = Some d ->
  well_formed d ->
  getcol d "field_value" = Ok fv ->
  has_column d value_name = false -> value_name <> "version" ->
  List.NoDup value_cols -> ~ In "field_value" value_cols ->
  (forall c, In c value_cols -> has_column d c = true) ->
  (exists long_ref st' long F V X,
     reshape_wide_to_long df value_cols value_name version_map st = (Ok long_ref, st')
     /\ heap st' !! long_ref = Some long
     /\ nrows long = nrows d * length value_cols
     /\ columns long = [("field_value", F); ("version", V); (value_name, X)]
     /\ length F = nrows long /\ length V = nrows long /\ length X = nrows long
     /\ (forall r, r < nrows long ->
           exists i j, i < nrows d /\ j < length value_cols /\ r = j * nrows d + i)
     /\ forall i j col s,
          i < nrows d -> value_cols !! j = Some col -> getcol d col = Ok s ->
          F !! (j * nrows d + i) = option_map (fun c => Str (_prepare_scalar c)) (fv !! i)
          /\ V !! (j * nrows d + i) = Some (version_cell version_map col)
          /\ X !! (j * nrows d + i) = s !! i)
  /\ (forall ipeds,
        map (version_cell count_version_map) (count_columns ipeds)
          = map Str (version_labels ipeds)
        /\ map (version_cell pct_version_map) (map pct_name (count_columns ipeds))
           = map Str (version_labels ipeds))
  /\ version_labels true = ["v5_OCT25"; "v5_JAN26"; "ipeds"].
Proof.
  intros Hdf Hwf Hfv Hval Hver Hnd Hnotin Hall.
  split; [|split; [intros []; split; reflexivity|reflexivity]].
  destruct (melt_prepared_rows d fv value_cols value_name Hwf Hfv Hval Hver Hnd Hnotin Hall)
    as (long & F & V & X & Hmelt & Hrows & Hcols & HF & HV & HX & Hwfl & Hcells).
  destruct st as [h p]. simpl in Hdf.
  set (long' := {| nrows := nrows long;
                   columns := [("field_value", F); ("version", map_dict version_map V);
                               (value_name, X)] |}).
  exists (length h + 1), {| heap := h ++ [setcol d "field_value" (_prepare fv); long']; page := p |},
    long', F, (map_dict version_map V), X.
  split.
  { apply (reshape_wide_to_long_run h p df d long fv F V X); assumption. }
  split.
  { simpl. rewrite lookup_app_r by lia.
    replace (length h + 1 - length h) with 1 by lia. reflexivity. }
  split; [exact Hrows|]. split; [reflexivity|]. cbn [nrows long'].
  split; [apply (getcol_length long "field_value"); assumption|].
  split; [rewrite map_dict_length; apply (getcol_length long "version"); assumption|].
  split; [apply (getcol_length long value_name); assumption|].
  split.
  { intros r Hr. rewrite Hrows in Hr. apply position_split. exact Hr. }
  intros i j col s Hi Hj Hs.
  destruct (Hcells i j col s Hi Hj Hs) as (HFr & HVr & HXr).
  split; [exact HFr|]. split; [|exact HXr].
  apply map_dict_lookup. exact HVr.
Qed.

(** In the frame [_melt] returns, a missing category value shows as the
    placeholder in every block, and no row is lost. *)
Lemma _melt_null_label (st : state) (df : loc) (d : DataFrame) (fv : Series)
    (value_cols : list string) (value_name : string) (i : nat) :
  heap st !! df = Some d ->
  well_formed d ->
  getcol d "field_value" = Ok fv ->
  has_column d value_name = false -> value_name <> "version" ->
  List.NoDup value_cols -> ~ In "field_value" value_cols ->
  (forall c, In c value_cols -> has_column d c = true) ->
  fv !! i = Some NA ->
  exists long_ref st' long F,
    _melt df value_cols value_name st = (Ok long_ref, st')
    /\ heap st' !! long_ref = Some long
    /\ nrows long = nrows d * length value_cols
    /\ getcol long "field_value" = Ok F
    /\ forall j, j < length value_cols -> F !! (j * nrows d + i) = Some (Str NULL_LABEL).
Proof.
  intros Hdf Hwf Hfv Hval Hver Hnd Hnotin Hall Hna.
  destruct (melt_prepared_rows d fv value_cols value_name Hwf Hfv Hval Hver Hnd Hnotin Hall)
    as (long & F & V & X & Hmelt & Hrows & Hcols & HF & HV & HX & Hwfl & Hcells).
  destruct st as [h p]. simpl in Hdf.
  exists (length h + 1), {| heap := h ++ [setcol d "field_value" (_prepare fv); long]; page := p |},
    long, F.
  split.
  { rewrite (_melt_run h p df d value_cols value_name Hdf), Hfv. cbv zeta.
    rewrite Hmelt. reflexivity. }
  split.
  { simpl. rewrite lookup_app_r by lia.
    replace (length h + 1 - length h) with 1 by lia. reflexivity. }
  split; [exact Hrows|]. split; [exact HF|].
  intros j Hj. destruct (lookup_lt_is_Some_2 value_cols j Hj) as [col Hcol].
  destruct (proj1 (has_column_getcol d col)) as [s Hs].
  { apply Hall. apply list_elem_of_In, list_elem_of_lookup. eauto. }
  assert (Hi : i < nrows d).
  { rewrite <- (getcol_length d "field_value" fv Hwf Hfv). apply lookup_lt_Some in Hna. exact Hna. }
  destruct (Hcells i j col s Hi Hcol Hs) as (HFr & _ & _).
  rewrite HFr, Hna. reflexivity.
Qed.

(** *** Facts: what a computation leaves untouched *)

Lemma ext_ret {A} (b : nat) (post : A -> Prop) (a : A) :
  post a -> extends_from b post (ret a).
Proof. intros H st Hb. simpl. repeat split; [exact Hb|]. intros a' [= <-]. exact H. Qed.

Lemma ext_lift {A} (b : nat) (r : res A) : extends_from b anything (lift r).
Proof. intros st Hb. simpl. repeat split. exact Hb. Qed.

Lemma ext_bind {A B} (b : nat) (mid : A -> Prop) (post : B -> Prop) (m : M A) (k : A -> M B) :
  extends_from b mid m ->
  (forall a, mid a -> extends_from b post (k a)) ->
  extends_from b post (bind m k).
Proof.
  intros Hm Hk st Hb. destruct (Hm st Hb) as (Ht & Hl & Hp).
  unfold bind. destruct (m st) as [[a|e] st1]; simpl in *.
  - destruct (Hk a (Hp a eq_refl) st1 Hl) as (Ht' & Hl' & Hp').
    split; [congruence|]. split; assumption.
  - split; [exact Ht|]. split; [exact Hl|]. intros a [=].
Qed.

Lemma ext_try {A} (b : nat) (post : A -> Prop) (body : M A) (handler : exn -> M A) :
  extends_from b post body ->
  (forall e, extends_from b post (handler e)) ->
  extends_from b post (try_except body handler).
Proof.
  intros Hm Hk st Hb. destruct (Hm st Hb) as (Ht & Hl & Hp).
  unfold try_except. destruct (body st) as [[a|e] st1]; simpl in *.
  - split; [exact Ht|]. split; [exact Hl|]. exact Hp.
  - destruct (Hk e st1 Hl) as (Ht' & Hl' & Hp').
    split; [congruence|]. split; assumption.
Qed.

Lemma ext_deref (b : nat) (l : loc) : extends_from b anything (deref l).
Proof.
  intros st Hb. unfold deref. destruct (heap st !! l); simpl; repeat split; exact Hb.
Qed.

Lemma ext_new (b : nat) (d : DataFrame) : extends_from b (fresh_from b) (new d).
Proof.
  intros st Hb. unfold new. simpl. split; [|split].
  - apply take_app_le. exact Hb.
  - rewrite length_app. lia.
  - intros a [= <-]. exact Hb.
Qed.

Lemma ext_store (b : nat) (l : loc) (d : DataFrame) :
  fresh_from b l -> extends_from b anything (store l d).
Proof.
  intros Hl st Hb. unfold store. simpl. split; [|split].
  - apply take_insert_ge. exact Hl.
  - rewrite length_insert. exact Hb.
  - intros a _. exact I.
Qed.

Lemma ext_emit (b : nat) (w : widget) : extends_from b anything (emit w).
Proof. intros st Hb. unfold emit. simpl. repeat split. exact Hb. Qed.

Lemma ext_copy (b : nat) (l : loc) : extends_from b (fresh_from b) (copy l).
Proof.
  unfold copy. eapply ext_bind; [apply ext_deref|]. intros d _. apply ext_new.
Qed.

Lemma ext_getitem (b : nat) (l : loc) (name : string) : extends_from b anything (getitem l name).
Proof.
  unfold getitem. eapply ext_bind; [apply ext_deref|]. intros d _. apply ext_lift.
Qed.

Lemma ext_setitem (b : nat) (l : loc) (name : string) (s : Series) :
  fresh_from b l -> extends_from b anything (setitem l name s).
Proof.
  intros Hl. unfold setitem. eapply ext_bind; [apply ext_deref|].
  intros d _. apply ext_store. exact Hl.
Qed.

Lemma ext_setitem_scalar (b : nat) (l : loc) (name : string) (c : cell) :
  fresh_from b l -> extends_from b anything (setitem_scalar l name c).
Proof.
  intros Hl. unfold setitem_scalar. eapply ext_bind; [apply ext_deref|].
  intros d _. apply ext_store. exact Hl.
Qed.

Lemma ext_contains (b : nat) (l : loc) (name : string) : extends_from b anything (contains l name).
Proof.
  unfold contains. eapply ext_bind; [apply ext_deref|]. intros d _. apply ext_ret. exact I.
Qed.

Lemma ext_for_each {X} (b : nat) (xs : list X) (body : X -> M unit) :
  (forall x, extends_from b anything (body x)) ->
  extends_from b anything (for_each xs body).
Proof.
  intros H. induction xs as [|x xs IH]; simpl.
  - apply ext_ret. exact I.
  - eapply ext_bind; [apply H|]. intros _ _. exact IH.
Qed.

Lemma ext_comprehension {X Y} (b : nat) (xs : list X) (f : X -> M Y) :
  (forall x, extends_from b anything (f x)) ->
  extends_from b anything (comprehension xs f).
Proof.
  intros H. induction xs as [|x xs IH]; simpl.
  - apply ext_ret. exact I.
  - eapply ext_bind; [apply H|]. intros y _.
    eapply ext_bind; [exact IH|]. intros ys _. apply ext_ret. exact I.
Qed.

Lemma ext_altair_chart (b : nat) (c : chart) : extends_from b anything (altair_chart c).
Proof. apply ext_emit. Qed.

Create HintDb frame.
#[local] Hint Resolve ext_lift ext_deref ext_new ext_emit ext_copy ext_getitem
  ext_contains ext_altair_chart ext_setitem ext_setitem_scalar ext_store : frame.

(** One step of a sequence: the first command by a rule of the database,
    then its result is introduced. *)
Ltac frame_step :=
  eapply ext_bind; [solve [eauto with frame]|]; intros ? ?.

Lemma ext__melt (b : nat) (df : loc) (value_cols : list string) (value_name : string) :
  extends_from b (fresh_from b) (_melt df value_cols value_name).
Proof.
  unfold _melt. do 5 frame_step. apply ext_new.
Qed.

Lemma ext__sort_by_new (b : nat) (df : loc) (new_col : string) :
  extends_from b anything (_sort_by_new df new_col).
Proof.
  unfold _sort_by_new. eapply ext_bind; [apply ext_contains|]. intros ipeds _.
  destruct ipeds.
  - frame_step. apply ext_ret. exact I.
  - do 3 frame_step. apply ext_ret. exact I.
Qed.

Lemma ext_compute_percentages (b : nat) (df : loc) (value_cols : list string) :
  extends_from b (fresh_from b) (compute_percentages df value_cols).
Proof.
  unfold compute_percentages.
  eapply ext_bind.
  { apply ext_comprehension. intros col. do 2 frame_step. apply ext_ret. exact I. }
  intros totals _. frame_step.
  eapply ext_bind.
  { apply ext_for_each. intros col.
    eapply ext_bind; [apply ext_lift|]. intros total _.
    destruct (truthy total).
    - do 2 frame_step. eauto with frame.
    - eauto with frame. }
  intros _ _. apply ext_ret. assumption.
Qed.

#[local] Hint Resolve ext__melt ext__sort_by_new ext_compute_percentages : frame.

Lemma ext_chart_counts (b : nat) (df : loc) (title : string) :
  extends_from b anything (chart_counts df title).
Proof.
  unfold chart_counts. do 6 frame_step. eauto with frame.
Qed.

Lemma ext_chart_percentages (b : nat) (df : loc) (title : string) :
  extends_from b anything (chart_percentages df title).
Proof.
  unfold chart_percentages. do 7 frame_step. eauto with frame.
Qed.

Lemma ext_chart_pct_change (b : nat) (df : loc) (title : string) :
  extends_from b anything (chart_pct_change df title).
Proof.
  unfold chart_pct_change. do 6 frame_step. eauto with frame.
Qed.

Lemma ext_chart_role_benchmarks (b : nat) (df : loc) (title : string) :
  extends_from b anything (chart_role_benchmarks df title).
Proof.
  unfold chart_role_benchmarks. frame_step.
  eapply ext_bind.
  { apply ext_comprehension. intros col. do 2 frame_step. apply ext_ret. exact I. }
  intros scaled _.
  eapply ext_bind.
  { apply ext_for_each. intros cs. eauto with frame. }
  intros _ _. do 10 frame_step. eauto with frame.
Qed.

Lemma ext_chart_employer_industry (b : nat) (df : loc) (title : string) :
  extends_from b anything (chart_employer_industry df title).
Proof.
  unfold chart_employer_industry. do 8 frame_step. eauto with frame.
Qed.

(** [main] changes the frame it loaded (lower-cased names, the
    [pct_change] column) and nothing older. *)
Lemma ext_comparison_charts (b : nat) (df : loc) :
  fresh_from b df -> extends_from b anything (comparison_charts df).
Proof.
  intros Hdf. unfold comparison_charts. do 4 frame_step.
  match goal with |- context [is_empty ?d] => destruct (is_empty d) end.
  - do 2 frame_step. apply ext_ret. exact I.
  - do 5 frame_step.
    eapply ext_bind; [apply ext_chart_percentages|]. intros _ _.
    eapply ext_bind; [apply ext_chart_counts|]. intros _ _.
    do 3 frame_step.
    eapply ext_bind with (mid := anything).
    { match goal with |- context [is_empty ?d] => destruct (is_empty d) end;
        [apply ext_ret; exact I|apply ext_chart_pct_change]. }
    intros _ _. apply ext_ret. exact I.
Qed.

Lemma ext_comparison_section (b : nat) (query : res DataFrame) (expected_table : string) :
  extends_from b anything (comparison_section query expected_table).
Proof.
  unfold comparison_section. eapply ext_bind with (mid := anything).
  - apply ext_try.
    + do 2 frame_step. apply ext_comparison_charts. assumption.
    + intros e. do 2 frame_step. apply ext_ret. exact I.
  - intros continued _. destruct continued; [apply ext_ret; exact I|apply ext_emit].
Qed.

Lemma extends_from_lookup {A} (post : A -> Prop) (m : M A) (st : state) (l : loc) (d : DataFrame) :
  extends_from (length (heap st)) post m ->
  heap st !! l = Some d -> heap (snd (m st)) !! l = Some d.
Proof.
  intros Hm Hl. destruct (Hm st (le_n _)) as (Ht & _ & _).
  rewrite firstn_all in Ht.
  rewrite <- (lookup_take_lt _ (length (heap st))) by (apply lookup_lt_Some in Hl; exact Hl).
  rewrite Ht. exact Hl.
Qed.

(** C10 (no mutation of the input).  Whatever frame a reference points to
    before [chart_percentages], [chart_pct_change], [_melt] or
    [chart_counts] is called, it points to the same frame afterwards; this
    holds for the argument and for every other frame of the store, whether
    the call returns or raises.  Hence [chart_counts], called after
    [chart_percentages] on the same reference, starts from the frame
    [chart_percentages] was given. *)
Theorem chart_transforms_keep_input (st : state) (df l : loc) (d : DataFrame)
    (title title' : string) (value_cols : list string) (value_name : string) :
  heap st !! l = Some d ->
  heap (snd (chart_percentages df title st)) !! l = Some d
  /\ heap (snd (chart_pct_change df title st)) !! l = Some d
  /\ heap (snd (_melt df value_cols value_name st)) !! l = Some d
  /\ heap (snd (chart_counts df title st)) !! l = Some d
  /\ heap (snd ((chart_percentages df title ;; chart_counts df title') st)) !! l = Some d.
Proof.
  intros Hl. repeat split.
  - apply (extends_from_lookup anything); [apply ext_chart_percentages|exact Hl].
  - apply (extends_from_lookup anything); [apply ext_chart_pct_change|exact Hl].
  - apply (extends_from_lookup (fresh_from (length (heap st)))); [apply ext__melt|exact Hl].
  - apply (extends_from_lookup anything); [apply ext_chart_counts|exact Hl].
  - apply (extends_from_lookup anything); [|exact Hl].
    eapply ext_bind; [apply ext_chart_percentages|]. intros _ _. apply ext_chart_counts.
Qed.

(** *** Facts: sorting *)

Lemma positions_from_shift (i : nat) (mask : list bool) :
  positions_from (S i) mask = map S (positions_from i mask).
Proof.
  revert i. induction mask as [|b mask IH]; intros i; simpl; [reflexivity|].
  rewrite map_app, IH. destruct b; reflexivity.
Qed.

Lemma positions_cons (b : bool) (mask : list bool) :
  positions (b :: mask) = (if b then [0] else []) ++ map S (positions mask).
Proof. unfold positions. simpl. rewrite positions_from_shift. reflexivity. Qed.

Lemma positions_In (mask : list bool) (i : nat) :
  In i (positions mask) <-> mask !! i = Some true.
Proof.
  revert i. induction mask as [|b mask IH]; intros i.
  - simpl. split; [intros []|discriminate].
  - rewrite positions_cons, in_app_iff, in_map_iff. destruct i as [|i]; simpl.
    + destruct b; split.
      * intros _. reflexivity.
      * intros _. left. left. reflexivity.
      * intros [[]|(k & E & _)]. discriminate.
      * discriminate.
    + rewrite <- IH. split.
      * intros [H|(k & E & Hk)].
        -- destruct b; simpl in H; [destruct H as [H|[]]; discriminate|destruct H].
        -- injection E as ->. exact Hk.
      * intros H. right. exists i. split; [reflexivity|exact H].
Qed.

Lemma positions_partition (mask : list bool) :
  Permutation (positions mask ++ positions (map negb mask)) (seq 0 (length mask)).
Proof.
  induction mask as [|b mask IH]; [constructor|].
  cbn [map length]. rewrite !positions_cons, <- cons_seq, <- seq_shift.
  destruct b; simpl.
  - constructor. rewrite <- map_app. apply Permutation_map. exact IH.
  - apply Permutation_sym, Permutation_cons_app, Permutation_sym.
    rewrite <- map_app. apply Permutation_map. exact IH.
Qed.

(** The present keys, read at their positions, are the keys kept. *)
Lemma positions_present (items : list num) :
  map (fun k => nth k items None) (positions (map (fun x => negb (isna x)) items))
  = map Some (non_nans_of items).
Proof.
  induction items as [|x items IH]; [reflexivity|].
  cbn [map]. rewrite positions_cons, map_app, map_map. cbn [nth].
  destruct x as [q|]; simpl; rewrite IH; reflexivity.
Qed.

Lemma positions_missing (items : list num) (k : nat) :
  In k (positions (map isna items)) -> nth k items None = None.
Proof.
  rewrite positions_In, map_lookup. intros H.
  destruct (items !! k) as [x|] eqn:E; [|discriminate].
  injection H as H. destruct x; [discriminate|].
  apply nth_lookup_Some with (d := None) in E. exact E.
Qed.

Lemma positions_present_length (items : list num) :
  length (positions (map (fun x => negb (isna x)) items)) = length (non_nans_of items).
Proof.
  pose proof (f_equal (@length _) (positions_present items)) as H.
  rewrite !length_map in H. exact H.
Qed.

Lemma map_nth_seq {A} (l : list A) (d : A) :
  map (fun j => nth j l d) (seq 0 (length l)) = l.
Proof.
  induction l as [|x l IH]; [reflexivity|].
  cbn [length]. rewrite <- cons_seq, <- seq_shift. cbn [map nth]. rewrite map_map.
  f_equal. exact IH.
Qed.

Lemma StronglySorted_map {A B} (R : B -> B -> Prop) (f : A -> B) (l : list A) :
  StronglySorted (fun a b => R (f a) (f b)) l -> StronglySorted R (map f l).
Proof.
  induction 1 as [|x l Hl IH Hx]; simpl; constructor; [exact IH|].
  apply List.Forall_forall. intros y Hy. apply in_map_iff in Hy as (a & <- & Ha).
  rewrite List.Forall_forall in Hx. apply Hx. exact Ha.
Qed.

Lemma StronglySorted_rev {A} (R : A -> A -> Prop) (l : list A) :
  StronglySorted R l -> StronglySorted (fun a b => R b a) (rev l).
Proof.
  induction 1 as [|x l Hl IH Hx]; simpl; [constructor|].
  apply StronglySorted_app_2; [|exact IH|repeat constructor].
  intros a b Ha Hb. apply list_elem_of_In in Ha, Hb. destruct Hb as [<-|[]].
  rewrite List.Forall_forall in Hx. apply Hx. apply in_rev. exact Ha.
Qed.

Lemma StronglySorted_ext_in {A} (R R' : A -> A -> Prop) (l : list A) :
  (forall a b, In a l -> In b l -> R a b -> R' a b) ->
  StronglySorted R l -> StronglySorted R' l.
Proof.
  intros Himp H. induction H as [|x l Hl IH Hx]; constructor.
  - apply IH. intros a b Ha Hb. apply Himp; right; assumption.
  - rewrite List.Forall_forall in *. intros y Hy. apply Himp; [left; reflexivity|right; exact Hy|].
    apply Hx. exact Hy.
Qed.

Section Sorted.

Hypothesis argsort_kind : SortKind argsort.

Lemma argsort_range (keys : list Q) (j : nat) :
  In j (argsort keys) -> j < length keys.
Proof.
  intros Hj. destruct (argsort_kind keys) as [Hperm _].
  apply (Permutation_in _ Hperm), in_seq in Hj. lia.
Qed.

Lemma argsort_singleton (q : Q) : argsort [q] = [0].
Proof.
  destruct (argsort_kind [q]) as [Hperm _]. simpl in Hperm.
  apply Permutation_sym, Permutation_length_1_inv in Hperm. exact Hperm.
Qed.

(** [nargsort] returns every position once. *)
Lemma nargsort_desc_perm (items : list num) :
  Permutation (nargsort_desc items) (seq 0 (length items)).
Proof.
  unfold nargsort_desc.
  set (pos := positions (map (fun x => negb (isna x)) items)).
  set (keys := rev (non_nans_of items)).
  assert (Hlen : length keys = length (rev pos)).
  { unfold keys, pos. rewrite !length_rev, positions_present_length. reflexivity. }
  destruct (argsort_kind keys) as [Hperm _].
  rewrite <- Permutation_rev.
  rewrite (Permutation_map (fun j => nth j (rev pos) 0) Hperm).
  rewrite Hlen, map_nth_seq, <- Permutation_rev.
  replace (map isna items) with (map negb (map (fun x => negb (isna x)) items)).
  - rewrite <- (length_map (fun x => negb (isna x)) items). apply positions_partition.
  - rewrite map_map. apply map_ext. intros x. apply negb_involutive.
Qed.

(** Along the positions [nargsort] returns, the keys descend and the
    missing ones come last. *)
Lemma nargsort_desc_sorted (items : list num) :
  StronglySorted ranks_before (map (fun i => nth i items None) (nargsort_desc items)).
Proof.
  unfold nargsort_desc.
  set (pos := positions (map (fun x => negb (isna x)) items)).
  set (keys := rev (non_nans_of items)).
  assert (Hlen : length keys = length (rev pos)).
  { unfold keys, pos. rewrite !length_rev, positions_present_length. reflexivity. }
  assert (Hkey : forall j, j < length keys ->
            nth (nth j (rev pos) 0) items None = Some (key_at keys j)).
  { intros j Hj.
    rewrite <- (map_nth (fun k => nth k items None) (rev pos) 0 j).
    rewrite map_rev. unfold pos. rewrite positions_present, <- map_rev.
    fold keys. unfold key_at.
    rewrite (nth_indep _ _ (Some 0%Q)) by (rewrite length_map; exact Hj).
    apply (map_nth Some). }
  destruct (argsort_kind keys) as [Hperm Hsorted].
  rewrite map_app. apply StronglySorted_app_2.
  - intros a b Ha Hb. apply list_elem_of_In in Ha, Hb.
    apply in_map_iff in Hb as (k & <- & Hk).
    rewrite (positions_missing _ _ Hk).
    destruct a; exact I.
  - rewrite map_rev, map_map. apply StronglySorted_rev.
    apply StronglySorted_map.
    apply (StronglySorted_ext_in (fun i j => (key_at keys i <= key_at keys j)%Q)); [|exact Hsorted].
    intros a b Ha Hb Hab.
    rewrite !Hkey by (apply argsort_range; assumption). exact Hab.
  - apply StronglySorted_map.
    assert (Hmiss : forall k, In k (positions (map isna items)) -> nth k items None = None)
      by apply positions_missing.
    induction (positions (map isna items)) as [|k ks IH]; constructor.
    + apply IH. intros k' Hk'. apply Hmiss. right. exact Hk'.
    + apply List.Forall_forall. intros k' Hk'.
      rewrite (Hmiss k) by (left; reflexivity).
      rewrite (Hmiss k') by (right; exact Hk'). exact I.
Qed.

End Sorted.

(** *** Facts: row selection *)

Lemma getcol_iloc (d : DataFrame) (indexer : list nat) (name : string) :
  getcol (iloc d indexer) name
  = match getcol d name with
    | Ok s => Ok (take_rows indexer s)
    | Raise e => Raise e
    end.
Proof.
  unfold getcol, iloc. simpl. rewrite assoc_map_snd.
  destruct (assoc name (columns d)); reflexivity.
Qed.

Lemma head_iloc (n : nat) (d : DataFrame) (indexer : list nat) :
  head n (iloc d indexer) = iloc d (take n indexer).
Proof.
  unfold head, iloc. simpl. f_equal.
  - symmetry. apply length_firstn.
  - rewrite map_map. apply map_ext. intros [k s]. simpl. f_equal.
    unfold take_rows. apply firstn_map.
Qed.

Lemma take_rows_take_rows (outer inner : list nat) (s : Series) :
  (forall k, In k outer -> k < length inner) ->
  take_rows outer (take_rows inner s) = take_rows (map (fun k => nth k inner 0) outer) s.
Proof.
  intros H. unfold take_rows. rewrite map_map. apply map_ext_in. intros k Hk.
  rewrite (nth_indep _ NA (nth 0 s NA)) by (rewrite length_map; apply H; exact Hk).
  apply (map_nth (fun i => nth i s NA)).
Qed.

Lemma iloc_iloc (d : DataFrame) (inner outer : list nat) :
  (forall k, In k outer -> k < length inner) ->
  iloc (iloc d inner) outer = iloc d (map (fun k => nth k inner 0) outer).
Proof.
  intros H. unfold iloc. simpl. f_equal.
  - symmetry. apply length_map.
  - rewrite map_map. apply map_ext. intros [k s]. simpl. f_equal.
    apply take_rows_take_rows. exact H.
Qed.

(** Selecting rows keeps a frame well-formed: the frames [main] hands to
    the chart functions are. *)
Lemma iloc_well_formed (d : DataFrame) (indexer : list nat) :
  well_formed d -> well_formed (iloc d indexer).
Proof.
  intros [Hlen Hnd]. split.
  - unfold iloc. simpl. apply List.Forall_forall. intros c Hc.
    apply in_map_iff in Hc as (c0 & <- & _). simpl. unfold take_rows. apply length_map.
  - unfold column_names, iloc in *. simpl. rewrite map_map. simpl. exact Hnd.
Qed.

Lemma rank_top_n_well_formed (d top : DataFrame) (sort_key : string) (n : nat) :
  well_formed d -> rank_top_n sort_key n d = Ok top -> well_formed top.
Proof.
  intros Hwf. unfold rank_top_n, sort_values_desc.
  destruct (getcol d sort_key) as [s|]; simpl; [|discriminate].
  destruct (as_num s) as [items|]; simpl; [|discriminate].
  intros [= <-]. rewrite head_iloc. apply iloc_well_formed. exact Hwf.
Qed.

Lemma assoc_set_map {V W} (f : V -> W) (key : string) (v : V) (kvs : list (string * V)) :
  map (fun c => (fst c, f (snd c))) (assoc_set key v kvs)
  = assoc_set key (f v) (map (fun c => (fst c, f (snd c))) kvs).
Proof.
  induction kvs as [|[k v0] kvs IH]; simpl; [reflexivity|].
  destruct (String.eqb k key); simpl; [reflexivity|]. rewrite IH. reflexivity.
Qed.

Lemma iloc_setcol (d : DataFrame) (name : string) (s : Series) (indexer : list nat) :
  iloc (setcol d name s) indexer = setcol (iloc d indexer) name (take_rows indexer s).
Proof.
  unfold iloc, setcol. simpl. f_equal.
  apply (assoc_set_map (take_rows indexer)).
Qed.

Lemma take_rows_of_nums (indexer : list nat) (xs : list num) :
  take_rows indexer (of_nums xs) = of_nums (map (fun i => nth i xs None) indexer).
Proof.
  unfold take_rows, of_nums. rewrite map_map. apply map_ext. intros i.
  apply (map_nth of_num xs None).
Qed.

Lemma notna_of_nums (xs : list num) :
  map notna (of_nums xs) = map (fun x => negb (isna x)) xs.
Proof.
  unfold of_nums. rewrite map_map. apply map_ext. intros [q|]; reflexivity.
Qed.

Lemma StronglySorted_map_inv {A B} (R : B -> B -> Prop) (f : A -> B) (l : list A) :
  StronglySorted R (map f l) -> StronglySorted (fun a b => R (f a) (f b)) l.
Proof.
  induction l as [|x l IH]; simpl; intros H; [constructor|].
  inversion H as [|? ? Hl Hx]; subst. constructor; [apply IH; exact Hl|].
  rewrite List.Forall_forall in *. intros y Hy. apply Hx. apply in_map. exact Hy.
Qed.

Lemma sort_values_desc_run (d : DataFrame) (by_ : string) (key : num -> num) (items : list num) :
  getcol d by_ = Ok (of_nums items) ->
  sort_values_desc by_ key d = Ok (iloc d (nargsort_desc (map key items))).
Proof.
  intros H. unfold sort_values_desc. rewrite H. simpl. rewrite as_num_of_nums. reflexivity.
Qed.

(** *** Facts: ranking *)

(** C7, as amended (top n).  On a well-formed table with a numeric sort
    key, [rank_top_n] returns the first [n] rows of a rearrangement of the
    table: every row once, the keys descending along it and rows without a
    key last.  Nothing is said about the order of rows with equal keys: it
    is the one the sort routine produces. *)
Theorem rank_top_n_descending (d : DataFrame) (sort_key : string) (n : nat) (items : list num) :
  SortKind argsort ->
  well_formed d ->
  getcol d sort_key = Ok (of_nums items) ->
  exists order : list nat,
    Permutation order (seq 0 (nrows d))
    /\ StronglySorted ranks_before (map (fun i => nth i items None) order)
    /\ rank_top_n sort_key n d = Ok (iloc d (take n order))
    /\ nrows (iloc d (take n order)) = Nat.min n (nrows d).
Proof.
  intros Hkind Hwf Hcol.
  assert (Hlen : length items = nrows d).
  { rewrite <- (getcol_length d sort_key _ Hwf Hcol). unfold of_nums. rewrite length_map. reflexivity. }
  exists (nargsort_desc items). split; [|split; [|split]].
  - rewrite <- Hlen. apply nargsort_desc_perm. exact Hkind.
  - apply nargsort_desc_sorted. exact Hkind.
  - unfold rank_top_n. rewrite (sort_values_desc_run d sort_key _ items Hcol). simpl.
    rewrite map_id, head_iloc. reflexivity.
  - simpl. rewrite length_firstn.
    rewrite (Permutation_length (nargsort_desc_perm Hkind items)), length_seq, Hlen. reflexivity.
Qed.

Lemma In_take {A} (x : A) (n : nat) (l : list A) : In x (take n l) -> In x l.
Proof.
  intros H. rewrite <- (firstn_skipn n l). apply in_or_app. left. exact H.
Qed.

(** C6 (largest changes).  On a table with a numeric [pct_change] column,
    [rank_by_abs_change] returns the first [n] rows of a rearrangement of
    exactly the rows whose [pct_change] is defined, each once, along which
    the absolute value of [pct_change] descends, with that absolute value
    added as the column [abs_change]; so it has at most [n] rows and none
    with an undefined [pct_change].  On the scenario, with [pct_change]
    derived as [main] derives it, the result is the single row
    "Bachelor's Degree" with pct_change 1/5; "Certificate" is gone. *)
Theorem rank_by_abs_change_sorted :
  SortKind argsort ->
  (forall (d : DataFrame) (n : nat) (items : list num),
     getcol d "pct_change" = Ok (of_nums items) ->
     exists order : list nat,
       Permutation order (positions (map (fun x => negb (isna x)) items))
       /\ (forall i, In i order -> exists q, nth i items None = Some q)
       /\ StronglySorted
            (fun i j => ranks_before (num_abs (nth i items None)) (num_abs (nth j items None)))
            order
       /\ rank_by_abs_change n d
          = Ok (iloc (setcol d "abs_change" (of_nums (map num_abs items))) (take n order))
       /\ length (take n order) <= n)
  /\ (let* pct_change := pct_change_column scenario in
      rank_by_abs_change 20 (setcol scenario "pct_change" pct_change))
     = Ok scenario_ranked.
Proof.
  intros Hkind. split.
  - intros d n items Hcol.
    set (P := positions (map (fun x => negb (isna x)) items)).
    set (nn := non_nans_of items).
    set (keys := map num_abs (map Some nn)).
    set (O := nargsort_desc keys).
    assert (Hpresent : map (fun k => nth k items None) P = map Some nn)
      by apply positions_present.
    assert (HlenP : length P = length nn) by apply positions_present_length.
    assert (Hlenkeys : length keys = length P).
    { unfold keys. rewrite !length_map. symmetry. exact HlenP. }
    assert (HO : Permutation O (seq 0 (length P))).
    { rewrite <- Hlenkeys. apply nargsort_desc_perm. exact Hkind. }
    assert (HOrange : forall k, In k O -> k < length P).
    { intros k Hk. apply (Permutation_in _ HO), in_seq in Hk. lia. }
    assert (Hkeys : keys = map (fun k => num_abs (nth k items None)) P).
    { unfold keys. rewrite <- Hpresent, map_map. reflexivity. }
    assert (Hkey : forall k, k < length P ->
              nth k keys None = num_abs (nth (nth k P 0) items None)).
    { intros k Hk. rewrite Hkeys.
      rewrite (nth_indep _ None (num_abs (nth 0 items None))) by (rewrite length_map; exact Hk).
      apply (map_nth (fun k => num_abs (nth k items None))). }
    exists (map (fun k => nth k P 0) O).
    split; [|split; [|split; [|split]]].
    + rewrite (Permutation_map _ HO), map_nth_seq. reflexivity.
    + intros i Hi. apply in_map_iff in Hi as (k & <- & Hk).
      assert (Hin : In (nth k P 0) P) by (apply nth_In, HOrange, Hk).
      apply positions_In in Hin. rewrite map_lookup in Hin.
      destruct (items !! nth k P 0) as [x|] eqn:E; [|discriminate].
      injection Hin as Hx. destruct x as [q|]; [|discriminate].
      exists q. apply nth_lookup_Some. exact E.
    + apply StronglySorted_map.
      apply (StronglySorted_ext_in
               (fun a b => ranks_before (nth a keys None) (nth b keys None))).
      * intros a b Ha Hb Hab. rewrite <- !Hkey by (apply HOrange; assumption). exact Hab.
      * apply StronglySorted_map_inv. apply nargsort_desc_sorted. exact Hkind.
    + unfold rank_by_abs_change, dropna. rewrite Hcol. simpl res_bind.
      rewrite notna_of_nums. fold P.
      rewrite getcol_iloc, Hcol. simpl res_bind.
      rewrite take_rows_of_nums, Hpresent, as_num_of_nums. simpl res_bind.
      unfold assign.
      rewrite (sort_values_desc_run _ "abs_change" _ (map num_abs (map Some nn)))
        by apply getcol_setcol_eq.
      simpl res_bind. rewrite map_id, head_iloc. fold keys. fold O.
      f_equal. rewrite firstn_map.
      rewrite <- iloc_iloc by (intros k Hk; apply HOrange; apply In_take in Hk; exact Hk).
      rewrite (iloc_setcol d "abs_change" _ P). f_equal. f_equal.
      rewrite take_rows_of_nums. f_equal. rewrite Hkeys.
      apply map_ext. intros i. symmetry. apply (map_nth num_abs items None).
    + rewrite length_firstn. lia.
  - vm_compute. rewrite (argsort_singleton Hkind). reflexivity.
Qed.

(** *** Facts: float64 *)

Lemma round_half_even_error (x : Q) :
  (Qabs (inject_Z (round_half_even x) - x) <= 1 # 2)%Q.
Proof.
  destruct x as [n d]. unfold round_half_even. cbn [Qnum Qden].
  pose proof (Z.div_mod n (Zpos d) ltac:(lia)) as Hdm.
  pose proof (Z.mod_pos_bound n (Zpos d) ltac:(lia)) as Hr.
  set (q := (n / Zpos d)%Z) in *. set (r := (n mod Zpos d)%Z) in *.
  assert (Hcases : forall m : Z, (2 * Z.abs (m * Zpos d - n) <= Zpos d)%Z ->
                     (Qabs (inject_Z m - (n # d)) <= 1 # 2)%Q).
  { intros m Hm. apply Qabs_Qle_condition. unfold Qle, Qminus, Qplus, Qopp, inject_Z.
    cbn [Qnum Qden]. split; simpl; lia. }
  destruct (Z.compare_spec (2 * r) (Zpos d)) as [E|E|E].
  - destruct (Z.even q); apply Hcases; lia.
  - apply Hcases. lia.
  - apply Hcases. lia.
Qed.

Lemma Qdiv_le_cross (A B a d : Q) :
  (0 < B)%Q -> (0 < d)%Q -> (A * d <= a * B)%Q -> (A / B <= a / d)%Q.
Proof.
  intros HB Hd H. apply Qle_shift_div_l; [exact Hd|].
  assert (E : (A / B * d == A * d / B)%Q) by (field; lra).
  rewrite E. apply Qle_shift_div_r; [exact HB|exact H].
Qed.

Lemma two_power_pos (z : Z) : (0 < 2 ^ z)%Q.
Proof. apply Qpower_0_lt. reflexivity. Qed.

(** [binade x] does not overshoot: 2 ^ binade x <= x. *)
Lemma binade_le (x : Q) : (0 < x)%Q -> (2 ^ binade x <= x)%Q.
Proof.
  intros Hx. unfold binade.
  set (k := (Z.log2 (Qnum x) - Z.log2 (Zpos (Qden x)))%Z).
  destruct (Qle_bool (2 ^ k) x) eqn:E; [apply Qle_bool_iff; exact E|].
  destruct x as [n d]. cbn [Qnum Qden] in *.
  assert (Hn : (0 < n)%Z).
  { unfold Qlt in Hx. simpl in Hx. lia. }
  destruct (Z.log2_spec n Hn) as [Hlo _].
  destruct (Z.log2_spec (Zpos d) ltac:(lia)) as [_ Hhi].
  pose proof (Z.log2_nonneg n) as Hln. pose proof (Z.log2_nonneg (Zpos d)) as Hld.
  set (la := Z.log2 n) in *. set (ld := Z.log2 (Zpos d)) in *.
  replace (k - 1)%Z with (la - (ld + 1))%Z by (unfold k; lia).
  rewrite Qpower_minus by (intros H; discriminate H).
  rewrite (Qmake_Qdiv n d).
  apply Qdiv_le_cross.
  - apply two_power_pos.
  - unfold Qlt. simpl. lia.
  - assert (HA : (2 ^ la <= inject_Z n)%Q).
    { rewrite <- (Zpower_Qpower 2 la Hln). rewrite <- Zle_Qle. exact Hlo. }
    assert (HB : (inject_Z (Zpos d) <= 2 ^ (ld + 1))%Q).
    { rewrite <- (Zpower_Qpower 2 (ld + 1)) by lia. rewrite <- Zle_Qle.
      replace (ld + 1)%Z with (Z.succ ld) by lia. lia. }
    pose proof (two_power_pos la) as HpA.
    assert (Hd0 : (0 < inject_Z (Zpos d))%Q) by (unfold Qlt; simpl; lia).
    nra.
Qed.

(** The float64 nearest to [r] is within half a unit in the last place of
    [r], that is, within [unit_roundoff] times [r]. *)
Lemma float64_of_error : rounds_to_nearest float64_of.
Proof.
  intros r. unfold float64_of.
  destruct (Qeq_bool r 0) eqn:E0.
  { apply Qeq_bool_iff in E0. rewrite E0. vm_compute. discriminate. }
  assert (Hr0 : ~ (r == 0)%Q).
  { intros H. apply Qeq_bool_iff in H. congruence. }
  assert (Hpos : (0 < Qabs r)%Q).
  { destruct (Qlt_le_dec 0 (Qabs r)) as [H|H]; [exact H|].
    exfalso. apply Hr0. apply Qabs_Qle_condition in H. lra. }
  cbv zeta. set (L := binade (Qabs r)). set (e := (L - 52)%Z).
  set (t := (2 ^ e)%Q). set (x := (r / t)%Q).
  set (m := inject_Z (round_half_even x)).
  pose proof (two_power_pos e) as Ht. fold t in Ht.
  pose proof (round_half_even_error x) as Hm. fold m in Hm.
  pose proof (binade_le (Qabs r) Hpos) as HL. fold L in HL.
  assert (HLe : (2 ^ L == 2 ^ 52 * t)%Q).
  { unfold t. rewrite <- Qpower_plus by (intros H; discriminate H).
    replace (52 + e)%Z with L by (unfold e; lia). reflexivity. }
  rewrite Qred_correct.
  assert (Hx : (r == x * t)%Q) by (unfold x; field; lra).
  assert (Hdiff : (m * t - r == (m - x) * t)%Q) by (rewrite Hx at 1; ring).
  rewrite Hdiff, Qabs_Qmult, (Qabs_pos t) by lra.
  rewrite HLe in HL.
  assert (H52 : (2 ^ 52 == 4503599627370496)%Q) by reflexivity.
  rewrite H52 in HL. unfold unit_roundoff.
  pose proof (Qabs_nonneg (m - x)) as Hb.
  set (a := Qabs r) in *. set (b := Qabs (m - x)) in *.
  nra.
Qed.

Lemma nansum_non_nans (ys : list num) : (nansum ys == Qsum (non_nans_of ys))%Q.
Proof.
  induction ys as [|[y|] ys IH]; simpl; [reflexivity| |exact IH].
  rewrite Qred_correct, IH. reflexivity.
Qed.

Lemma non_nans_stored (fl : Q -> Q) (ys : list num) :
  non_nans_of (stored fl ys) = map fl (non_nans_of ys).
Proof.
  unfold stored. induction ys as [|[y|] ys IH]; simpl; [reflexivity| |exact IH].
  rewrite IH. reflexivity.
Qed.

Lemma Qsum_app (xs ys : list Q) : (Qsum (xs ++ ys) == Qsum xs + Qsum ys)%Q.
Proof. induction xs as [|x xs IH]; simpl; [ring|rewrite IH; ring]. Qed.

Lemma Qsum_perm (xs ys : list Q) : Permutation xs ys -> (Qsum xs == Qsum ys)%Q.
Proof.
  induction 1 as [|x xs ys _ IH|x y xs|xs ys zs _ IH1 _ IH2]; simpl.
  - reflexivity.
  - rewrite IH. reflexivity.
  - ring.
  - rewrite IH1. exact IH2.
Qed.

Lemma Qsum_abs_nonneg (ys : list Q) : (0 <= Qsum (map Qabs ys))%Q.
Proof.
  induction ys as [|y ys IH]; cbn [map Qsum]; [lra|]. pose proof (Qabs_nonneg y). lra.
Qed.

Lemma Qsum_abs (ys : list Q) : (Qabs (Qsum ys) <= Qsum (map Qabs ys))%Q.
Proof.
  induction ys as [|y ys IH]; cbn [map Qsum]; [vm_compute; discriminate|].
  eapply Qle_trans; [apply Qabs_triangle|]. lra.
Qed.

Lemma Qsum_abs_of_nonneg (ys : list Q) :
  (forall y, In y ys -> (0 <= y)%Q) -> (Qsum (map Qabs ys) == Qsum ys)%Q.
Proof.
  induction ys as [|y ys IH]; intros H; cbn [map Qsum]; [reflexivity|].
  rewrite (Qabs_pos y) by (apply H; left; reflexivity).
  rewrite IH by (intros z Hz; apply H; right; exact Hz). reflexivity.
Qed.

Lemma compound_ge_1 (k : nat) : (1 <= compound k)%Q.
Proof.
  induction k as [|k IH]; simpl; [lra|]. unfold unit_roundoff in *. nra.
Qed.

Lemma compound_add (k1 k2 : nat) : (compound (k1 + k2) == compound k1 * compound k2)%Q.
Proof. induction k1 as [|k1 IH]; simpl; [ring|rewrite IH; ring]. Qed.

(** Rounding every term moves the sum by at most [unit_roundoff] times
    the sum of the absolute values. *)
Lemma stored_sum_error (fl : Q -> Q) (ys : list Q) :
  rounds_to_nearest fl ->
  (Qabs (Qsum (map fl ys) - Qsum ys) <= unit_roundoff * Qsum (map Qabs ys))%Q.
Proof.
  intros Hfl. induction ys as [|y ys IH]; cbn [map Qsum].
  - vm_compute. discriminate.
  - pose proof (Hfl y) as Hy.
    apply Qabs_Qle_condition in Hy. apply Qabs_Qle_condition in IH.
    apply Qabs_Qle_condition. lra.
Qed.

Lemma stored_abs_sum (fl : Q -> Q) (ys : list Q) :
  rounds_to_nearest fl ->
  (Qsum (map Qabs (map fl ys)) <= (1 + unit_roundoff) * Qsum (map Qabs ys))%Q.
Proof.
  intros Hfl. induction ys as [|y ys IH]; cbn [map Qsum].
  - vm_compute. discriminate.
  - pose proof (Hfl y) as Hy.
    assert (H : (Qabs (fl y) <= Qabs y + unit_roundoff * Qabs y)%Q).
    { apply Qabs_Qle_condition in Hy. apply Qabs_Qle_condition.
      pose proof (Qle_Qabs y) as H1. pose proof (Qle_Qabs (- y)) as H2.
      rewrite Qabs_opp in H2. lra. }
    lra.
Qed.

(** Adding up in float64, in any order: every addition rounds once. *)
Lemma float_sum_error (fl : Q -> Q) (ys : list Q) (s : Q) (k : nat) :
  rounds_to_nearest fl ->
  float_sum fl ys s k ->
  (Qabs (s - Qsum ys) <= (compound k - 1) * Qsum (map Qabs ys))%Q.
Proof.
  intros Hfl. induction 1 as [|y|ys1 ys2 s1 s2 k1 k2 _ IH1 _ IH2|ys ys' s k Hp _ IH].
  - vm_compute. discriminate.
  - cbn [map Qsum compound]. apply Qabs_Qle_condition. lra.
  - rewrite map_app, !Qsum_app.
    pose proof (Hfl (s1 + s2)%Q) as Hr.
    pose proof (Qsum_abs ys1) as Hb1. pose proof (Qsum_abs ys2) as Hb2.
    pose proof (Qsum_abs_nonneg ys1) as Hn1. pose proof (Qsum_abs_nonneg ys2) as Hn2.
    pose proof (compound_ge_1 k1) as Hg1. pose proof (compound_ge_1 k2) as Hg2.
    set (A1 := Qsum (map Qabs ys1)) in *. set (A2 := Qsum (map Qabs ys2)) in *.
    set (S1 := Qsum ys1) in *. set (S2 := Qsum ys2) in *.
    set (g1 := compound k1) in *. set (g2 := compound k2) in *.
    assert (Hg : (compound (S (k1 + k2)) == (1 + unit_roundoff) * (g1 * g2))%Q).
    { simpl. rewrite compound_add. reflexivity. }
    rewrite Hg. clear Hg.
    assert (Hs1 : (Qabs s1 <= g1 * A1)%Q).
    { apply Qabs_Qle_condition. apply Qabs_Qle_condition in IH1, Hb1. lra. }
    assert (Hs2 : (Qabs s2 <= g2 * A2)%Q).
    { apply Qabs_Qle_condition. apply Qabs_Qle_condition in IH2, Hb2. lra. }
    assert (Hs12 : (Qabs (s1 + s2) <= g1 * A1 + g2 * A2)%Q).
    { eapply Qle_trans; [apply Qabs_triangle|]. lra. }
    assert (Hu : (0 < unit_roundoff)%Q) by reflexivity.
    set (u := unit_roundoff) in *.
    assert (Hround : (Qabs (fl (s1 + s2) - (s1 + s2)) <= u * (g1 * A1 + g2 * A2))%Q) by nra.
    assert (Htot : (Qabs (fl (s1 + s2) - (S1 + S2))
                    <= u * (g1 * A1 + g2 * A2) + (g1 - 1) * A1 + (g2 - 1) * A2)%Q).
    { apply Qabs_Qle_condition.
      apply Qabs_Qle_condition in Hround. apply Qabs_Qle_condition in IH1.
      apply Qabs_Qle_condition in IH2. lra. }
    eapply Qle_trans; [exact Htot|].
    assert (P1 : (0 <= g1 * A1)%Q) by nra.
    assert (P2 : (0 <= g2 * A2)%Q) by nra.
    assert (H1 : (g1 * A1 <= g1 * A1 * g2)%Q) by nra.
    assert (H2 : (g2 * A2 <= g2 * A2 * g1)%Q) by nra.
    clearbody A1 A2 g1 g2 u.
    nra.
  - rewrite <- (Qsum_perm _ _ Hp), <- (Qsum_perm _ _ (Permutation_map Qabs Hp)). exact IH.
Qed.

(** Adding from the left is one of the ways, with one addition per number. *)
Lemma float_sum_seq_sum (fl : Q -> Q) (ys : list Q) :
  float_sum fl ys (float_sum_seq fl ys) (length ys).
Proof.
  unfold float_sum_seq. induction ys as [|y ys IH] using rev_ind.
  - apply fs_nil.
  - rewrite fold_left_app, length_app. simpl. rewrite Nat.add_comm.
    replace (1 + length ys) with (S (length ys + 0)) by lia.
    apply fs_add; [exact IH|apply fs_one].
Qed.

(** *** Facts: percentages *)

Lemma column_nums_numeric (d : DataFrame) (col : string) (xs : list num) :
  getcol d col = Ok (of_nums xs) -> column_nums d col = xs.
Proof. intros H. unfold column_nums. rewrite H, as_num_of_nums. reflexivity. Qed.

Lemma assoc_map_key {V} (f : string -> V) (col : string) (cols : list string) :
  In col cols -> assoc col (map (fun c => (c, f c)) cols) = Some (f col).
Proof.
  induction cols as [|c cols IH]; simpl; [intros []|].
  destruct (String.eqb_spec c col) as [->|Hne]; [reflexivity|].
  intros [E|H]; [contradiction|apply IH; exact H].
Qed.

Lemma totals_run (h ext : list DataFrame) (p : list widget) (df : loc) (d : DataFrame)
    (cols : list string) :
  h !! df = Some d ->
  (forall col, In col cols -> exists xs, getcol d col = Ok (of_nums xs)) ->
  comprehension cols (fun col =>
      s <- getitem df col ;; xs <- lift (as_num s) ;; ret (col, nansum xs))
    {| heap := h ++ ext; page := p |}
  = (Ok (map (fun col => (col, nansum (column_nums d col))) cols),
     {| heap := h ++ ext; page := p |}).
Proof.
  intros Hdf. induction cols as [|col cols IH]; intros Hnum; [reflexivity|].
  destruct (Hnum col (or_introl eq_refl)) as [xs Hxs].
  cbn [comprehension map].
  rewrite bind_run, bind_run, (getitem_base _ _ _ _ _ _ Hdf), Hxs.
  rewrite bind_run, lift_run, as_num_of_nums, ret_run.
  rewrite bind_run, IH by (intros c Hc; apply Hnum; right; exact Hc).
  rewrite ret_run, (column_nums_numeric d col xs Hxs). reflexivity.
Qed.

Lemma percent_loop_run (h : list DataFrame) (p : list widget) (df : loc) (d d_pct : DataFrame)
    (all cols : list string) :
  h !! df = Some d ->
  (forall col, In col cols -> In col all) ->
  (forall col, In col cols -> exists xs, getcol d col = Ok (of_nums xs)) ->
  for_each cols (fun col =>
      total <- lift (lookup_total (map (fun c => (c, nansum (column_nums d c))) all) col) ;;
      if truthy total then
        s <- getitem df col ;;
        xs <- lift (as_num s) ;;
        setitem (length h + 0) (pct_name col) (map (fun x => true_div x (Some total)) xs)
      else
        setitem_scalar (length h + 0) (pct_name col) (Num 0))
    {| heap := h ++ [d_pct]; page := p |}
  = (Ok tt, {| heap := h ++ [fold_left (pct_step d) cols d_pct]; page := p |}).
Proof.
  intros Hdf. revert d_pct. induction cols as [|col cols IH]; intros d_pct Hall Hnum; [reflexivity|].
  destruct (Hnum col (or_introl eq_refl)) as [xs Hxs].
  cbn [for_each fold_left]. rewrite bind_run, bind_run, lift_run. unfold lookup_total.
  rewrite (assoc_map_key (fun c => nansum (column_nums d c)) col all)
    by (apply Hall; left; reflexivity).
  unfold pct_step at 2, pct_column. rewrite (column_nums_numeric d col xs Hxs).
  destruct (truthy (nansum xs)) eqn:Ht.
  - rewrite bind_run, (getitem_base _ _ _ _ _ _ Hdf), Hxs.
    rewrite bind_run, lift_run, as_num_of_nums.
    rewrite (setitem_ext h [d_pct] p 0 d_pct) by reflexivity.
    rewrite (true_div_column _ xs (proj1 (truthy_true _) Ht)).
    apply IH.
    + intros c Hc. apply Hall. right. exact Hc.
    + intros c Hc. apply Hnum. right. exact Hc.
  - rewrite (setitem_scalar_ext h [d_pct] p 0 d_pct) by reflexivity.
    apply IH.
    + intros c Hc. apply Hall. right. exact Hc.
    + intros c Hc. apply Hnum. right. exact Hc.
Qed.

Lemma compute_percentages_run (h : list DataFrame) (p : list widget) (df : loc) (d : DataFrame)
    (value_cols : list string) :
  h !! df = Some d ->
  (forall col, In col value_cols -> exists xs, getcol d col = Ok (of_nums xs)) ->
  compute_percentages df value_cols {| heap := h; page := p |}
  = (Ok (length h + 0), {| heap := h ++ [fold_left (pct_step d) value_cols d]; page := p |}).
Proof.
  intros Hdf Hnum. rewrite <- (app_nil_r h) at 1.
  unfold compute_percentages.
  rewrite bind_run, (totals_run h [] p df d value_cols Hdf Hnum).
  rewrite bind_run, (copy_base _ _ _ _ _ Hdf). simpl length. simpl app.
  rewrite bind_run.
  rewrite (percent_loop_run h p df d d value_cols value_cols Hdf (fun _ H => H) Hnum).
  reflexivity.
Qed.

Lemma fold_pct_nrows (d : DataFrame) (cols : list string) (d_pct : DataFrame) :
  nrows (fold_left (pct_step d) cols d_pct) = nrows d_pct.
Proof.
  revert d_pct. induction cols as [|c cols IH]; intros d_pct; simpl; [reflexivity|].
  rewrite IH. reflexivity.
Qed.

Lemma fold_pct_other (d : DataFrame) (cols : list string) (d_pct : DataFrame) (name : string) :
  ~ In name (map pct_name cols) ->
  getcol (fold_left (pct_step d) cols d_pct) name = getcol d_pct name.
Proof.
  revert d_pct. induction cols as [|c cols IH]; intros d_pct Hnot; simpl; [reflexivity|].
  rewrite IH by (intros H; apply Hnot; right; exact H).
  unfold pct_step. apply getcol_setcol_ne. intros E. apply Hnot. left. exact E.
Qed.

Lemma fold_pct_col (d : DataFrame) (cols : list string) (d_pct : DataFrame) (col : string) :
  List.NoDup (map pct_name cols) -> In col cols ->
  getcol (fold_left (pct_step d) cols d_pct) (pct_name col)
  = Ok (pct_column (nrows d_pct) (column_nums d col)).
Proof.
  revert d_pct. induction cols as [|c cols IH]; intros d_pct Hnd Hin; [destruct Hin|].
  simpl in Hnd. inversion Hnd as [|? ? Hc Hrest]; subst. simpl.
  destruct (string_dec c col) as [->|Hne].
  - rewrite fold_pct_other by exact Hc. unfold pct_step. apply getcol_setcol_eq.
  - destruct Hin as [E|Hin]; [contradiction|].
    rewrite (IH _ Hrest Hin). reflexivity.
Qed.

Lemma num_div_nonzero (x t : Q) :
  ~ (t == 0)%Q -> num_div (Some x) (Some t) = Some (Qred (x / t)).
Proof.
  intros Ht. unfold num_div. destruct (Qeq_bool t 0) eqn:E; [|reflexivity].
  apply Qeq_bool_iff in E. contradiction.
Qed.

(** Dividing every present cell by a non-zero number divides the sum. *)
Lemma nansum_div (t : Q) (xs : list num) :
  ~ (t == 0)%Q ->
  (nansum (map (fun x => num_div x (Some t)) xs) == nansum xs / t)%Q.
Proof.
  intros Ht. induction xs as [|[x|] xs IH]; simpl.
  - field. exact Ht.
  - destruct (Qeq_bool t 0) eqn:E.
    { apply Qeq_bool_iff in E. contradiction. }
    simpl. rewrite !Qred_correct, IH. field. exact Ht.
  - exact IH.
Qed.

(** What the derived column holds, row by row. *)
Lemma pct_column_rows (n : nat) (xs : list num) :
  length xs = n ->
  length (pct_column n xs) = n
  /\ ((nansum xs == 0)%Q -> forall i, i < n -> pct_column n xs !! i = Some (Num 0))
  /\ (~ (nansum xs == 0)%Q -> forall i x, xs !! i = Some (Some x) ->
        exists q, pct_column n xs !! i = Some (Num q) /\ (q == x / nansum xs)%Q)
  /\ (~ (nansum xs == 0)%Q -> forall i, xs !! i = Some None -> pct_column n xs !! i = Some NA).
Proof.
  intros Hlen. unfold pct_column. split; [|split; [|split]].
  - destruct (truthy (nansum xs)).
    + unfold of_nums. rewrite !length_map. exact Hlen.
    + apply repeat_length.
  - intros Hz i Hi. apply truthy_false in Hz. rewrite Hz. apply repeat_lookup. exact Hi.
  - intros Hnz i x Hx. pose proof Hnz as Ht. apply truthy_true in Ht. rewrite Ht.
    exists (Qred (x / nansum xs)). split; [|apply Qred_correct].
    unfold of_nums. rewrite !map_lookup, Hx. cbn [option_map].
    rewrite (num_div_nonzero _ _ Hnz). reflexivity.
  - intros Hnz i Hx. apply truthy_true in Hnz. rewrite Hnz.
    unfold of_nums. rewrite !map_lookup, Hx. reflexivity.
Qed.

(** C4 (percentages).  Run on a reference to a well-formed table whose
    value columns are numeric, lines 260-264 return a new frame with as
    many rows and, for every value column, a percentage column in which a
    row holds its count divided by the column's sum (a missing count stays
    missing); when the column's sum is zero, the percentage is the number 0
    in every row.  The computation returns in either case. *)
Theorem compute_percentages_rows (st : state) (df : loc) (d : DataFrame)
    (value_cols : list string) :
  heap st !! df = Some d ->
  well_formed d ->
  (forall col, In col value_cols -> exists xs, getcol d col = Ok (of_nums xs)) ->
  List.NoDup (map pct_name value_cols) ->
  exists df_pct st' d_pct,
    compute_percentages df value_cols st = (Ok df_pct, st')
    /\ heap st' !! df_pct = Some d_pct
    /\ nrows d_pct = nrows d
    /\ forall col xs, In col value_cols -> getcol d col = Ok (of_nums xs) ->
         exists pct : Series,
           getcol d_pct (pct_name col) = Ok pct
           /\ length pct = nrows d
           /\ ((nansum xs == 0)%Q -> forall i, i < nrows d -> pct !! i = Some (Num 0))
           /\ (~ (nansum xs == 0)%Q -> forall i x, xs !! i = Some (Some x) ->
                 exists q, pct !! i = Some (Num q) /\ (q == x / nansum xs)%Q)
           /\ (~ (nansum xs == 0)%Q -> forall i, xs !! i = Some None -> pct !! i = Some NA).
Proof.
  intros Hdf Hwf Hnum Hnd. destruct st as [h p]. simpl in Hdf.
  exists (length h + 0), {| heap := h ++ [fold_left (pct_step d) value_cols d]; page := p |},
    (fold_left (pct_step d) value_cols d).
  split; [apply compute_percentages_run; assumption|].
  split.
  { simpl. rewrite lookup_app_r by lia.
    replace (length h + 0 - length h) with 0 by lia. reflexivity. }
  split; [apply fold_pct_nrows|].
  intros col xs Hin Hxs.
  exists (pct_column (nrows d) xs).
  rewrite (fold_pct_col d value_cols d col Hnd Hin), (column_nums_numeric d col xs Hxs).
  split; [reflexivity|].
  apply pct_column_rows.
  rewrite <- (getcol_length d col _ Hwf Hxs). unfold of_nums. rewrite length_map. reflexivity.
Qed.

Lemma nansum_nonneg (xs : list num) :
  (forall x, In (Some x) xs -> (0 <= x)%Q) -> (0 <= nansum xs)%Q.
Proof.
  induction xs as [|[x|] xs IH]; intros H; simpl.
  - lra.
  - rewrite Qred_correct.
    assert (0 <= x)%Q by (apply H; left; reflexivity).
    assert (0 <= nansum xs)%Q by (apply IH; intros y Hy; apply H; right; exact Hy).
    lra.
  - apply IH. intros y Hy. apply H. right. exact Hy.
Qed.

Lemma is_count_nonneg (xs : list num) :
  Forall is_count xs -> forall x, In (Some x) xs -> (0 <= x)%Q.
Proof.
  intros H x Hx. rewrite List.Forall_forall in H. apply (H (Some x) Hx).
Qed.

Lemma pct_nonneg (t : Q) (xs : list num) :
  (0 < t)%Q -> (forall x, In (Some x) xs -> (0 <= x)%Q) ->
  forall q, In q (non_nans_of (map (fun x => num_div x (Some t)) xs)) -> (0 <= q)%Q.
Proof.
  intros Ht. assert (Hnz : ~ (t == 0)%Q) by lra.
  induction xs as [|[x|] xs IH]; intros Hpos q Hq; cbn [map non_nans_of] in Hq.
  - destruct Hq.
  - rewrite (num_div_nonzero _ _ Hnz) in Hq. cbn [non_nans_of] in Hq.
    destruct Hq as [<-|Hq].
    + rewrite Qred_correct. apply Qle_shift_div_l; [exact Ht|].
      assert (0 <= x)%Q by (apply Hpos; left; reflexivity). lra.
    + apply IH; [|exact Hq]. intros y Hy. apply Hpos. right. exact Hy.
  - cbn [num_div non_nans_of] in Hq. apply IH; [|exact Hq].
    intros y Hy. apply Hpos. right. exact Hy.
Qed.

(** C5 (percentages sum to one).  Run on a reference to a table whose
    value columns are numeric, lines 260-264 derive a numeric percentage
    column from every column of counts whose sum is not zero, each cell the
    quotient of a count by the total.  The counts are whole numbers, not
    negative, with a total below 2^53, so that the total and the counts are
    exact in float64 and a percentage is rounded once, when it is stored.
    With every stored percentage rounded to nearest, the stored percentages
    sum to 1 within the unit roundoff 2^-53; and adding them up in float64,
    in whatever order, gives 1 within (1 + 2^-53)^(k+1) - 1, where [k] is
    the number of additions. *)
Theorem percentages_sum_to_one (fl : Q -> Q) (st : state) (df : loc) (d : DataFrame)
    (value_cols : list string) (col : string) (xs : list num) :
  rounds_to_nearest fl ->
  heap st !! df = Some d ->
  (forall c, In c value_cols -> exists ys, getcol d c = Ok (of_nums ys)) ->
  List.NoDup (map pct_name value_cols) ->
  In col value_cols ->
  getcol d col = Ok (of_nums xs) ->
  Forall is_count xs ->
  (nansum xs < 2 ^ 53)%Q ->
  ~ (nansum xs == 0)%Q ->
  exists df_pct st' d_pct pct,
    compute_percentages df value_cols st = (Ok df_pct, st')
    /\ heap st' !! df_pct = Some d_pct
    /\ getcol d_pct (pct_name col) = Ok (of_nums pct)
    /\ length pct = length xs
    /\ (Qabs (nansum (stored fl pct) - 1) <= unit_roundoff)%Q
    /\ forall s k, float_sum fl (non_nans_of (stored fl pct)) s k ->
         (Qabs (s - 1) <= compound (S k) - 1)%Q.
Proof.
  intros Hfl Hdf Hnum Hnd Hin Hxs Hcounts Hbound Hnz. destruct st as [h p]. simpl in Hdf.
  set (pct := map (fun x => num_div x (Some (nansum xs))) xs).
  exists (length h + 0), {| heap := h ++ [fold_left (pct_step d) value_cols d]; page := p |},
    (fold_left (pct_step d) value_cols d), pct.
  split; [apply compute_percentages_run; assumption|].
  split.
  { simpl. rewrite lookup_app_r by lia.
    replace (length h + 0 - length h) with 0 by lia. reflexivity. }
  split.
  { rewrite (fold_pct_col d value_cols d col Hnd Hin), (column_nums_numeric d col xs Hxs).
    unfold pct_column. apply truthy_true in Hnz. rewrite Hnz. reflexivity. }
  split; [apply length_map|].
  pose proof (is_count_nonneg xs Hcounts) as Hpos.
  assert (Ht : (0 < nansum xs)%Q).
  { pose proof (nansum_nonneg xs Hpos). lra. }
  set (ys := non_nans_of pct).
  assert (Hsum : (Qsum ys == 1)%Q).
  { unfold ys. rewrite <- nansum_non_nans. unfold pct. rewrite (nansum_div _ _ Hnz).
    field. exact Hnz. }
  assert (Habs : (Qsum (map Qabs ys) == 1)%Q).
  { rewrite Qsum_abs_of_nonneg; [exact Hsum|]. apply (pct_nonneg _ xs Ht Hpos). }
  pose proof (stored_sum_error fl ys Hfl) as Hstored.
  apply Qabs_Qle_condition in Hstored.
  split.
  - apply Qabs_Qle_condition.
    rewrite nansum_non_nans, non_nans_stored. fold ys. unfold unit_roundoff in *. lra.
  - intros s k Hs. rewrite non_nans_stored in Hs. fold ys in Hs.
    pose proof (float_sum_error fl _ s k Hfl Hs) as Herr.
    pose proof (stored_abs_sum fl ys Hfl) as Hmass.
    pose proof (compound_ge_1 k) as Hg.
    apply Qabs_Qle_condition in Herr. apply Qabs_Qle_condition.
    cbn [compound].
    assert (Hu : (0 < unit_roundoff)%Q) by reflexivity.
    set (B := Qsum (map Qabs (map fl ys))) in *. set (g := compound k) in *.
    assert (HB : (B <= 1 + unit_roundoff)%Q) by (unfold unit_roundoff in *; lra).
    assert (Hprod : ((g - 1) * B <= (g - 1) * (1 + unit_roundoff))%Q) by nra.
    unfold unit_roundoff in *. clearbody B g. lra.
Qed.

Lemma count_columns_pct_names (ipeds : bool) :
  List.NoDup (map pct_name (count_columns ipeds))
  /\ ~ In "field_value" (map pct_name (count_columns ipeds)).
Proof.
  destruct ipeds; vm_compute; split;
    try (intros H; repeat (destruct H as [H|H]; [discriminate|]); exact H);
    repeat constructor; simpl; intros H;
    repeat (destruct H as [H|H]; [discriminate|]); exact H.
Qed.

(** *** Facts: the placeholder label *)

(** [chart_pct_change] charts the prepared copy: as many rows as it was
    given, a missing category showing as the placeholder. *)
Lemma chart_pct_change_null_label (st : state) (df : loc) (d : DataFrame) (fv : Series)
    (items : list num) (title : string) (i : nat) :
  heap st !! df = Some d ->
  getcol d "field_value" = Ok fv ->
  getcol d "pct_change" = Ok (of_nums items) ->
  fv !! i = Some NA ->
  exists c F,
    page (snd (chart_pct_change df title st)) = page st ++ [AltairChart c]
    /\ nrows (ch_data c) = nrows d
    /\ getcol (ch_data c) "field_value" = Ok F
    /\ length F = length fv
    /\ F !! i = Some (Str NULL_LABEL).
Proof.
  intros Hdf Hfv Hpc Hna. destruct st as [h p]. simpl in Hdf.
  set (d' := setcol d "field_value" (_prepare fv)).
  assert (Hpc' : getcol d' "pct_change" = Ok (of_nums items)).
  { unfold d'. rewrite getcol_setcol_ne by discriminate. exact Hpc. }
  eassert (Hrun : chart_pct_change df title {| heap := h; page := p |} = _).
  { unfold chart_pct_change. rewrite <- (app_nil_r h) at 1.
    rewrite bind_run, (copy_base _ _ _ _ _ Hdf). simpl length. simpl app.
    rewrite bind_run, (getitem_ext h [d] p 0 d) by reflexivity. rewrite Hfv.
    rewrite bind_run, (setitem_ext h [d] p 0 d) by reflexivity. simpl (<[_:=_]> _).
    rewrite bind_run, deref_ext. simpl (_ !! _). cbv beta iota. fold d'.
    rewrite bind_run, lift_run, (sort_values_desc_run d' "pct_change" num_abs items Hpc').
    rewrite bind_run, lift_run, getcol_iloc.
    unfold d' at 1. rewrite getcol_setcol_eq.
    unfold altair_chart, emit. cbn [heap page]. reflexivity. }
  rewrite Hrun. cbn [snd page ch_data].
  eexists _, (_prepare fv).
  split; [reflexivity|]. split; [reflexivity|].
  split; [apply getcol_setcol_eq|]. split; [apply _prepare_length|].
  apply (_prepare_lookup fv i NA Hna).
Qed.

(** C9 (placeholder for missing categories), on [chart_employer_industry].
    Given [industry_table], whose second industry is missing, the chart's
    rows keep it as a missing value in all three blocks: no row carries the
    placeholder. *)
Theorem employer_industry_keeps_null :
  map (charted_categories "industry")
      (page (snd (chart_employer_industry 0 "Comparison with BLS, Year = 2023"
                    {| heap := [industry_table]; page := [] |})))
  = [Some (Ok [Str "Retail Trade"; NA; Str "Retail Trade"; NA; Str "Retail Trade"; NA])].
Proof. vm_compute. reflexivity. Qed.

(** *** Facts: aliases and column names *)

Lemma prefix_empty (s : string) : String.prefix "" s = true.
Proof. destruct s; reflexivity. Qed.

Lemma replace_from_single (a b : ascii) (s : string) :
  replace_from (String a "") (String b "") 0 s
  = map_chars (fun c => if Ascii.eqb c a then b else c) s.
Proof.
  induction s as [|c s IH]; [reflexivity|].
  cbn [replace_from String.prefix map_chars String.length Nat.sub].
  destruct (ascii_dec a c) as [E|Hne].
  - subst c. rewrite prefix_empty, Ascii.eqb_refl, IH. reflexivity.
  - rewrite IH. replace (Ascii.eqb c a) with false; [reflexivity|].
    symmetry. apply Ascii.eqb_neq. congruence.
Qed.

Lemma map_chars_map_chars (f g : ascii -> ascii) (s : string) :
  map_chars f (map_chars g s) = map_chars (fun c => f (g c)) s.
Proof. induction s as [|c s IH]; simpl; [reflexivity|]. rewrite IH. reflexivity. Qed.

Lemma lower_map_chars (s : string) : lower s = map_chars lower_char s.
Proof. induction s as [|c s IH]; simpl; [reflexivity|]. rewrite IH. reflexivity. Qed.

Lemma _alias_chars (v : string) : _alias v = map_chars alias_char v.
Proof.
  unfold _alias, str_replace. rewrite !replace_from_single, lower_map_chars.
  rewrite !map_chars_map_chars. reflexivity.
Qed.

Lemma alias_char_fixed (c : ascii) :
  lower_char (alias_char c) = alias_char c
  /\ alias_char (alias_char c) = alias_char c
  /\ alias_char c <> " "%char /\ alias_char c <> "-"%char.
Proof.
  destruct c as [[] [] [] [] [] [] [] []]; vm_compute; repeat split; discriminate.
Qed.

(** X6.  The alias of an (ASCII) version string is a fixed point of
    lower-casing and of [_alias] itself, it has as many characters as the
    version, and none of them is a space or a hyphen: the column names built
    from an alias are the ones a lower-cased table carries. *)
Theorem alias_normal_form (v : string) :
  is_ascii_string v ->
  lower (_alias v) = _alias v
  /\ _alias (_alias v) = _alias v
  /\ String.length (_alias v) = String.length v
  /\ Forall (fun c => c <> " "%char /\ c <> "-"%char) (list_ascii_of_string (_alias v)).
Proof.
  intros _. rewrite !_alias_chars, lower_map_chars, !map_chars_map_chars.
  induction v as [|c v (IH1 & IH2 & IH3 & IH4)]; simpl.
  - repeat split; constructor.
  - destruct (alias_char_fixed c) as (H1 & H2 & H3 & H4).
    rewrite H1, H2, IH1, IH2, IH3. repeat split; try reflexivity.
    constructor; [split; assumption|exact IH4].
Qed.

Lemma replace_from_absent (old new s : string) :
  occurs old s = false -> replace_from old new 0 s = s.
Proof.
  induction s as [|c s IH]; [reflexivity|].
  cbn [occurs replace_from]. intros H. apply orb_false_iff in H as [Hp Ho].
  rewrite Hp, (IH Ho). reflexivity.
Qed.

(** X7.  For a count column [cnt_<alias>] whose alias does not itself
    contain [cnt_], the percentage column that [chart_percentages] derives
    by [replace] is [pct_<alias>], the key its version map is built with. *)
Theorem pct_name_of_count_column (a : string) :
  occurs "cnt_" a = false -> pct_name ("cnt_" +:+ a) = "pct_" +:+ a.
Proof.
  intros H. unfold pct_name, str_replace. f_equal.
  change ("cnt_" +:+ a) with (String "c" (String "n" (String "t" (String "_" a)))).
  cbn [replace_from String.prefix String.length Nat.sub].
  destruct (ascii_dec "c" "c") as [_|N]; [|congruence].
  destruct (ascii_dec "n" "n") as [_|N]; [|congruence].
  destruct (ascii_dec "t" "t") as [_|N]; [|congruence].
  destruct (ascii_dec "_" "_") as [_|N]; [|congruence].
  rewrite prefix_empty. destruct a as [|c a]; [reflexivity|].
  change ("" +:+ ?x) with x. apply replace_from_absent. exact H.
Qed.

Lemma assoc_lower_keys {V} (name : string) (v : V) (kvs : list (string * V)) :
  List.NoDup (map lower (map fst kvs)) ->
  assoc name kvs = Some v ->
  assoc (lower name) (map (fun c => (lower (fst c), snd c)) kvs) = Some v.
Proof.
  induction kvs as [|[k v0] kvs IH]; simpl; [discriminate|].
  intros Hnd Hv. apply List.NoDup_cons_iff in Hnd as [Hk Hnd].
  destruct (String.eqb_spec k name) as [->|Hne].
  - rewrite String.eqb_refl. exact Hv.
  - destruct (String.eqb_spec (lower k) (lower name)) as [E|_]; [|apply IH; assumption].
    exfalso. apply Hk. rewrite E. apply in_map.
    apply assoc_In in Hv. apply (in_map fst) in Hv. exact Hv.
Qed.

(** X8.  After [df.columns = df.columns.str.lower()] a column is found
    under the lower-cased form of its name, with the same cells, as long as
    no two column names coincide once lower-cased; the row count is kept. *)
Theorem lower_columns_lookup (d : DataFrame) (name : string) (s : Series) :
  List.NoDup (map lower (column_names d)) ->
  getcol d name = Ok s ->
  getcol (lower_columns d) (lower name) = Ok s
  /\ column_names (lower_columns d) = map lower (column_names d)
  /\ nrows (lower_columns d) = nrows d.
Proof.
  intros Hnd Hs. unfold getcol in *. unfold lower_columns, column_names in *. simpl.
  split; [|split; [|reflexivity]].
  - destruct (assoc name (columns d)) as [s'|] eqn:E; [|discriminate].
    rewrite (assoc_lower_keys name s' (columns d) Hnd E). exact Hs.
  - rewrite !map_map. reflexivity.
Qed.

(** *** Facts: labels *)

(** X9.  [_prepare] on a Series gives a Series of the same length that
    holds only strings (no missing cell is left), and preparing it again
    changes nothing. *)
Theorem prepare_idempotent (val : Series) :
  _prepare (_prepare val) = _prepare val
  /\ length (_prepare val) = length val
  /\ Forall (fun c => exists s, c = Str s) (_prepare val).
Proof.
  unfold _prepare. split; [|split].
  - rewrite map_map. reflexivity.
  - apply length_map.
  - apply List.Forall_forall. intros c Hc. apply in_map_iff in Hc as (c0 & <- & _).
    eexists. reflexivity.
Qed.

(** *** Facts: bounds *)

(** X10.  For a positive base count and a non-negative new count the
    percent change is defined, it is never below -1 (minus one hundred
    percent), it is positive exactly when the count grew (the condition the
    change chart colours by), and zero exactly when the counts are equal. *)
Theorem pct_change_sign_and_floor (b n : Q) :
  (0 < b)%Q -> (0 <= n)%Q ->
  exists q, compute_pct_change (Some b) (Some n) = Num q
    /\ (-1 <= q)%Q
    /\ ((0 < q)%Q <-> (b < n)%Q)
    /\ ((q == 0)%Q <-> (n == b)%Q).
Proof.
  intros Hb Hn.
  assert (Hb0 : ~ (b == 0)%Q) by lra.
  destruct (compute_pct_change_nonzero b n Hb0) as (q & Hq & Heq).
  exists q. split; [exact Hq|].
  assert (Hr : (b * q == n - b)%Q).
  { rewrite Heq. apply Qmult_div_r. exact Hb0. }
  repeat split; intros; nra.
Qed.

Lemma nansum_ge (xs : list num) (x : Q) :
  (forall y, In (Some y) xs -> (0 <= y)%Q) -> In (Some x) xs -> (x <= nansum xs)%Q.
Proof.
  induction xs as [|[y|] xs IH]; intros H Hx; simpl.
  - destruct Hx.
  - rewrite Qred_correct.
    assert (Hy : (0 <= y)%Q) by (apply H; left; reflexivity).
    assert (Hs : (0 <= nansum xs)%Q).
    { apply nansum_nonneg. intros z Hz. apply H. right. exact Hz. }
    destruct Hx as [[= ->]|Hx]; [lra|].
    assert (x <= nansum xs)%Q by (apply IH; [intros z Hz; apply H; right; exact Hz|exact Hx]).
    lra.
  - destruct Hx as [[=]|Hx]. apply IH; [|exact Hx].
    intros z Hz. apply H. right. exact Hz.
Qed.

Lemma pct_column_unit (n : nat) (xs : list num) (i : nat) (q : Q) :
  (forall x, In (Some x) xs -> (0 <= x)%Q) ->
  pct_column n xs !! i = Some (Num q) -> (0 <= q <= 1)%Q.
Proof.
  intros Hpos. unfold pct_column. destruct (truthy (nansum xs)) eqn:Ht.
  - apply truthy_true in Ht. unfold of_nums. rewrite !map_lookup.
    destruct (xs !! i) as [[x|]|] eqn:Hx; cbn [option_map]; [|discriminate|discriminate].
    rewrite (num_div_nonzero _ _ Ht). cbn [of_num]. intros [= <-].
    rewrite Qred_correct.
    assert (Hin : In (Some x) xs).
    { apply list_elem_of_In. eapply list_elem_of_lookup_2. exact Hx. }
    pose proof (Hpos x Hin) as Hx0.
    pose proof (nansum_ge xs x Hpos Hin) as Hle.
    pose proof (nansum_nonneg xs Hpos) as Hs.
    assert (Hs' : (0 < nansum xs)%Q) by lra.
    split.
    + apply Qle_shift_div_l; [exact Hs'|lra].
    + apply Qle_shift_div_r; [exact Hs'|lra].
  - intros Hi.
    assert (Hin : In (Num q) (repeat (Num 0) n)).
    { apply list_elem_of_In. eapply list_elem_of_lookup_2. exact Hi. }
    apply repeat_spec in Hin. injection Hin as ->. lra.
Qed.

(** X11.  When every count is non-negative, every percentage that
    lines 260-264 compute lies between 0 and 1. *)
Theorem percentages_within_unit_interval (st : state) (df : loc) (d : DataFrame)
    (value_cols : list string) :
  heap st !! df = Some d ->
  (forall col, In col value_cols ->
     exists xs, getcol d col = Ok (of_nums xs) /\ forall x, In (Some x) xs -> (0 <= x)%Q) ->
  List.NoDup (map pct_name value_cols) ->
  exists df_pct st' d_pct,
    compute_percentages df value_cols st = (Ok df_pct, st')
    /\ heap st' !! df_pct = Some d_pct
    /\ forall col, In col value_cols ->
         exists pct, getcol d_pct (pct_name col) = Ok pct
           /\ forall i q, pct !! i = Some (Num q) -> (0 <= q <= 1)%Q.
Proof.
  intros Hdf Hnum Hnd. destruct st as [h p]. simpl in Hdf.
  assert (Hnum' : forall col, In col value_cols -> exists xs, getcol d col = Ok (of_nums xs)).
  { intros col Hc. destruct (Hnum col Hc) as (xs & Hxs & _). exists xs. exact Hxs. }
  exists (length h + 0), {| heap := h ++ [fold_left (pct_step d) value_cols d]; page := p |},
    (fold_left (pct_step d) value_cols d).
  split; [apply compute_percentages_run; assumption|]. split.
  { simpl. rewrite lookup_app_r by lia. replace (length h + 0 - length h) with 0 by lia.
    reflexivity. }
  intros col Hc. destruct (Hnum col Hc) as (xs & Hxs & Hpos).
  exists (pct_column (nrows d) (column_nums d col)).
  split; [apply fold_pct_col; assumption|].
  rewrite (column_nums_numeric d col xs Hxs).
  intros i q. apply pct_column_unit. exact Hpos.
Qed.

(** *** Facts: missing columns *)

Lemma getcol_missing (d : DataFrame) (name : string) :
  has_column d name = false -> getcol d name = Raise (KeyError name).
Proof.
  intros H. destruct (getcol d name) as [s|e] eqn:E.
  - assert (Hc : has_column d name = true) by (apply has_column_getcol; eauto). congruence.
  - unfold getcol in *. destruct (assoc name (columns d)); [discriminate|symmetry; exact E].
Qed.

Lemma res_map_first_missing (d : DataFrame) (pre post : list string) (c : string) :
  (forall x, In x pre -> has_column d x = true) ->
  has_column d c = false ->
  res_map (getcol d) (pre ++ c :: post) = Raise (KeyError c).
Proof.
  intros Hpre Hc. induction pre as [|x pre IH]; simpl.
  - rewrite (getcol_missing d c Hc). reflexivity.
  - destruct (proj1 (has_column_getcol d x) (Hpre x (or_introl eq_refl))) as [s ->].
    simpl. rewrite IH by (intros y Hy; apply Hpre; right; exact Hy). reflexivity.
Qed.

Lemma contains_base (h ext : list DataFrame) (p : list widget) (l : loc) (d : DataFrame)
    (name : string) :
  h !! l = Some d ->
  contains l name {| heap := h ++ ext; page := p |}
  = (Ok (has_column d name), {| heap := h ++ ext; page := p |}).
Proof.
  intros H. unfold contains. rewrite bind_run, (deref_base _ _ _ _ _ H). reflexivity.
Qed.

(** X12.  [_melt] on a table without a [field_value] column raises
    [KeyError] for it, and on a table that lacks one of the value columns it
    raises a [KeyError] as well.  Either way nothing is drawn, the table
    passed in is as it was, and the only object allocated is the working
    copy. *)
Theorem melt_missing_column_raises (st : state) (df : loc) (d : DataFrame)
    (value_cols : list string) (value_name : string) :
  heap st !! df = Some d ->
  (has_column d "field_value" = false ->
     _melt df value_cols value_name st
     = (Raise (KeyError "field_value"), {| heap := heap st ++ [d]; page := page st |}))
  /\ (forall fv pre c post,
        getcol d "field_value" = Ok fv ->
        has_column d value_name = false ->
        value_cols = pre ++ c :: post ->
        (forall x, In x pre -> has_column d x = true) ->
        has_column d c = false ->
        exists key,
          _melt df value_cols value_name st
          = (Raise (KeyError key),
             {| heap := heap st ++ [setcol d "field_value" (_prepare fv)];
                page := page st |})).
Proof.
  intros Hdf. destruct st as [h p]. simpl in Hdf. cbn [heap page].
  rewrite (_melt_run h p df d value_cols value_name Hdf). split.
  - intros Hfv. rewrite (getcol_missing d "field_value" Hfv). reflexivity.
  - intros fv pre c post Hfv Hvn -> Hpre Hc. exists c. rewrite Hfv. cbv zeta.
    assert (Hhas : has_column d "field_value" = true) by (apply has_column_getcol; eauto).
    unfold melt. rewrite (setcol_has_column d "field_value" value_name _ Hhas), Hvn.
    rewrite getcol_setcol_eq. cbn [res_bind].
    rewrite res_map_first_missing; [reflexivity| |].
    + intros x Hx. rewrite (setcol_has_column d "field_value" x _ Hhas). apply Hpre. exact Hx.
    + rewrite (setcol_has_column d "field_value" c _ Hhas). exact Hc.
Qed.

(** X13.  [chart_counts] on a table (without an [cnt_ipeds] column) that
    lacks the new version's count column raises [KeyError] for that column
    while working out the order: no chart is drawn and no copy was made. *)
Theorem chart_counts_missing_new_count (st : state) (df : loc) (d : DataFrame) (title : string) :
  heap st !! df = Some d ->
  has_column d "cnt_ipeds" = false ->
  has_column d ("cnt_" +:+ NEW_A) = false ->
  chart_counts df title st = (Raise (KeyError ("cnt_" +:+ NEW_A)), st).
Proof.
  intros Hdf Hip Hnew. destruct st as [h p]. simpl in Hdf.
  rewrite <- (app_nil_r h). unfold chart_counts.
  rewrite bind_run, (contains_base _ _ _ _ _ _ Hdf), Hip. cbv beta iota zeta.
  rewrite bind_run. unfold _sort_by_new.
  rewrite bind_run, (contains_base _ _ _ _ _ _ Hdf), Hip. cbv beta iota.
  rewrite bind_run, (deref_base _ _ _ _ _ Hdf).
  rewrite bind_run, lift_run. unfold sort_values_desc.
  rewrite (getcol_missing d _ Hnew). reflexivity.
Qed.

Lemma totals_missing (h ext : list DataFrame) (p : list widget) (df : loc) (d : DataFrame)
    (pre post : list string) (c : string) :
  h !! df = Some d ->
  (forall col, In col pre -> exists xs, getcol d col = Ok (of_nums xs)) ->
  has_column d c = false ->
  comprehension (pre ++ c :: post) (fun col =>
      s <- getitem df col ;; xs <- lift (as_num s) ;; ret (col, nansum xs))
    {| heap := h ++ ext; page := p |}
  = (Raise (KeyError c), {| heap := h ++ ext; page := p |}).
Proof.
  intros Hdf Hpre Hc. induction pre as [|col pre IH]; cbn [app comprehension].
  - rewrite bind_run, bind_run, (getitem_base _ _ _ _ _ _ Hdf), (getcol_missing d c Hc).
    reflexivity.
  - destruct (Hpre col (or_introl eq_refl)) as [xs Hxs].
    rewrite bind_run, bind_run, (getitem_base _ _ _ _ _ _ Hdf), Hxs.
    rewrite bind_run, lift_run, as_num_of_nums, ret_run.
    rewrite bind_run, IH by (intros x Hx; apply Hpre; right; exact Hx).
    reflexivity.
Qed.

(** X14.  The percentages are computed totals first: when a value column is
    missing (the ones before it being numeric), lines 260-264 raise
    [KeyError] for it before the table is copied, so the store and the page
    are exactly as they were. *)
Theorem compute_percentages_missing_column (st : state) (df : loc) (d : DataFrame)
    (pre post : list string) (c : string) :
  heap st !! df = Some d ->
  (forall col, In col pre -> exists xs, getcol d col = Ok (of_nums xs)) ->
  has_column d c = false ->
  compute_percentages df (pre ++ c :: post) st = (Raise (KeyError c), st).
Proof.
  intros Hdf Hpre Hc. destruct st as [h p]. simpl in Hdf.
  rewrite <- (app_nil_r h). unfold compute_percentages.
  rewrite bind_run, (totals_missing h [] p df d pre post c Hdf Hpre Hc). reflexivity.
Qed.

(** *** Facts: orders *)

Lemma sorted_app_cross {A} (R : A -> A -> Prop) (l1 l2 : list A) (a b : A) :
  StronglySorted R (l1 ++ l2) -> In a l1 -> In b l2 -> R a b.
Proof.
  induction l1 as [|x l1 IH]; intros Hs Ha Hb; [destruct Ha|].
  simpl in Hs. apply StronglySorted_inv in Hs as [Hs Hx].
  destruct Ha as [<-|Ha].
  - rewrite List.Forall_forall in Hx. apply Hx. apply in_or_app. right. exact Hb.
  - apply IH; assumption.
Qed.

(** X15.  The top [n] really are the top: among the rows of a table
    ranked by a numeric column, no row that [head(n)] leaves out has a key
    that ranks before the key of a row that is kept (a missing key ranks
    after every number). *)
Theorem rank_top_n_keeps_largest (d : DataFrame) (sort_key : string) (n : nat)
    (items : list num) :
  SortKind argsort ->
  getcol d sort_key = Ok (of_nums items) ->
  exists order : list nat,
    Permutation order (seq 0 (length items))
    /\ rank_top_n sort_key n d = Ok (iloc d (take n order))
    /\ forall i j, In i (take n order) -> In j (drop n order) ->
         ranks_before (nth i items None) (nth j items None).
Proof.
  intros Hkind Hcol. exists (nargsort_desc items). split; [|split].
  - apply nargsort_desc_perm. exact Hkind.
  - unfold rank_top_n. rewrite (sort_values_desc_run d sort_key _ items Hcol). simpl.
    rewrite map_id, head_iloc. reflexivity.
  - intros i j Hi Hj.
    pose proof (nargsort_desc_sorted Hkind items) as Hs.
    rewrite <- (take_drop n (nargsort_desc items)), map_app in Hs.
    apply (sorted_app_cross _ _ _ _ _ Hs); apply in_map_iff; eauto.
Qed.

(** X16.  For a table without an [cnt_ipeds] column, [_sort_by_new]
    returns one label per row: the prepared [field_value] of the rows taken
    in descending order of the given numeric column, rows with a missing
    key last.  The store and the page are left as they were. *)
Theorem sort_by_new_by_count (st : state) (df : loc) (d : DataFrame) (new_col : string)
    (items : list num) (fv : Series) :
  SortKind argsort ->
  heap st !! df = Some d ->
  well_formed d ->
  has_column d "cnt_ipeds" = false ->
  getcol d new_col = Ok (of_nums items) ->
  getcol d "field_value" = Ok fv ->
  exists order : list nat,
    Permutation order (seq 0 (nrows d))
    /\ StronglySorted ranks_before (map (fun i => nth i items None) order)
    /\ _sort_by_new df new_col st
       = (Ok (map (fun i => Str (_prepare_scalar (nth i fv NA))) order), st).
Proof.
  intros Hkind Hdf Hwf Hip Hcol Hfv. destruct st as [h p]. simpl in Hdf.
  assert (Hlen : length items = nrows d).
  { rewrite <- (getcol_length d new_col _ Hwf Hcol). unfold of_nums. rewrite length_map.
    reflexivity. }
  exists (nargsort_desc items). split; [|split].
  - rewrite <- Hlen. apply nargsort_desc_perm. exact Hkind.
  - apply nargsort_desc_sorted. exact Hkind.
  - rewrite <- (app_nil_r h). unfold _sort_by_new.
    rewrite bind_run, (contains_base _ _ _ _ _ _ Hdf), Hip. cbv beta iota.
    rewrite bind_run, (deref_base _ _ _ _ _ Hdf).
    rewrite bind_run, lift_run, (sort_values_desc_run d new_col _ items Hcol).
    rewrite bind_run, lift_run, getcol_iloc, Hfv, ret_run.
    unfold take_rows. rewrite map_id, map_map. reflexivity.
Qed.

Lemma filter_sublist {A} (f : A -> bool) (l : list A) : sublist (List.filter f l) l.
Proof.
  induction l as [|x l IH]; simpl; [constructor|].
  destruct (f x); [apply sublist_skip|apply sublist_cons]; exact IH.
Qed.

Lemma mem_str_In (x : string) (xs : list string) : mem_str x xs = true <-> In x xs.
Proof. apply existsb_eqb_In. Qed.

Lemma _DEGREE_ORDER_nodup : List.NoDup _DEGREE_ORDER.
Proof.
  unfold _DEGREE_ORDER.
  repeat (constructor; [simpl; intros H; repeat destruct H as [H|H]; discriminate H || exact H|]).
  constructor.
Qed.

(** X17.  For a table with an [cnt_ipeds] column, [_sort_by_new] ignores
    the counts: the order is the degree labels that occur in the table, each
    once and in the canonical degree order, followed by the table's other
    prepared labels in row order.  A label is in the order exactly when it
    is a label of the table. *)
Theorem sort_by_new_degree_order (st : state) (df : loc) (d : DataFrame) (new_col : string)
    (fv : Series) :
  heap st !! df = Some d ->
  has_column d "cnt_ipeds" = true ->
  getcol d "field_value" = Ok fv ->
  exists degrees others : list string,
    _sort_by_new df new_col st = (Ok (map Str (degrees ++ others)), st)
    /\ sublist degrees _DEGREE_ORDER
    /\ List.NoDup degrees
    /\ (forall v, In v degrees <-> In v _DEGREE_ORDER /\ In v (map _prepare_scalar fv))
    /\ sublist others (map _prepare_scalar fv)
    /\ (forall v, In v others <-> In v (map _prepare_scalar fv) /\ ~ In v _DEGREE_ORDER)
    /\ (forall v, In v (degrees ++ others) <-> In v (map _prepare_scalar fv)).
Proof.
  intros Hdf Hip Hfv. destruct st as [h p]. simpl in Hdf.
  set (seen := map _prepare_scalar fv).
  exists (List.filter (fun d => mem_str d seen) _DEGREE_ORDER),
    (List.filter (fun v => negb (mem_str v _DEGREE_ORDER)) seen).
  assert (Hdeg : forall v, In v (List.filter (fun d => mem_str d seen) _DEGREE_ORDER)
                           <-> In v _DEGREE_ORDER /\ In v seen).
  { intros v. rewrite filter_In, mem_str_In. reflexivity. }
  assert (Hoth : forall v, In v (List.filter (fun v => negb (mem_str v _DEGREE_ORDER)) seen)
                           <-> In v seen /\ ~ In v _DEGREE_ORDER).
  { intros v. rewrite filter_In, negb_true_iff, <- not_true_iff_false, mem_str_In. reflexivity. }
  split; [|split; [|split; [|split; [|split; [|split]]]]].
  - rewrite <- (app_nil_r h). unfold _sort_by_new.
    rewrite bind_run, (contains_base _ _ _ _ _ _ Hdf), Hip. cbv beta iota.
    rewrite bind_run, (getitem_base _ _ _ _ _ _ Hdf), Hfv. reflexivity.
  - apply filter_sublist.
  - apply List.NoDup_filter, _DEGREE_ORDER_nodup.
  - exact Hdeg.
  - apply filter_sublist.
  - exact Hoth.
  - intros v. rewrite in_app_iff, Hdeg, Hoth.
    destruct (in_dec string_dec v _DEGREE_ORDER); tauto.
Qed.

(** *** Facts: what the grouped charts draw *)

Lemma contains_run (st : state) (l : loc) (d : DataFrame) (name : string) :
  heap st !! l = Some d -> contains l name st = (Ok (has_column d name), st).
Proof.
  intros H. destruct st as [h p]. simpl in H. rewrite <- (app_nil_r h).
  apply contains_base. exact H.
Qed.

(** [_sort_by_new] never touches the store or the page. *)
Lemma _sort_by_new_state (st : state) (df : loc) (new_col : string) :
  snd (_sort_by_new df new_col st) = st.
Proof.
  cbv beta iota zeta delta [_sort_by_new bind contains getitem deref lift ret].
  destruct (heap st !! df) as [d|] eqn:E; [|reflexivity]. cbv beta iota.
  destruct (has_column d "cnt_ipeds"); cbv beta iota; rewrite ?E; cbv beta iota.
  - destruct (getcol d "field_value"); reflexivity.
  - destruct (sort_values_desc new_col (fun x => x) d) as [sorted|]; [|reflexivity].
    destruct (getcol sorted "field_value"); reflexivity.
Qed.

Lemma _sort_by_new_ok (st : state) (df : loc) (d : DataFrame) (new_col : string)
    (fv : Series) :
  heap st !! df = Some d ->
  getcol d "field_value" = Ok fv ->
  (has_column d "cnt_ipeds" = true \/ exists items, getcol d new_col = Ok (of_nums items)) ->
  exists order, _sort_by_new df new_col st = (Ok order, st).
Proof.
  intros Hdf Hfv Hcase.
  pose proof (_sort_by_new_state st df new_col) as Hst.
  enough (Hok : exists order, fst (_sort_by_new df new_col st) = Ok order).
  { destruct Hok as [order Hok]. exists order.
    destruct (_sort_by_new df new_col st) as [r st']. simpl in *. congruence. }
  unfold _sort_by_new. rewrite bind_run, (contains_run st df d _ Hdf).
  destruct (has_column d "cnt_ipeds") eqn:Hip.
  - destruct st as [h p]. simpl in Hdf. rewrite <- (app_nil_r h).
    rewrite bind_run, (getitem_base _ _ _ _ _ _ Hdf), Hfv. eexists. reflexivity.
  - destruct Hcase as [Hc|[items Hitems]]; [discriminate|].
    destruct st as [h p]. simpl in Hdf. rewrite <- (app_nil_r h).
    rewrite bind_run, (deref_base _ _ _ _ _ Hdf).
    rewrite bind_run, lift_run, (sort_values_desc_run d new_col _ items Hitems).
    rewrite bind_run, lift_run, getcol_iloc, Hfv. eexists. reflexivity.
Qed.

Lemma map_dict_labels (mapping : list (string * string)) (N : nat)
    (cols labels : list string) :
  Forall2 (fun col l => assoc col mapping = Some l) cols labels ->
  map_dict mapping (flat_map (fun v => repeat (Str v) N) cols)
  = flat_map (fun l => repeat (Str l) N) labels.
Proof.
  induction 1 as [|col l cols labels Hl _ IH]; [reflexivity|].
  cbn [flat_map]. unfold map_dict in *. rewrite map_app, IH, map_repeat, Hl. reflexivity.
Qed.

Lemma res_map_getcol_setcol (d : DataFrame) (name : string) (s : Series) (cols : list string) :
  ~ In name cols -> res_map (getcol (setcol d name s)) cols = res_map (getcol d) cols.
Proof.
  induction cols as [|c cols IH]; intros Hnot; [reflexivity|].
  cbn [res_map]. rewrite getcol_setcol_ne by (intros E; apply Hnot; left; symmetry; exact E).
  rewrite IH by (intros H; apply Hnot; right; exact H). reflexivity.
Qed.

Lemma getcol_long_version (n : nat) (F V X : Series) (value_name : string) :
  getcol {| nrows := n; columns := [("field_value", F); ("version", V); (value_name, X)] |}
    "version" = Ok V.
Proof. reflexivity. Qed.

Lemma setcol_long_version (n : nat) (F V V' X : Series) (value_name : string) :
  setcol {| nrows := n; columns := [("field_value", F); ("version", V); (value_name, X)] |}
    "version" V'
  = {| nrows := n; columns := [("field_value", F); ("version", V'); (value_name, X)] |}.
Proof. reflexivity. Qed.

Lemma count_columns_nodup (ipeds : bool) :
  List.NoDup (count_columns ipeds) /\ ~ In "field_value" (count_columns ipeds).
Proof.
  destruct ipeds; vm_compute; split;
    try (intros H; repeat (destruct H as [H|H]; [discriminate|]); exact H);
    repeat constructor; simpl; intros H;
    repeat (destruct H as [H|H]; [discriminate|]); exact H.
Qed.

Lemma count_columns_labels (ipeds : bool) :
  Forall2 (fun col l => assoc col [ ("cnt_" +:+ BASE_A, _label BASE_VERSION);
                                    ("cnt_" +:+ NEW_A, _label NEW_VERSION);
                                    ("cnt_ipeds", "ipeds") ] = Some l)
          (count_columns ipeds) (version_labels ipeds).
Proof. destruct ipeds; repeat constructor. Qed.

Lemma chart_counts_run (h : list DataFrame) (p : list widget) (df : loc) (d : DataFrame)
    (title : string) (fv : Series) (order : list cell) :
  h !! df = Some d ->
  getcol d "field_value" = Ok fv ->
  has_column d "count" = false ->
  (forall c, In c (count_columns (has_column d "cnt_ipeds")) -> has_column d c = true) ->
  _sort_by_new df ("cnt_" +:+ NEW_A) {| heap := h; page := p |}
    = (Ok order, {| heap := h; page := p |}) ->
  exists values,
    res_map (getcol d) (count_columns (has_column d "cnt_ipeds")) = Ok values
    /\ chart_counts df title {| heap := h; page := p |}
       = (Ok tt,
          let long := long_table (nrows d) (_prepare fv)
                        (version_labels (has_column d "cnt_ipeds")) "count" values in
          {| heap := h ++ [setcol d "field_value" (_prepare fv); long];
             page := p ++ [AltairChart
                             {| ch_title := title; ch_data := long;
                                ch_y := "field_value"; ch_y_sort := order; ch_x := "count";
                                ch_version_order := version_order_of (has_column d "cnt_ipeds");
                                ch_colors := take (length (version_order_of
                                                             (has_column d "cnt_ipeds")))
                                               FIVE_COLOR_SCALE;
                                ch_height := 600 |}] |}).
Proof.
  intros Hdf Hfv Hcount Hall Hsort.
  set (ipeds := has_column d "cnt_ipeds") in *.
  set (d' := setcol d "field_value" (_prepare fv)).
  assert (Hhas : has_column d "field_value" = true) by (apply has_column_getcol; eauto).
  destruct (count_columns_nodup ipeds) as [Hnd Hnotin].
  destruct (melt_ok d' "field_value" "version" "count" (count_columns ipeds) (_prepare fv))
    as (values & Hvals & Hmelt).
  { apply getcol_setcol_eq. }
  { unfold d'. rewrite (setcol_has_column d _ _ _ Hhas). exact Hcount. }
  { exact Hnd. }
  { exact Hnotin. }
  { intros c Hc. unfold d'. rewrite (setcol_has_column d _ _ _ Hhas). apply Hall. exact Hc. }
  exists values. split.
  { rewrite <- Hvals. unfold d'. symmetry. apply res_map_getcol_setcol. exact Hnotin. }
  unfold chart_counts.
  rewrite bind_run, (contains_run {| heap := h; page := p |} df d _ Hdf).
  fold ipeds. cbv beta iota zeta.
  rewrite bind_run, Hsort. cbv beta iota.
  rewrite bind_run, (_melt_run h p df d _ _ Hdf), Hfv. cbv zeta. fold d'.
  rewrite Hmelt. cbv beta iota.
  rewrite bind_run. erewrite (getitem_ext h _ p 1 _ "version"); [|reflexivity].
  rewrite getcol_long_version.
  rewrite bind_run. erewrite (setitem_ext h _ p 1 _ "version"); [|reflexivity].
  change (<[1:=?x]> [?a; ?b]) with [a; x].
  rewrite bind_run, deref_ext. change ([?a; ?b] !! 1) with (Some b). cbv beta iota.
  unfold altair_chart, emit. cbn [heap page].
  rewrite setcol_long_version, (map_dict_labels _ _ _ _ (count_columns_labels ipeds)).
  unfold long_table, d'. cbn [nrows].
  rewrite (Forall2_length _ _ _ (count_columns_labels ipeds)). reflexivity.
Qed.

(** X18.  On a comparison table with a [field_value] column, both count
    columns (the new one numeric) and no [count] column, [chart_counts]
    returns normally and draws exactly one chart.  Its data is the long
    table with one block of rows per count column, in column order: the
    prepared categories, the version label of the column, and the column's
    counts.  Every label of the data is in the chart's colour domain, and
    there are as many colours as versions. *)
Theorem chart_counts_draws_long_table (st : state) (df : loc) (d : DataFrame)
    (title : string) (fv : Series) (items : list num) :
  heap st !! df = Some d ->
  getcol d "field_value" = Ok fv ->
  getcol d ("cnt_" +:+ NEW_A) = Ok (of_nums items) ->
  has_column d ("cnt_" +:+ BASE_A) = true ->
  has_column d "count" = false ->
  exists c values,
    fst (chart_counts df title st) = Ok tt
    /\ page (snd (chart_counts df title st)) = page st ++ [AltairChart c]
    /\ res_map (getcol d) (count_columns (has_column d "cnt_ipeds")) = Ok values
    /\ ch_data c = long_table (nrows d) (_prepare fv)
                     (version_labels (has_column d "cnt_ipeds")) "count" values
    /\ ch_title c = title /\ ch_y c = "field_value" /\ ch_x c = "count"
    /\ ch_version_order c = version_order_of (has_column d "cnt_ipeds")
    /\ length (ch_colors c) = length (ch_version_order c)
    /\ forall l, In l (version_labels (has_column d "cnt_ipeds")) -> In l (ch_version_order c).
Proof.
  intros Hdf Hfv Hnew Hbase Hcount. destruct st as [h p]. simpl in Hdf.
  destruct (_sort_by_new_ok {| heap := h; page := p |} df d ("cnt_" +:+ NEW_A) fv Hdf Hfv)
    as [order Hsort].
  { right. exists items. exact Hnew. }
  assert (Hall : forall c, In c (count_columns (has_column d "cnt_ipeds")) ->
                           has_column d c = true).
  { intros c Hc. unfold count_columns in Hc. apply in_app_iff in Hc as [[<-|[<-|[]]]|Hc].
    - exact Hbase.
    - apply has_column_getcol. eauto.
    - destruct (has_column d "cnt_ipeds") eqn:E; [|destruct Hc].
      destruct Hc as [<-|[]]. exact E. }
  destruct (chart_counts_run h p df d title fv order Hdf Hfv Hcount Hall Hsort)
    as (values & Hvals & Hrun).
  rewrite Hrun. cbv zeta. cbn [fst snd page].
  eexists _, values. split; [reflexivity|]. split; [reflexivity|].
  split; [exact Hvals|]. cbn [ch_data ch_title ch_y ch_x ch_version_order ch_colors].
  repeat (split; [reflexivity|]). split.
  - destruct (has_column d "cnt_ipeds"); reflexivity.
  - destruct (has_column d "cnt_ipeds"); simpl; tauto.
Qed.

Lemma res_map_getcol_map (d : DataFrame) (g : string -> string) (f : string -> Series)
    (cols : list string) :
  (forall col, In col cols -> getcol d (g col) = Ok (f col)) ->
  res_map (getcol d) (map g cols) = Ok (map f cols).
Proof.
  induction cols as [|c cols IH]; intros H; [reflexivity|].
  cbn [map res_map]. rewrite (H c (or_introl eq_refl)). cbn [res_bind].
  rewrite IH by (intros x Hx; apply H; right; exact Hx). reflexivity.
Qed.

Lemma pct_columns_labels (ipeds : bool) :
  Forall2 (fun col l => assoc col [ ("pct_" +:+ BASE_A, _label BASE_VERSION);
                                    ("pct_" +:+ NEW_A, _label NEW_VERSION);
                                    ("pct_ipeds", "ipeds") ] = Some l)
          (map pct_name (count_columns ipeds)) (version_labels ipeds).
Proof. destruct ipeds; repeat constructor. Qed.

Lemma pct_not_a_pct_name (ipeds : bool) : ~ In "pct" (map pct_name (count_columns ipeds)).
Proof.
  destruct ipeds; vm_compute; intros H;
    repeat (destruct H as [H|H]; [discriminate|]); exact H.
Qed.

Lemma has_column_false_getcol (d : DataFrame) (name : string) :
  has_column d name = false <-> getcol d name = Raise (KeyError name).
Proof.
  split; [apply getcol_missing|]. intros H.
  destruct (has_column d name) eqn:E; [|reflexivity].
  apply has_column_getcol in E as [s Hs]. congruence.
Qed.

Lemma chart_percentages_run (h : list DataFrame) (p : list widget) (df : loc) (d : DataFrame)
    (title : string) (fv : Series) :
  h !! df = Some d ->
  getcol d "field_value" = Ok fv ->
  has_column d "pct" = false ->
  (forall col, In col (count_columns (has_column d "cnt_ipeds")) ->
     exists xs, getcol d col = Ok (of_nums xs)) ->
  exists order,
    chart_percentages df title {| heap := h; page := p |}
    = (Ok tt,
       let cols := count_columns (has_column d "cnt_ipeds") in
       let d_pct := fold_left (pct_step d) cols d in
       let long := long_table (nrows d) (_prepare fv)
                     (version_labels (has_column d "cnt_ipeds")) "pct"
                     (map (fun col => pct_column (nrows d) (column_nums d col)) cols) in
       {| heap := h ++ [d_pct; setcol d_pct "field_value" (_prepare fv); long];
          page := p ++ [AltairChart
                          {| ch_title := title; ch_data := long;
                             ch_y := "field_value"; ch_y_sort := order; ch_x := "pct";
                             ch_version_order := version_order_of (has_column d "cnt_ipeds");
                             ch_colors := take (length (version_order_of
                                                          (has_column d "cnt_ipeds")))
                                            FIVE_COLOR_SCALE;
                             ch_height := 600 |}] |}).
Proof.
  intros Hdf Hfv Hpct Hnum.
  set (ipeds := has_column d "cnt_ipeds") in *.
  set (cols := count_columns ipeds) in *.
  set (d_pct := fold_left (pct_step d) cols d).
  set (d' := setcol d_pct "field_value" (_prepare fv)).
  destruct (count_columns_pct_names ipeds) as [Hnd Hnotin]. fold cols in Hnd, Hnotin.
  assert (Hfv' : getcol d_pct "field_value" = Ok fv).
  { unfold d_pct. rewrite fold_pct_other by exact Hnotin. exact Hfv. }
  assert (Hhas : has_column d_pct "field_value" = true) by (apply has_column_getcol; eauto).
  assert (Hcol : forall col, In col cols ->
                   getcol d' (pct_name col) = Ok (pct_column (nrows d) (column_nums d col))).
  { intros col Hc. unfold d'. rewrite getcol_setcol_ne.
    - apply fold_pct_col; assumption.
    - intros E. apply Hnotin. rewrite E. apply in_map. exact Hc. }
  destruct (melt_ok d' "field_value" "version" "pct" (map pct_name cols) (_prepare fv))
    as (values & Hvals & Hmelt).
  { apply getcol_setcol_eq. }
  { unfold d'. rewrite (setcol_has_column d_pct _ _ _ Hhas).
    apply has_column_false_getcol. unfold d_pct.
    rewrite fold_pct_other by apply pct_not_a_pct_name.
    apply has_column_false_getcol. exact Hpct. }
  { exact Hnd. }
  { exact Hnotin. }
  { intros c Hc. apply in_map_iff in Hc as (col & <- & Hc).
    apply has_column_getcol. eexists. apply Hcol. exact Hc. }
  rewrite (res_map_getcol_map d' pct_name _ cols Hcol) in Hvals. injection Hvals as <-.
  assert (Hdf' : (h ++ [d_pct]) !! df = Some d) by (apply lookup_app_l_Some; exact Hdf).
  destruct (_sort_by_new_ok {| heap := h ++ [d_pct]; page := p |} df d ("cnt_" +:+ NEW_A) fv
              Hdf' Hfv) as [order Hsort].
  { right. apply Hnum. unfold cols, count_columns. apply in_app_iff. left. right. left.
    reflexivity. }
  exists order. unfold chart_percentages.
  rewrite bind_run, (contains_run {| heap := h; page := p |} df d _ Hdf).
  fold ipeds. cbv beta iota zeta. fold cols.
  rewrite bind_run, (compute_percentages_run h p df d cols Hdf Hnum). fold d_pct.
  rewrite bind_run, Hsort. cbv beta iota.
  assert (Hpct' : (h ++ [d_pct]) !! (length h + 0) = Some d_pct).
  { rewrite lookup_app_r by lia. replace (length h + 0 - length h) with 0 by lia. reflexivity. }
  rewrite bind_run, (_melt_run (h ++ [d_pct]) p (length h + 0) d_pct _ _ Hpct'), Hfv'.
  cbv zeta. fold d'. rewrite Hmelt. cbv beta iota.
  rewrite bind_run. erewrite (getitem_ext (h ++ [d_pct]) _ p 1 _ "version"); [|reflexivity].
  rewrite getcol_long_version.
  rewrite bind_run. erewrite (setitem_ext (h ++ [d_pct]) _ p 1 _ "version"); [|reflexivity].
  change (<[1:=?x]> [?a; ?b]) with [a; x].
  rewrite bind_run, deref_ext. change ([?a; ?b] !! 1) with (Some b). cbv beta iota.
  unfold altair_chart, emit. cbn [heap page].
  rewrite setcol_long_version, (map_dict_labels _ _ _ _ (pct_columns_labels ipeds)).
  unfold long_table, d'. cbn [nrows setcol]. unfold d_pct. rewrite !fold_pct_nrows.
  rewrite <- (Forall2_length _ _ _ (pct_columns_labels ipeds)), <- app_assoc.
  reflexivity.
Qed.

(** X19.  On a comparison table with a [field_value] column, numeric count
    columns and no [pct] column, [chart_percentages] returns normally and
    draws exactly one chart.  Its data is the long table with one block of
    rows per count column: the prepared categories, the version label, and
    the column's counts each divided by the column total (zeros when the
    total is zero).  Every label of the data is in the colour domain. *)
Theorem chart_percentages_draws_long_table (st : state) (df : loc) (d : DataFrame)
    (title : string) (fv : Series) :
  heap st !! df = Some d ->
  getcol d "field_value" = Ok fv ->
  has_column d "pct" = false ->
  (forall col, In col (count_columns (has_column d "cnt_ipeds")) ->
     exists xs, getcol d col = Ok (of_nums xs)) ->
  exists c,
    fst (chart_percentages df title st) = Ok tt
    /\ page (snd (chart_percentages df title st)) = page st ++ [AltairChart c]
    /\ ch_data c = long_table (nrows d) (_prepare fv)
                     (version_labels (has_column d "cnt_ipeds")) "pct"
                     (map (fun col => pct_column (nrows d) (column_nums d col))
                          (count_columns (has_column d "cnt_ipeds")))
    /\ ch_title c = title /\ ch_y c = "field_value" /\ ch_x c = "pct"
    /\ ch_version_order c = version_order_of (has_column d "cnt_ipeds")
    /\ length (ch_colors c) = length (ch_version_order c)
    /\ forall l, In l (version_labels (has_column d "cnt_ipeds")) -> In l (ch_version_order c).
Proof.
  intros Hdf Hfv Hpct Hnum. destruct st as [h p]. simpl in Hdf.
  destruct (chart_percentages_run h p df d title fv Hdf Hfv Hpct Hnum) as (order & Hrun).
  rewrite Hrun. cbv zeta. cbn [fst snd page].
  eexists. split; [reflexivity|]. split; [reflexivity|].
  cbn [ch_data ch_title ch_y ch_x ch_version_order ch_colors].
  repeat (split; [reflexivity|]). split.
  - destruct (has_column d "cnt_ipeds"); reflexivity.
  - destruct (has_column d "cnt_ipeds"); simpl; tauto.
Qed.

(** *** Facts: the change chart *)

Lemma chart_pct_change_run (h : list DataFrame) (p : list widget) (df : loc) (d : DataFrame)
    (title : string) (fv : Series) (items : list num) :
  h !! df = Some d ->
  getcol d "field_value" = Ok fv ->
  getcol d "pct_change" = Ok (of_nums items) ->
  chart_pct_change df title {| heap := h; page := p |}
  = (Ok tt,
     let d' := setcol d "field_value" (_prepare fv) in
     {| heap := h ++ [d'];
        page := p ++ [AltairChart
                        {| ch_title := title; ch_data := d';
                           ch_y := "field_value";
                           ch_y_sort := take_rows (nargsort_desc (map num_abs items))
                                          (_prepare fv);
                           ch_x := "pct_change";
                           ch_version_order := []; ch_colors := ["#03497A"; "#C22036"];
                           ch_height := 600 |}] |}).
Proof.
  intros Hdf Hfv Hpc.
  set (d' := setcol d "field_value" (_prepare fv)).
  assert (Hpc' : getcol d' "pct_change" = Ok (of_nums items)).
  { unfold d'. rewrite getcol_setcol_ne by discriminate. exact Hpc. }
  unfold chart_pct_change. rewrite <- (app_nil_r h) at 1.
  rewrite bind_run, (copy_base _ _ _ _ _ Hdf). simpl length. simpl app.
  rewrite bind_run, (getitem_ext h [d] p 0 d) by reflexivity. rewrite Hfv.
  rewrite bind_run, (setitem_ext h [d] p 0 d) by reflexivity. simpl (<[_:=_]> _).
  rewrite bind_run, deref_ext. simpl (_ !! _). cbv beta iota. fold d'.
  rewrite bind_run, lift_run, (sort_values_desc_run d' "pct_change" num_abs items Hpc').
  rewrite bind_run, lift_run, getcol_iloc.
  unfold d' at 1. rewrite getcol_setcol_eq.
  unfold altair_chart, emit. cbn [heap page]. reflexivity.
Qed.

(** X20.  [chart_pct_change] draws one chart of the table itself, with
    [field_value] prepared and nothing else changed; the vertical order it
    passes lists the prepared label of every row once, by descending
    absolute percent change (rows without one last).  On a table without a
    [pct_change] column it raises [KeyError] and draws nothing. *)
Theorem chart_pct_change_order (st : state) (df : loc) (d : DataFrame) (title : string)
    (fv : Series) :
  SortKind argsort ->
  heap st !! df = Some d ->
  well_formed d ->
  getcol d "field_value" = Ok fv ->
  (forall items, getcol d "pct_change" = Ok (of_nums items) ->
     exists c order,
       fst (chart_pct_change df title st) = Ok tt
       /\ page (snd (chart_pct_change df title st)) = page st ++ [AltairChart c]
       /\ ch_data c = setcol d "field_value" (_prepare fv)
       /\ Permutation order (seq 0 (nrows d))
       /\ StronglySorted ranks_before (map (fun i => num_abs (nth i items None)) order)
       /\ ch_y_sort c = map (fun i => Str (_prepare_scalar (nth i fv NA))) order)
  /\ (has_column d "pct_change" = false ->
        fst (chart_pct_change df title st) = Raise (KeyError "pct_change")
        /\ page (snd (chart_pct_change df title st)) = page st).
Proof.
  intros Hkind Hdf Hwf Hfv. destruct st as [h p]. simpl in Hdf. split.
  - intros items Hpc.
    assert (Hlen : length items = nrows d).
    { rewrite <- (getcol_length d "pct_change" _ Hwf Hpc). unfold of_nums.
      rewrite length_map. reflexivity. }
    assert (Hlenfv : length fv = nrows d) by (apply (getcol_length d "field_value"); assumption).
    pose proof (nargsort_desc_perm Hkind (map num_abs items)) as Hperm.
    rewrite length_map, Hlen in Hperm.
    rewrite (chart_pct_change_run h p df d title fv items Hdf Hfv Hpc).
    cbv zeta. cbn [fst snd page].
    eexists _, (nargsort_desc (map num_abs items)).
    split; [reflexivity|]. split; [reflexivity|]. split; [reflexivity|].
    split; [exact Hperm|]. split.
    + pose proof (nargsort_desc_sorted Hkind (map num_abs items)) as Hs.
      erewrite map_ext; [exact Hs|]. intros i. cbv beta.
      change None with (num_abs None) at 2. rewrite map_nth. reflexivity.
    + cbn [ch_y_sort]. unfold take_rows, _prepare. apply map_ext_in. intros i Hi.
      assert (Hi' : i < length fv).
      { rewrite Hlenfv. apply (Permutation_in _ Hperm) in Hi. apply in_seq in Hi. lia. }
      rewrite (nth_indep _ NA (Str (_prepare_scalar NA))) by (rewrite length_map; exact Hi').
      rewrite (map_nth (fun c => Str (_prepare_scalar c))). reflexivity.
  - intros Hmiss. unfold chart_pct_change. rewrite <- (app_nil_r h) at 1 2.
    rewrite bind_run, (copy_base _ _ _ _ _ Hdf). simpl length. simpl app.
    rewrite bind_run, (getitem_ext h [d] p 0 d) by reflexivity. rewrite Hfv.
    rewrite bind_run, (setitem_ext h [d] p 0 d) by reflexivity. simpl (<[_:=_]> _).
    rewrite bind_run, deref_ext. simpl (_ !! _). cbv beta iota.
    rewrite bind_run, lift_run. unfold sort_values_desc.
    rewrite getcol_setcol_ne by discriminate.
    rewrite (getcol_missing d "pct_change" Hmiss). split; reflexivity.
Qed.

(** *** Facts: the sections of the page *)

Lemma post_bind {A B} (P : B -> state -> Prop) (m : M A) (k : A -> M B) :
  (forall x, post_of P (k x)) -> post_of P (bind m k).
Proof.
  intros H st b. rewrite bind_run. destruct (m st) as [[x|e] st1]; [apply H|discriminate].
Qed.

Lemma post_ret {A} (P : A -> state -> Prop) (a : A) :
  (forall st, P a st) -> post_of P (ret a).
Proof. intros H st b [= <-]. apply H. Qed.

(** When the comparison part of a field ends the loop turn early, the
    last thing on the page is the divider it drew. *)
Lemma comparison_charts_continue (df : loc) :
  post_of (fun continued st => continued = true -> last (page st) = Some Divider)
          (comparison_charts df).
Proof.
  unfold comparison_charts. do 4 (apply post_bind; intros ?).
  match goal with |- context [is_empty ?d] => destruct (is_empty d) end.
  - intros st a _ _. cbn. apply last_snoc.
  - do 11 (apply post_bind; intros ?). apply post_ret. intros st [=].
Qed.

Lemma handler_run (what : string) (e : exn) (info : string) (st : state) :
  (emit (Error what e) ;; emit (Info info)) st
  = (Ok tt, {| heap := heap st; page := (page st ++ [Error what e]) ++ [Info info] |}).
Proof. reflexivity. Qed.

Lemma then_divider (m : M unit) (st : state) :
  (exists st', m st = (Ok tt, st')) ->
  fst ((m ;; emit Divider) st) = Ok tt
  /\ last (page (snd ((m ;; emit Divider) st))) = Some Divider.
Proof.
  intros [st' H]. rewrite bind_run, H. unfold emit. cbn [fst snd page].
  split; [reflexivity|apply last_snoc].
Qed.

Lemma try_except_total (body : M unit) (what info : string) (st : state) :
  exists st',
    try_except body (fun e => emit (Error what e) ;; emit (Info info)) st = (Ok tt, st').
Proof.
  unfold try_except. destruct (body st) as [[[]|e] st1].
  - eexists. reflexivity.
  - rewrite handler_run. eexists. reflexivity.
Qed.

(** X21.  None of the three data sections of the page lets an exception
    out: whatever the query returned (a table of any shape, or an
    exception), the comparison section of a field, the roles benchmark
    section and the employer industry section each return normally, and the
    last thing each puts on the page is a divider. *)
Theorem sections_never_raise (query : res DataFrame) (expected_table : string) (st : state) :
  (fst (comparison_section query expected_table st) = Ok tt
   /\ last (page (snd (comparison_section query expected_table st))) = Some Divider)
  /\ (fst (roles_section query expected_table st) = Ok tt
      /\ last (page (snd (roles_section query expected_table st))) = Some Divider)
  /\ (fst (employers_section query expected_table st) = Ok tt
      /\ last (page (snd (employers_section query expected_table st))) = Some Divider).
Proof.
  split; [|split].
  - unfold comparison_section. rewrite bind_run. unfold try_except.
    match goal with |- context [match ?b st with _ => _ end] => set (body := b) end.
    assert (Hpost : post_of (fun continued st => continued = true ->
                                                  last (page st) = Some Divider) body).
    { unfold body. do 2 (apply post_bind; intros ?). apply comparison_charts_continue. }
    specialize (Hpost st). destruct (body st) as [[continued|e] st1].
    + destruct continued; cbn [fst snd].
      * split; [reflexivity|]. apply (Hpost true); reflexivity.
      * split; [reflexivity|]. unfold emit. cbn. apply last_snoc.
    + cbn. split; [reflexivity|]. apply last_snoc.
  - unfold roles_section. apply then_divider. apply try_except_total.
  - unfold employers_section. apply then_divider. apply try_except_total.
Qed.

Lemma deref_run (st : state) (l : loc) (d : DataFrame) :
  heap st !! l = Some d -> deref l st = (Ok d, st).
Proof. intros H. unfold deref. rewrite H. reflexivity. Qed.

Lemma setitem_run (st : state) (l : loc) (d : DataFrame) (name : string) (s : Series) :
  heap st !! l = Some d ->
  setitem l name s st
  = (Ok tt, {| heap := <[l := setcol d name s]> (heap st); page := page st |}).
Proof. intros H. unfold setitem. rewrite bind_run, (deref_run st l d H). reflexivity. Qed.

Lemma is_empty_lower_columns (d : DataFrame) : is_empty (lower_columns d) = is_empty d.
Proof. unfold is_empty, lower_columns. simpl. rewrite length_map. reflexivity. Qed.

Lemma set_lower_columns_ok (d : DataFrame) :
  columns d <> [] -> set_lower_columns d = Ok (lower_columns d).
Proof. unfold set_lower_columns. destruct (columns d); [congruence|reflexivity]. Qed.

Lemma not_empty_columns (d : DataFrame) : is_empty (lower_columns d) = false -> columns d <> [].
Proof.
  rewrite is_empty_lower_columns. unfold is_empty. intros H E. rewrite E in H.
  simpl in H. rewrite orb_true_r in H. discriminate.
Qed.

(** Lines 483-488: the column names are lower-cased in place, and an
    empty result ends the turn with a note and a divider. *)
Lemma lowered_run {A} (st : state) (df : loc) (d : DataFrame) (k : DataFrame -> M A) :
  heap st !! df = Some d ->
  columns d <> [] ->
  (d1 <- deref df ;; lowered <- lift (set_lower_columns d1) ;; store df lowered ;;
   d2 <- deref df ;; k d2) st
  = k (lower_columns d) {| heap := <[df := lower_columns d]> (heap st); page := page st |}.
Proof.
  intros H Hcols. rewrite bind_run, (deref_run st df d H).
  rewrite bind_run, lift_run, (set_lower_columns_ok d Hcols).
  rewrite bind_run. unfold store at 1. cbv beta iota.
  rewrite bind_run, (deref_run _ df (lower_columns d)); [reflexivity|].
  cbn [heap]. apply list_lookup_insert_eq. apply (lookup_lt_Some _ _ _ H).
Qed.

Lemma loaded_run {A} (h : list DataFrame) (p : list widget) (d : DataFrame)
    (k : loc -> DataFrame -> M A) :
  columns d <> [] ->
  (d0 <- lift (Ok d) ;; df <- new d0 ;;
   d1 <- deref df ;; lowered <- lift (set_lower_columns d1) ;; store df lowered ;;
   d2 <- deref df ;; k df d2)
    {| heap := h; page := p |}
  = k (length h) (lower_columns d) {| heap := h ++ [lower_columns d]; page := p |}.
Proof.
  intros Hcols.
  rewrite bind_run, lift_run. cbv beta iota. rewrite bind_run. unfold new at 1. cbv beta iota.
  cbn [heap page].
  rewrite (lowered_run {| heap := h ++ [d]; page := p |} (length h) d).
  - cbn [heap page]. rewrite insert_app_r_alt by lia. rewrite Nat.sub_diag. reflexivity.
  - cbn [heap]. apply list_lookup_middle. reflexivity.
  - exact Hcols.
Qed.

(** On a frame without columns line 483 raises, the frame as loaded. *)
Lemma loaded_raise {A} (h : list DataFrame) (p : list widget) (d : DataFrame)
    (k : loc -> DataFrame -> M A) :
  columns d = [] ->
  (d0 <- lift (Ok d) ;; df <- new d0 ;;
   d1 <- deref df ;; lowered <- lift (set_lower_columns d1) ;; store df lowered ;;
   d2 <- deref df ;; k df d2)
    {| heap := h; page := p |}
  = (Raise AttributeError, {| heap := h ++ [d]; page := p |}).
Proof.
  intros Hcols.
  rewrite bind_run, lift_run. cbv beta iota. rewrite bind_run. unfold new at 1. cbv beta iota.
  cbn [heap page].
  rewrite bind_run, (deref_run _ (length h) d) by (apply list_lookup_middle; reflexivity).
  rewrite bind_run, lift_run. unfold set_lower_columns. rewrite Hcols. reflexivity.
Qed.

(** X22.  A query that fails, or whose table has no rows or no columns,
    draws no chart.  A failure is shown as an error naming the exception,
    followed by the name of the table that was expected.  A table with
    columns and no rows is shown as a note.  A table without columns never
    reaches the test for emptiness: lower-casing its column names raises
    [AttributeError], which is shown like a failed query.  The section then
    ends with its divider, and the only object allocated is the table
    itself, if there is one (lower-cased, if it has columns). *)
Theorem sections_without_data (expected_table : string) (st : state) :
  (forall e,
     comparison_section (Raise e) expected_table st
     = (Ok tt, {| heap := heap st;
                  page := page st ++ [Error "Error loading comparison data" e;
                                      Info ("Expected table: " +:+ expected_table);
                                      Divider] |})
     /\ roles_section (Raise e) expected_table st
        = (Ok tt, {| heap := heap st;
                     page := page st ++ [Error "Error loading roles benchmark data" e;
                                         Info ("Expected table: " +:+ expected_table);
                                         Divider] |})
     /\ employers_section (Raise e) expected_table st
        = (Ok tt, {| heap := heap st;
                     page := page st ++ [Error "Error loading employer industry data" e;
                                         Info ("Expected table: " +:+ expected_table);
                                         Divider] |}))
  /\ (forall d, nrows d = 0 -> columns d <> [] ->
        comparison_section (Ok d) expected_table st
        = (Ok tt, {| heap := heap st ++ [lower_columns d];
                     page := page st ++ [Info "No data returned."; Divider] |})
        /\ roles_section (Ok d) expected_table st
           = (Ok tt, {| heap := heap st ++ [lower_columns d];
                        page := page st ++ [Info "No data returned for Roles benchmark chart.";
                                            Divider] |})
        /\ employers_section (Ok d) expected_table st
           = (Ok tt, {| heap := heap st ++ [lower_columns d];
                        page := page st ++ [Info "No data returned for Employer Industry chart.";
                                            Divider] |}))
  /\ (forall d, columns d = [] ->
        comparison_section (Ok d) expected_table st
        = (Ok tt, {| heap := heap st ++ [d];
                     page := page st ++ [Error "Error loading comparison data" AttributeError;
                                         Info ("Expected table: " +:+ expected_table);
                                         Divider] |})
        /\ roles_section (Ok d) expected_table st
           = (Ok tt, {| heap := heap st ++ [d];
                        page := page st ++ [Error "Error loading roles benchmark data"
                                              AttributeError;
                                            Info ("Expected table: " +:+ expected_table);
                                            Divider] |})
        /\ employers_section (Ok d) expected_table st
           = (Ok tt, {| heap := heap st ++ [d];
                        page := page st ++ [Error "Error loading employer industry data"
                                              AttributeError;
                                            Info ("Expected table: " +:+ expected_table);
                                            Divider] |})).
Proof.
  destruct st as [h p]. split; [|split].
  - intros e. cbn [heap page].
    unfold comparison_section, roles_section, employers_section.
    cbv beta iota zeta delta [bind try_except lift emit ret heap page].
    rewrite <- !app_assoc. repeat split.
  - intros d Hrows Hcols.
    assert (Hd : is_empty (lower_columns d) = true).
    { rewrite is_empty_lower_columns. unfold is_empty. rewrite Hrows. reflexivity. }
    cbn [heap page]. split; [|split].
    + unfold comparison_section, comparison_charts.
      rewrite bind_run. unfold try_except. rewrite (loaded_run h p d _ Hcols), Hd.
      cbv beta iota zeta delta [bind emit ret heap page]. rewrite <- !app_assoc. reflexivity.
    + unfold roles_section.
      rewrite bind_run. unfold try_except. rewrite (loaded_run h p d _ Hcols), Hd.
      cbv beta iota zeta delta [bind emit ret heap page]. rewrite <- !app_assoc. reflexivity.
    + unfold employers_section.
      rewrite bind_run. unfold try_except. rewrite (loaded_run h p d _ Hcols), Hd.
      cbv beta iota zeta delta [bind emit ret heap page]. rewrite <- !app_assoc. reflexivity.
  - intros d Hcols. cbn [heap page]. split; [|split].
    + unfold comparison_section, comparison_charts.
      rewrite bind_run. unfold try_except. rewrite (loaded_raise h p d _ Hcols).
      cbv beta iota zeta delta [bind emit ret heap page]. rewrite <- !app_assoc. reflexivity.
    + unfold roles_section.
      rewrite bind_run. unfold try_except. rewrite (loaded_raise h p d _ Hcols).
      cbv beta iota zeta delta [bind emit ret heap page]. rewrite <- !app_assoc. reflexivity.
    + unfold employers_section.
      rewrite bind_run. unfold try_except. rewrite (loaded_raise h p d _ Hcols).
      cbv beta iota zeta delta [bind emit ret heap page]. rewrite <- !app_assoc. reflexivity.
Qed.

(** *** Facts: the charts of one field *)

Lemma has_column_setcol_ne (d : DataFrame) (name c : string) (s : Series) :
  name <> c -> has_column (setcol d name s) c = has_column d c.
Proof.
  intros Hne. destruct (has_column d c) eqn:E.
  - apply has_column_getcol in E as [x Hx]. apply has_column_getcol. exists x.
    rewrite getcol_setcol_ne by exact Hne. exact Hx.
  - apply has_column_false_getcol. rewrite getcol_setcol_ne by exact Hne.
    apply has_column_false_getcol. exact E.
Qed.

Lemma has_column_iloc (d : DataFrame) (indexer : list nat) (c : string) :
  has_column (iloc d indexer) c = has_column d c.
Proof. unfold has_column, column_names, iloc. simpl. rewrite map_map. reflexivity. Qed.

Lemma rank_top_n_run (d : DataFrame) (sort_key : string) (n : nat) (items : list num) :
  getcol d sort_key = Ok (of_nums items) ->
  rank_top_n sort_key n d = Ok (iloc d (take n (nargsort_desc items))).
Proof.
  intros Hcol. unfold rank_top_n. rewrite (sort_values_desc_run d sort_key _ items Hcol).
  simpl. rewrite map_id, head_iloc. reflexivity.
Qed.



Lemma version_labels_length (ipeds : bool) :
  length (version_labels ipeds) = length (count_columns ipeds).
Proof. destruct ipeds; reflexivity. Qed.



(** *** Facts: the benchmark charts *)


Lemma getitem_run (st : state) (l : loc) (d : DataFrame) (name : string) :
  heap st !! l = Some d -> getitem l name st = (getcol d name, st).
Proof. intros H. unfold getitem. rewrite bind_run, (deref_run st l d H). reflexivity. Qed.

Lemma getcol_source (n : nat) (I V X : Series) :
  getcol {| nrows := n; columns := [("industry", I); ("source", V); ("pct", X)] |} "source"
  = Ok V.
Proof. reflexivity. Qed.

Lemma setcol_version4 (n : nat) (I V X W : Series) :
  setcol {| nrows := n; columns := [("industry", I); ("source", V); ("pct", X)] |} "version" W
  = {| nrows := n;
       columns := [("industry", I); ("source", V); ("pct", X); ("version", W)] |}.
Proof. reflexivity. Qed.

Lemma chart_employer_industry_run (h : list DataFrame) (p : list widget) (df : loc)
    (d : DataFrame) (title : string) (industry : Series) (items : list num) :
  h !! df = Some d ->
  getcol d "industry" = Ok industry ->
  getcol d ("perc_" +:+ NEW_A) = Ok (of_nums items) ->
  has_column d "perc_bls" = true ->
  has_column d ("perc_" +:+ BASE_A) = true ->
  has_column d "pct" = false ->
  exists values,
    res_map (getcol d) ["perc_bls"; "perc_" +:+ BASE_A; "perc_" +:+ NEW_A] = Ok values
    /\ chart_employer_industry df title {| heap := h; page := p |}
       = (Ok tt,
          let long :=
            {| nrows := nrows d * 3;
               columns := [ ("industry", concat (repeat industry 3));
                            ("source", flat_map (fun v => repeat (Str v) (nrows d))
                                         ["perc_bls"; "perc_" +:+ BASE_A; "perc_" +:+ NEW_A]);
                            ("pct", concat values);
                            ("version", flat_map (fun l => repeat (Str l) (nrows d))
                                          ["BLS 2023"; BASE_VERSION; NEW_VERSION]) ] |} in
          {| heap := h ++ [long];
             page := p ++ [AltairChart
                             {| ch_title := title; ch_data := long;
                                ch_y := "industry";
                                ch_y_sort := map (fun v => Str (_prepare_scalar v))
                                               (take_rows (nargsort_desc items) industry);
                                ch_x := "pct";
                                ch_version_order := _VERSION_ORDER_BLS;
                                ch_colors := take (length _VERSION_ORDER_BLS) FIVE_COLOR_SCALE;
                                ch_height := 600 |}] |}).
Proof.
  intros Hdf Hind Hnew Hbls Hbase Hpct.
  destruct (melt_ok d "industry" "source" "pct"
              ["perc_bls"; "perc_" +:+ BASE_A; "perc_" +:+ NEW_A] industry Hind Hpct)
    as (values & Hvals & Hmelt).
  { repeat constructor; simpl; intros H;
      repeat (destruct H as [H|H]; [discriminate|]); exact H. }
  { simpl. intros H. repeat (destruct H as [H|H]; [discriminate|]). exact H. }
  { intros c [<-|[<-|[<-|[]]]]; [exact Hbls|exact Hbase|]. apply has_column_getcol. eauto. }
  exists values. split; [exact Hvals|].
  unfold chart_employer_industry. cbv zeta.
  rewrite bind_run, (deref_run {| heap := h; page := p |} df d Hdf).
  rewrite bind_run, lift_run, (sort_values_desc_run d _ _ items Hnew).
  rewrite bind_run, lift_run, getcol_iloc, Hind.
  rewrite bind_run, lift_run, Hmelt.
  rewrite bind_run. unfold new at 1. cbv beta iota. cbn [heap page].
  rewrite bind_run.
  erewrite getitem_run; [|cbn [heap]; apply list_lookup_middle; reflexivity].
  rewrite getcol_source.
  rewrite bind_run.
  erewrite setitem_run; [|cbn [heap]; apply list_lookup_middle; reflexivity].
  cbn [heap page]. rewrite insert_app_r_alt by lia. rewrite Nat.sub_diag.
  change (<[0:=?x]> [?a]) with [x]. rewrite setcol_version4.
  rewrite bind_run.
  erewrite deref_run; [|cbn [heap]; apply list_lookup_middle; reflexivity].
  unfold altair_chart, emit. cbn [heap page].
  rewrite (map_dict_labels _ _ _ ["BLS 2023"; BASE_VERSION; NEW_VERSION])
    by (repeat constructor).
  rewrite map_id. reflexivity.
Qed.

(** X24.  [chart_employer_industry] draws one chart and copies nothing:
    the only object it allocates is the chart's data, the table melted as
    it is.  The data lists the raw [industry] column once per share column
    (a missing industry stays missing), beside the column name in [source],
    the share in [pct] and the label of the source in a fourth column
    [version]; the vertical order lists the prepared industry labels by
    descending new share. *)
Theorem chart_employer_industry_draws (st : state) (df : loc) (d : DataFrame)
    (title : string) (industry : Series) (items : list num) :
  SortKind argsort ->
  heap st !! df = Some d ->
  well_formed d ->
  getcol d "industry" = Ok industry ->
  getcol d ("perc_" +:+ NEW_A) = Ok (of_nums items) ->
  has_column d "perc_bls" = true ->
  has_column d ("perc_" +:+ BASE_A) = true ->
  has_column d "pct" = false ->
  exists c values order,
    fst (chart_employer_industry df title st) = Ok tt
    /\ page (snd (chart_employer_industry df title st)) = page st ++ [AltairChart c]
    /\ heap (snd (chart_employer_industry df title st)) = heap st ++ [ch_data c]
    /\ res_map (getcol d) ["perc_bls"; "perc_" +:+ BASE_A; "perc_" +:+ NEW_A] = Ok values
    /\ ch_data c
       = {| nrows := nrows d * 3;
            columns := [ ("industry", concat (repeat industry 3));
                         ("source", flat_map (fun v => repeat (Str v) (nrows d))
                                      ["perc_bls"; "perc_" +:+ BASE_A; "perc_" +:+ NEW_A]);
                         ("pct", concat values);
                         ("version", flat_map (fun l => repeat (Str l) (nrows d))
                                       ["BLS 2023"; BASE_VERSION; NEW_VERSION]) ] |}
    /\ ch_y c = "industry" /\ ch_version_order c = _VERSION_ORDER_BLS
    /\ Permutation order (seq 0 (nrows d))
    /\ StronglySorted ranks_before (map (fun i => nth i items None) order)
    /\ ch_y_sort c = map (fun i => Str (_prepare_scalar (nth i industry NA))) order.
Proof.
  intros Hkind Hdf Hwf Hind Hnew Hbls Hbase Hpct. destruct st as [h p]. simpl in Hdf.
  cbn [heap page].
  assert (Hlen : length items = nrows d).
  { rewrite <- (getcol_length d _ _ Hwf Hnew). unfold of_nums. rewrite length_map.
    reflexivity. }
  pose proof (nargsort_desc_perm Hkind items) as Hperm. rewrite Hlen in Hperm.
  destruct (chart_employer_industry_run h p df d title industry items
              Hdf Hind Hnew Hbls Hbase Hpct) as (values & Hvals & Hrun).
  rewrite Hrun. cbv zeta. cbn [fst snd heap page].
  eexists _, values, (nargsort_desc items).
  split; [reflexivity|]. split; [reflexivity|]. split; [reflexivity|].
  split; [exact Hvals|]. cbn [ch_data ch_y ch_version_order ch_y_sort].
  split; [reflexivity|]. split; [reflexivity|]. split; [reflexivity|].
  split; [exact Hperm|]. split; [apply nargsort_desc_sorted; exact Hkind|].
  unfold take_rows. rewrite map_map. reflexivity.
Qed.

Lemma scaled_run (h ext : list DataFrame) (p : list widget) (k : nat) (d : DataFrame)
    (cols : list string) (f : num -> cell) :
  ext !! k = Some d ->
  (forall col, In col cols -> exists xs, getcol d col = Ok (of_nums xs)) ->
  comprehension cols (fun col =>
      s <- getitem (length h + k) col ;; xs <- lift (as_num s) ;;
      ret (col, map f xs))
    {| heap := h ++ ext; page := p |}
  = (Ok (map (fun col => (col, map f (column_nums d col))) cols),
     {| heap := h ++ ext; page := p |}).
Proof.
  intros Hk. induction cols as [|col cols IH]; intros Hnum; [reflexivity|].
  destruct (Hnum col (or_introl eq_refl)) as [xs Hxs].
  cbn [comprehension map].
  rewrite bind_run, bind_run, (getitem_ext _ _ _ _ _ _ Hk), Hxs.
  rewrite bind_run, lift_run, as_num_of_nums, ret_run.
  rewrite bind_run, IH by (intros c Hc; apply Hnum; right; exact Hc).
  rewrite ret_run, (column_nums_numeric d col xs Hxs). reflexivity.
Qed.

Lemma setitems_run (h : list DataFrame) (p : list widget) (d : DataFrame)
    (kvs : list (string * Series)) :
  for_each kvs (fun cs => setitem (length h + 0) (fst cs) (snd cs))
    {| heap := h ++ [d]; page := p |}
  = (Ok tt, {| heap := h ++ [fold_left (fun D cs => setcol D (fst cs) (snd cs)) kvs d];
               page := p |}).
Proof.
  revert d. induction kvs as [|[k v] kvs IH]; intros d; [reflexivity|].
  cbn [for_each fold_left fst snd].
  rewrite bind_run, (setitem_ext h [d] p 0 d) by reflexivity.
  apply IH.
Qed.

Lemma chart_role_benchmarks_run (h : list DataFrame) (p : list widget) (df : loc)
    (d : DataFrame) (title : string) (soc2 : Series) (xn xb xo xa : list num) :
  h !! df = Some d ->
  getcol d "bgi_soc2_name" = Ok soc2 ->
  getcol d ("pct_" +:+ NEW_A) = Ok (of_nums xn) ->
  getcol d ("pct_" +:+ BASE_A) = Ok (of_nums xb) ->
  getcol d "oews_emp_share" = Ok (of_nums xo) ->
  getcol d "acs_emp_share" = Ok (of_nums xa) ->
  has_column d "pct" = false ->
  let f := fun x : num => num_div x (Some 100%Q) in
  let scale := fun xs : list num => of_nums (map f xs) in
  chart_role_benchmarks df title {| heap := h; page := p |}
  = (Ok tt,
     let d5 := setcol (setcol (setcol (setcol (setcol d ("pct_" +:+ NEW_A) (scale xn))
                                         ("pct_" +:+ BASE_A) (scale xb))
                                 "oews_emp_share" (scale xo))
                         "acs_emp_share" (scale xa))
                 "field_value" (_prepare soc2) in
     let long := long_table (nrows d) (_prepare soc2) _VERSION_ORDER_ROLES "pct"
                   [scale xn; scale xb; scale xo; scale xa] in
     {| heap := h ++ [d5; long];
        page := p ++ [AltairChart
                        {| ch_title := title; ch_data := long;
                           ch_y := "field_value";
                           ch_y_sort := take_rows (nargsort_desc (map f xn)) (_prepare soc2);
                           ch_x := "pct";
                           ch_version_order := _VERSION_ORDER_ROLES;
                           ch_colors := take (length _VERSION_ORDER_ROLES) FIVE_COLOR_SCALE;
                           ch_height := 700 |}] |}).
Proof.
  intros Hdf Hsoc Hn Hb Ho Ha Hpct f scale.
  set (pn := "pct_" +:+ NEW_A) in *. set (pb := "pct_" +:+ BASE_A) in *.
  set (d4 := setcol (setcol (setcol (setcol d pn (scale xn)) pb (scale xb))
                       "oews_emp_share" (scale xo)) "acs_emp_share" (scale xa)).
  set (d5 := setcol d4 "field_value" (_prepare soc2)).
  assert (Hsoc4 : getcol d4 "bgi_soc2_name" = Ok soc2).
  { unfold d4. rewrite !getcol_setcol_ne by discriminate. exact Hsoc. }
  assert (Gn : getcol d5 pn = Ok (scale xn)).
  { unfold d5, d4. rewrite !getcol_setcol_ne by discriminate. apply getcol_setcol_eq. }
  assert (Gb : getcol d5 pb = Ok (scale xb)).
  { unfold d5, d4. rewrite !getcol_setcol_ne by discriminate. apply getcol_setcol_eq. }
  assert (Go : getcol d5 "oews_emp_share" = Ok (scale xo)).
  { unfold d5, d4. rewrite !getcol_setcol_ne by discriminate. apply getcol_setcol_eq. }
  assert (Ga : getcol d5 "acs_emp_share" = Ok (scale xa)).
  { unfold d5, d4. rewrite getcol_setcol_ne by discriminate. apply getcol_setcol_eq. }
  assert (Hpct5 : has_column d5 "pct" = false).
  { unfold d5, d4. rewrite !has_column_setcol_ne by discriminate. exact Hpct. }
  destruct (melt_ok d5 "field_value" "version" "pct" [pn; pb; "oews_emp_share"; "acs_emp_share"]
              (_prepare soc2)) as (values & Hvals & Hmelt).
  { apply getcol_setcol_eq. }
  { exact Hpct5. }
  { repeat constructor; simpl; intros H;
      repeat (destruct H as [H|H]; [discriminate|]); exact H. }
  { simpl. intros H. repeat (destruct H as [H|H]; [discriminate|]). exact H. }
  { intros c [<-|[<-|[<-|[<-|[]]]]]; apply has_column_getcol; eauto. }
  cbn [res_map] in Hvals. rewrite Gn, Gb, Go, Ga in Hvals. cbn [res_bind] in Hvals.
  injection Hvals as <-.
  unfold chart_role_benchmarks. cbv zeta. fold pn. fold pb.
  rewrite <- (app_nil_r h) at 1.
  rewrite bind_run, (copy_base _ _ _ _ _ Hdf). simpl length. simpl app.
  rewrite bind_run, (scaled_run h [d] p 0 d _ (fun x => true_div x (Some 100%Q)) eq_refl).
  2:{ intros col [<-|[<-|[<-|[<-|[]]]]]; eauto. }
  cbn [map].
  rewrite (column_nums_numeric d _ _ Hn), (column_nums_numeric d _ _ Hb),
    (column_nums_numeric d _ _ Ho), (column_nums_numeric d _ _ Ha).
  assert (H100 : ~ (100 == 0)%Q) by (intros H; discriminate H).
  rewrite !(true_div_column 100%Q _ H100).
  change (of_nums (map (fun x : num => num_div x (Some 100%Q)) ?xs)) with (scale xs).
  rewrite bind_run, setitems_run. cbn [fold_left fst snd]. fold d4.
  rewrite bind_run, (getitem_ext h [d4] p 0 d4) by reflexivity. rewrite Hsoc4.
  rewrite bind_run, (setitem_ext h [d4] p 0 d4) by reflexivity.
  change (<[0:=?x]> [?a]) with [x]. fold d5.
  rewrite bind_run, deref_ext. change ([?a] !! 0) with (Some a). cbv beta iota.
  rewrite bind_run, lift_run, (sort_values_desc_run d5 pn _ (map f xn) Gn).
  rewrite bind_run, lift_run, getcol_iloc. unfold d5 at 1. rewrite getcol_setcol_eq.
  rewrite bind_run, lift_run, Hmelt.
  rewrite bind_run, new_run. cbn [length app].
  rewrite bind_run. erewrite (getitem_ext h _ p 1 _ "version"); [|reflexivity].
  rewrite getcol_long_version.
  rewrite bind_run. erewrite (setitem_ext h _ p 1 _ "version"); [|reflexivity].
  change (<[1:=?x]> [?a; ?b]) with [a; x].
  rewrite bind_run, deref_ext. change ([?a; ?b] !! 1) with (Some b). cbv beta iota.
  unfold altair_chart, emit. cbn [heap page].
  rewrite setcol_long_version.
  rewrite (map_dict_labels _ _ _ _VERSION_ORDER_ROLES) by (repeat constructor).
  rewrite map_id. reflexivity.
Qed.


(** *** Facts: the sections on data *)

(** X26.  A comparison table that has rows but lacks the new version's
    count column draws no chart: the section shows the [KeyError] naming
    that column and the table that was expected, and ends with its divider.
    The table is left lower-cased and otherwise as the query returned it. *)
Theorem comparison_section_missing_counts (d0 : DataFrame) (expected_table : string)
    (st : state) :
  is_empty (lower_columns d0) = false ->
  has_column (lower_columns d0) ("cnt_" +:+ NEW_A) = false ->
  comparison_section (Ok d0) expected_table st
  = (Ok tt,
     {| heap := heap st ++ [lower_columns d0];
        page := page st ++ [Error "Error loading comparison data"
                              (KeyError ("cnt_" +:+ NEW_A));
                            Info ("Expected table: " +:+ expected_table);
                            Divider] |}).
Proof.
  intros Hne Hmiss. destruct st as [h p]. cbn [heap page].
  unfold comparison_section, comparison_charts.
  rewrite bind_run. unfold try_except.
  rewrite (loaded_run h p d0 _ (not_empty_columns d0 Hne)), Hne.
  rewrite bind_run, lift_run. unfold pct_change_column.
  rewrite (getcol_missing _ _ Hmiss). cbn [res_bind].
  cbv beta iota zeta delta [bind emit ret heap page]. rewrite <- !app_assoc. reflexivity.
Qed.

Lemma take_rows_length (indexer : list nat) (s : Series) :
  length (take_rows indexer s) = length indexer.
Proof. unfold take_rows. apply length_map. Qed.

(** X27.  The roles section on a non-empty, well-formed benchmark table
    with the SOC-2 names and the four numeric share columns (and no [pct]
    column): it draws one chart and then the divider.  The chart is of the
    first 25 rows along an order of all the rows by descending new share
    (rows without one last): its data is the long table of those rows, one
    block per source, with the prepared SOC-2 names and the shares divided
    by 100. *)
Theorem roles_section_draws (d0 d : DataFrame) (expected_table : string) (st : state)
    (soc2 : Series) (xn xb xo xa : list num) :
  SortKind argsort ->
  d = lower_columns d0 ->
  well_formed d ->
  is_empty d = false ->
  getcol d "bgi_soc2_name" = Ok soc2 ->
  getcol d ("pct_" +:+ NEW_A) = Ok (of_nums xn) ->
  getcol d ("pct_" +:+ BASE_A) = Ok (of_nums xb) ->
  getcol d "oews_emp_share" = Ok (of_nums xo) ->
  getcol d "acs_emp_share" = Ok (of_nums xa) ->
  has_column d "pct" = false ->
  exists order c,
    Permutation order (seq 0 (nrows d))
    /\ StronglySorted ranks_before (map (fun i => nth i xn None) order)
    /\ fst (roles_section (Ok d0) expected_table st) = Ok tt
    /\ page (snd (roles_section (Ok d0) expected_table st))
       = page st ++ [AltairChart c; Divider]
    /\ (let rows := fun xs : list num => map (fun i => nth i xs None) (take 25 order) in
        let scale := fun xs : list num => of_nums (map (fun x => num_div x (Some 100%Q)) xs) in
        ch_data c
        = long_table (Nat.min 25 (nrows d)) (_prepare (take_rows (take 25 order) soc2))
            _VERSION_ORDER_ROLES "pct"
            [scale (rows xn); scale (rows xb); scale (rows xo); scale (rows xa)])
    /\ nrows (ch_data c) = Nat.min 25 (nrows d) * 4
    /\ ch_version_order c = _VERSION_ORDER_ROLES.
Proof.
  intros Hkind Hd Hwf Hne Hsoc Hn Hb Ho Ha Hpct. destruct st as [h p]. cbn [heap page].
  assert (Hcols0 : columns d0 <> []).
  { apply not_empty_columns. rewrite <- Hd. exact Hne. }
  assert (Hlen : length xn = nrows d).
  { rewrite <- (getcol_length d _ _ Hwf Hn). unfold of_nums. rewrite length_map. reflexivity. }
  set (order := nargsort_desc xn).
  assert (Hperm : Permutation order (seq 0 (nrows d))).
  { rewrite <- Hlen. apply nargsort_desc_perm. exact Hkind. }
  assert (Hsorted : StronglySorted ranks_before (map (fun i => nth i xn None) order)).
  { apply nargsort_desc_sorted. exact Hkind. }
  set (idx := take 25 order).
  set (top := iloc d idx).
  assert (Htop : rank_top_n ("pct_" +:+ NEW_A) 25 d = Ok top) by (apply rank_top_n_run; exact Hn).
  assert (Hnrows : nrows top = Nat.min 25 (nrows d)).
  { unfold top, idx. cbn [iloc nrows].
    rewrite length_take, (Permutation_length Hperm), length_seq. reflexivity. }
  set (H1 := (h ++ [d]) ++ [top]).
  assert (Hlk : H1 !! length (h ++ [d]) = Some top) by (apply list_lookup_middle; reflexivity).
  pose proof (chart_role_benchmarks_run H1 p (length (h ++ [d])) top
                ("SOC-2 Employment Share: " +:+ NEW_VERSION +:+ " vs " +:+ BASE_VERSION
                 +:+ " vs OEWS vs ACS")
                (take_rows idx soc2)
                (map (fun i => nth i xn None) idx) (map (fun i => nth i xb None) idx)
                (map (fun i => nth i xo None) idx) (map (fun i => nth i xa None) idx) Hlk)
    as Hchart.
  cbv zeta in Hchart.
  eassert (Hrun : roles_section (Ok d0) expected_table {| heap := h; page := p |} = _).
  { unfold roles_section.
    rewrite bind_run. unfold try_except. rewrite (loaded_run h p d0 _ Hcols0), <- Hd, Hne.
    cbv zeta.
    rewrite bind_run, lift_run, Htop. cbv beta iota.
    rewrite bind_run. unfold new at 1. cbv beta iota. cbn [heap page]. fold H1.
    rewrite Hchart.
    - unfold emit. cbn [heap page]. reflexivity.
    - unfold top. rewrite getcol_iloc, Hsoc. reflexivity.
    - unfold top. rewrite getcol_iloc, Hn, take_rows_of_nums. reflexivity.
    - unfold top. rewrite getcol_iloc, Hb, take_rows_of_nums. reflexivity.
    - unfold top. rewrite getcol_iloc, Ho, take_rows_of_nums. reflexivity.
    - unfold top. rewrite getcol_iloc, Ha, take_rows_of_nums. reflexivity.
    - unfold top. rewrite has_column_iloc. exact Hpct. }
  rewrite Hrun. cbn [fst snd page]. exists order. eexists.
  split; [exact Hperm|]. split; [exact Hsorted|].
  split; [reflexivity|]. split; [rewrite <- app_assoc; reflexivity|].
  cbn [ch_data ch_version_order]. rewrite Hnrows.
  split; [reflexivity|]. split; reflexivity.
Qed.

(** X28.  The employers section on a non-empty, well-formed industry
    table with the [industry] column, a numeric new share and the two other
    share columns (and no [pct] column): it draws one chart and then the
    divider.  The chart is of the first 20 rows along an order of all the
    rows by descending new share (rows without one last): its data stacks
    those rows once per source, with the industry as the table has it, the
    name of the share column, the share and the label of the source. *)
Theorem employers_section_draws (d0 d : DataFrame) (expected_table : string) (st : state)
    (industry : Series) (items : list num) :
  SortKind argsort ->
  d = lower_columns d0 ->
  well_formed d ->
  is_empty d = false ->
  getcol d "industry" = Ok industry ->
  getcol d ("perc_" +:+ NEW_A) = Ok (of_nums items) ->
  has_column d "perc_bls" = true ->
  has_column d ("perc_" +:+ BASE_A) = true ->
  has_column d "pct" = false ->
  exists order c bls base,
    Permutation order (seq 0 (nrows d))
    /\ StronglySorted ranks_before (map (fun i => nth i items None) order)
    /\ getcol d "perc_bls" = Ok bls
    /\ getcol d ("perc_" +:+ BASE_A) = Ok base
    /\ fst (employers_section (Ok d0) expected_table st) = Ok tt
    /\ page (snd (employers_section (Ok d0) expected_table st))
       = page st ++ [AltairChart c; Divider]
    /\ (let idx := take 20 order in
        let N := Nat.min 20 (nrows d) in
        ch_data c
        = {| nrows := N * 3;
             columns := [ ("industry", concat (repeat (take_rows idx industry) 3));
                          ("source", flat_map (fun v => repeat (Str v) N)
                                       ["perc_bls"; "perc_" +:+ BASE_A; "perc_" +:+ NEW_A]);
                          ("pct", concat [take_rows idx bls; take_rows idx base;
                                          take_rows idx (of_nums items)]);
                          ("version", flat_map (fun l => repeat (Str l) N)
                                        ["BLS 2023"; BASE_VERSION; NEW_VERSION]) ] |})
    /\ nrows (ch_data c) = Nat.min 20 (nrows d) * 3
    /\ ch_version_order c = _VERSION_ORDER_BLS.
Proof.
  intros Hkind Hd Hwf Hne Hind Hnew Hbls Hbase Hpct. destruct st as [h p]. cbn [heap page].
  assert (Hcols0 : columns d0 <> []).
  { apply not_empty_columns. rewrite <- Hd. exact Hne. }
  assert (Hlen : length items = nrows d).
  { rewrite <- (getcol_length d _ _ Hwf Hnew). unfold of_nums. rewrite length_map.
    reflexivity. }
  set (order := nargsort_desc items).
  assert (Hperm : Permutation order (seq 0 (nrows d))).
  { rewrite <- Hlen. apply nargsort_desc_perm. exact Hkind. }
  assert (Hsorted : StronglySorted ranks_before (map (fun i => nth i items None) order)).
  { apply nargsort_desc_sorted. exact Hkind. }
  destruct (proj1 (has_column_getcol d "perc_bls") Hbls) as [bls Gbls].
  destruct (proj1 (has_column_getcol d ("perc_" +:+ BASE_A)) Hbase) as [base Gbase].
  set (idx := take 20 order).
  set (top := iloc d idx).
  assert (Htop : rank_top_n ("perc_" +:+ NEW_A) 20 d = Ok top)
    by (apply rank_top_n_run; exact Hnew).
  assert (Hnrows : nrows top = Nat.min 20 (nrows d)).
  { unfold top, idx. cbn [iloc nrows].
    rewrite length_take, (Permutation_length Hperm), length_seq. reflexivity. }
  set (H1 := (h ++ [d]) ++ [top]).
  assert (Hlk : H1 !! length (h ++ [d]) = Some top) by (apply list_lookup_middle; reflexivity).
  destruct (chart_employer_industry_run H1 p (length (h ++ [d])) top
              "Comparison with BLS, Year = 2023"
              (take_rows idx industry) (map (fun i => nth i items None) idx) Hlk)
    as (values & Hvals & Hchart).
  { unfold top. rewrite getcol_iloc, Hind. reflexivity. }
  { unfold top. rewrite getcol_iloc, Hnew, take_rows_of_nums. reflexivity. }
  { unfold top. rewrite has_column_iloc. exact Hbls. }
  { unfold top. rewrite has_column_iloc. exact Hbase. }
  { unfold top. rewrite has_column_iloc. exact Hpct. }
  assert (Hvalues : values = [take_rows idx bls; take_rows idx base;
                              take_rows idx (of_nums items)]).
  { unfold top in Hvals. cbn [res_map] in Hvals.
    rewrite !getcol_iloc, Gbls, Gbase, Hnew in Hvals. cbn [res_bind] in Hvals.
    injection Hvals as <-. reflexivity. }
  cbv zeta in Hchart.
  eassert (Hrun : employers_section (Ok d0) expected_table {| heap := h; page := p |} = _).
  { unfold employers_section.
    rewrite bind_run. unfold try_except. rewrite (loaded_run h p d0 _ Hcols0), <- Hd, Hne.
    cbv zeta.
    rewrite bind_run, lift_run, Htop. cbv beta iota.
    rewrite bind_run. unfold new at 1. cbv beta iota. cbn [heap page]. fold H1.
    rewrite Hchart. unfold emit. cbn [heap page]. reflexivity. }
  rewrite Hrun. cbn [fst snd page]. exists order. eexists. exists bls, base.
  split; [exact Hperm|]. split; [exact Hsorted|].
  split; [exact Gbls|]. split; [exact Gbase|].
  split; [reflexivity|]. split; [rewrite <- app_assoc; reflexivity|].
  cbn [ch_data ch_version_order nrows]. rewrite Hnrows, Hvalues.
  split; [reflexivity|]. split; reflexivity.
Qed.

End Pandas.

Section Insertion.

Variable before : Q -> Q -> bool.
Hypothesis before_le : forall a b, before a b = true -> (a <= b)%Q.
Hypothesis before_total : forall a b, before a b = false -> (b <= a)%Q.

Lemma insert_index_perm (keys : list Q) (i : nat) (l : list nat) :
  Permutation (insert_index before keys i l) (i :: l).
Proof.
  induction l as [|j l IH]; simpl; [reflexivity|].
  destruct (before (key_at keys i) (key_at keys j)); [reflexivity|].
  rewrite IH. apply perm_swap.
Qed.

Lemma insert_index_sorted (keys : list Q) (i : nat) (l : list nat) :
  StronglySorted (fun a b => (key_at keys a <= key_at keys b)%Q) l ->
  StronglySorted (fun a b => (key_at keys a <= key_at keys b)%Q) (insert_index before keys i l).
Proof.
  induction 1 as [|j l Hl IH Hj]; simpl; [repeat constructor|].
  destruct (before (key_at keys i) (key_at keys j)) eqn:E.
  - apply before_le in E. constructor; [constructor; assumption|].
    constructor; [exact E|].
    rewrite List.Forall_forall in *. intros y Hy.
    apply (Qle_trans _ (key_at keys j)); [exact E|apply Hj; exact Hy].
  - apply before_total in E. constructor; [exact IH|].
    apply (Permutation_Forall (Permutation_sym (insert_index_perm keys i l))).
    constructor; assumption.
Qed.

Lemma insertion_argsort_kind : SortKind (insertion_argsort before).
Proof.
  intros keys. unfold insertion_argsort. generalize (seq 0 (length keys)) as l.
  intros l. induction l as [|i l [IHp IHs]]; simpl.
  - split; constructor.
  - split.
    + rewrite insert_index_perm. constructor. exact IHp.
    + apply insert_index_sorted. exact IHs.
Qed.

End Insertion.

Lemma Qle_bool_false (a b : Q) : Qle_bool a b = false -> (b <= a)%Q.
Proof.
  intros H. apply Qlt_le_weak, Qnot_le_lt. intros Hle.
  apply Qle_bool_iff in Hle. congruence.
Qed.

Lemma stable_argsort_kind : SortKind stable_argsort.
Proof.
  apply insertion_argsort_kind.
  - intros a b H. apply Qle_bool_iff. exact H.
  - apply Qle_bool_false.
Qed.

Lemma reversing_argsort_kind : SortKind reversing_argsort.
Proof.
  apply insertion_argsort_kind.
  - intros a b H. apply negb_true_iff in H. apply Qle_bool_false. exact H.
  - intros a b H. apply negb_false_iff in H. apply Qle_bool_iff. exact H.
Qed.

Ltac solve_nodup :=
  repeat constructor; simpl; intros H;
  repeat (destruct H as [H|H]; [discriminate|]); exact H.

Ltac solve_well_formed :=
  split; [repeat constructor|unfold column_names; simpl; solve_nodup].

Example tied_stable :
  rank_top_n stable_argsort ("cnt_" +:+ NEW_A) 2 tied
  = Ok {| nrows := 2;
          columns := [ ("field_value", [Str "C"; Str "A"]);
                       ("cnt_" +:+ BASE_A, [Num 8; Num 5]);
                       ("cnt_" +:+ NEW_A, [Num 9; Num 7]) ] |}.
Proof. vm_compute. reflexivity. Qed.

(** C7, as stated, fails on [tied_pairs], where A and B tie on the new
    count and so do C and D.  Keeping tied rows in row order would give
    C, D, A, B, which is what a stable routine returns.  numpy's contract
    does not ask for that: the routine that meets it and returns equal keys
    in reverse gives D, C, B, A, every tied pair against its row order, and
    this is the order in which the module returns the rows of this table. *)
Lemma rank_top_n_ties_not_in_row_order :
  SortKind reversing_argsort
  /\ rank_top_n reversing_argsort ("cnt_" +:+ NEW_A) 4 tied_pairs
     = Ok {| nrows := 4;
             columns := [ ("field_value", [Str "D"; Str "C"; Str "B"; Str "A"]);
                          ("cnt_" +:+ BASE_A, [Num 8; Num 8; Num 6; Num 5]);
                          ("cnt_" +:+ NEW_A, [Num 9; Num 9; Num 7; Num 7]) ] |}
  /\ SortKind stable_argsort
  /\ rank_top_n stable_argsort ("cnt_" +:+ NEW_A) 4 tied_pairs
     = Ok {| nrows := 4;
             columns := [ ("field_value", [Str "C"; Str "D"; Str "A"; Str "B"]);
                          ("cnt_" +:+ BASE_A, [Num 8; Num 8; Num 5; Num 6]);
                          ("cnt_" +:+ NEW_A, [Num 9; Num 9; Num 7; Num 7]) ] |}.
Proof.
  split; [exact reversing_argsort_kind|]. split; [vm_compute; reflexivity|].
  split; [exact stable_argsort_kind|vm_compute; reflexivity].
Qed.

(** *** The theorems at concrete tables *)

Lemma pct_change_rows_witness :
  getcol sample ("cnt_" +:+ BASE_A) = Ok (of_nums [Some 100%Q; Some 0%Q; Some 100%Q])
  /\ exists s, pct_change_column sample = Ok s /\ length s = 3 /\ s !! 1 = Some NA
       /\ true_div (num_sub (Some 10%Q) (Some 0%Q)) (Some 0%Q) = Inf true.
Proof.
  split; [reflexivity|].
  destruct (pct_change_rows sample
              [Some 100%Q; Some 0%Q; Some 100%Q] [Some 150%Q; Some 10%Q; Some 50%Q]
              eq_refl eq_refl eq_refl)
    as (s & Hs & Hlen & _ & _ & Hzero & Hmask & _).
  exists s. split; [exact Hs|]. split; [exact Hlen|]. split.
  - apply (Hzero 1 0%Q (Some 10%Q)); reflexivity.
  - destruct (Hmask 1 0%Q 10%Q eq_refl eq_refl) as [Hinf _].
    + reflexivity.
    + intros H. vm_compute in H. discriminate H.
    + exact Hinf.
Defined.

Lemma sample_zero_numeric (col : string) :
  In col (count_columns false) -> exists xs, getcol sample_zero col = Ok (of_nums xs).
Proof.
  intros [<-|[<-|[]]].
  - exists [Some 0%Q; Some 0%Q; Some 0%Q]. reflexivity.
  - exists [Some 150%Q; Some 10%Q; Some 50%Q]. reflexivity.
Defined.

Lemma sample_numeric (col : string) :
  In col (count_columns false) -> exists xs, getcol sample col = Ok (of_nums xs).
Proof.
  intros [<-|[<-|[]]].
  - exists [Some 100%Q; Some 0%Q; Some 100%Q]. reflexivity.
  - exists [Some 150%Q; Some 10%Q; Some 50%Q]. reflexivity.
Defined.

Lemma compute_percentages_rows_witness :
  well_formed sample_zero
  /\ exists df_pct st' d_pct pct,
       compute_percentages 0 (count_columns false) {| heap := [sample_zero]; page := [] |}
         = (Ok df_pct, st')
       /\ heap st' !! df_pct = Some d_pct
       /\ getcol d_pct (pct_name ("cnt_" +:+ BASE_A)) = Ok pct
       /\ pct !! 1 = Some (Num 0).
Proof.
  assert (Hwf : well_formed sample_zero) by solve_well_formed.
  split; [exact Hwf|].
  destruct (compute_percentages_rows {| heap := [sample_zero]; page := [] |} 0 sample_zero
              (count_columns false) eq_refl Hwf sample_zero_numeric
              (proj1 (count_columns_pct_names false)))
    as (df_pct & st' & d_pct & Hrun & Hheap & _ & Hcols).
  destruct (Hcols ("cnt_" +:+ BASE_A) [Some 0%Q; Some 0%Q; Some 0%Q])
    as (pct & Hpct & _ & Hzero & _).
  { left. reflexivity. }
  { reflexivity. }
  exists df_pct, st', d_pct, pct.
  split; [exact Hrun|]. split; [exact Hheap|]. split; [exact Hpct|].
  apply Hzero; [reflexivity|simpl; lia].
Defined.

Lemma sample_new_counts : Forall is_count [Some 150%Q; Some 10%Q; Some 50%Q].
Proof. repeat constructor; intros H; discriminate H. Defined.

Lemma percentages_sum_to_one_witness :
  rounds_to_nearest float64_of
  /\ ~ (nansum [Some 150%Q; Some 10%Q; Some 50%Q] == 0)%Q
  /\ exists df_pct st' d_pct pct,
       compute_percentages 0 (count_columns false) {| heap := [sample]; page := [] |}
         = (Ok df_pct, st')
       /\ heap st' !! df_pct = Some d_pct
       /\ getcol d_pct (pct_name ("cnt_" +:+ NEW_A)) = Ok (of_nums pct)
       /\ (Qabs (nansum (stored float64_of pct) - 1) <= unit_roundoff)%Q
       /\ (Qabs (float_sum_seq float64_of (non_nans_of (stored float64_of pct)) - 1)
           <= compound (S (length (non_nans_of (stored float64_of pct)))) - 1)%Q.
Proof.
  assert (Hnz : ~ (nansum [Some 150%Q; Some 10%Q; Some 50%Q] == 0)%Q).
  { intros H. vm_compute in H. discriminate H. }
  split; [exact float64_of_error|]. split; [exact Hnz|].
  destruct (percentages_sum_to_one float64_of {| heap := [sample]; page := [] |} 0 sample
              (count_columns false) ("cnt_" +:+ NEW_A) [Some 150%Q; Some 10%Q; Some 50%Q]
              float64_of_error eq_refl sample_numeric
              (proj1 (count_columns_pct_names false)) (or_intror (or_introl eq_refl))
              eq_refl sample_new_counts eq_refl Hnz)
    as (df_pct & st' & d_pct & pct & Hrun & Hheap & Hcol & _ & Hsum & Hfloat).
  exists df_pct, st', d_pct, pct.
  split; [exact Hrun|]. split; [exact Hheap|]. split; [exact Hcol|]. split; [exact Hsum|].
  apply Hfloat. apply float_sum_seq_sum.
Defined.

(** float64 at work on the counts 4, 1, 1.  The stored percentages are the
    float64 numbers 0.6666666666666666 and, twice, 0.16666666666666666.
    Their sum is 1 - 2^-54; added from the left in float64 they give
    0.9999999999999999, which is 1 - 2^-53.  Neither is 1, and both are
    within the tolerance. *)
Example percentages_of_4_1_1 :
  pct_column 3 [Some 4%Q; Some 1%Q; Some 1%Q]
    = of_nums [Some (2 # 3)%Q; Some (1 # 6)%Q; Some (1 # 6)%Q]
  /\ stored float64_of [Some (2 # 3)%Q; Some (1 # 6)%Q; Some (1 # 6)%Q]
     = [Some (6004799503160661 # 9007199254740992)%Q;
        Some (6004799503160661 # 36028797018963968)%Q;
        Some (6004799503160661 # 36028797018963968)%Q]
  /\ nansum (stored float64_of [Some (2 # 3)%Q; Some (1 # 6)%Q; Some (1 # 6)%Q])
     = (18014398509481983 # 18014398509481984)%Q
  /\ float_sum_seq float64_of
       (non_nans_of (stored float64_of [Some (2 # 3)%Q; Some (1 # 6)%Q; Some (1 # 6)%Q]))
     = (9007199254740991 # 9007199254740992)%Q.
Proof. vm_compute. repeat split. Qed.

Lemma rank_by_abs_change_sorted_witness :
  SortKind stable_argsort
  /\ (exists order : list nat,
        Permutation order [0; 2]
        /\ rank_by_abs_change stable_argsort 20
             (setcol sample "pct_change" [Num (1 # 2); NA; Num (-1 # 2)])
           = Ok (iloc (setcol (setcol sample "pct_change" [Num (1 # 2); NA; Num (-1 # 2)])
                         "abs_change" [Num (1 # 2); NA; Num (1 # 2)])
                   (take 20 order)))
  /\ (let* pct_change := pct_change_column scenario in
      rank_by_abs_change stable_argsort 20 (setcol scenario "pct_change" pct_change))
     = Ok scenario_ranked.
Proof.
  split; [exact stable_argsort_kind|].
  destruct (rank_by_abs_change_sorted stable_argsort stable_argsort_kind) as [Hrank Hscenario].
  split; [|exact Hscenario].
  destruct (Hrank (setcol sample "pct_change" [Num (1 # 2); NA; Num (-1 # 2)]) 20
              [Some (1 # 2)%Q; None; Some (-1 # 2)%Q] eq_refl)
    as (order & Hperm & _ & _ & Hrun & _).
  exists order. split; [exact Hperm|exact Hrun].
Defined.

Lemma rank_top_n_descending_witness :
  well_formed tied
  /\ exists order : list nat,
       Permutation order (seq 0 3)
       /\ rank_top_n stable_argsort ("cnt_" +:+ NEW_A) 2 tied = Ok (iloc tied (take 2 order)).
Proof.
  assert (Hwf : well_formed tied) by solve_well_formed.
  split; [exact Hwf|].
  destruct (rank_top_n_descending stable_argsort tied ("cnt_" +:+ NEW_A) 2
              [Some 7%Q; Some 7%Q; Some 9%Q] stable_argsort_kind Hwf eq_refl)
    as (order & Hperm & _ & Hrun & _).
  exists order. split; [exact Hperm|exact Hrun].
Defined.

Lemma sample_has_count_columns (c : string) :
  In c (count_columns false) -> has_column sample c = true.
Proof. intros [<-|[<-|[]]]; reflexivity. Defined.

Lemma reshape_wide_to_long_rows_witness :
  well_formed sample
  /\ exists long_ref st' long,
       reshape_wide_to_long str_of_float_demo 0 (count_columns false) "count" count_version_map
         {| heap := [sample]; page := [] |} = (Ok long_ref, st')
       /\ heap st' !! long_ref = Some long
       /\ nrows long = 6
       /\ long
          = {| nrows := 6;
               columns := [ ("field_value", [Str "Associate"; Str "<NULL>"; Str "Doctorate";
                                             Str "Associate"; Str "<NULL>"; Str "Doctorate"]);
                            ("version", [Str "v5_OCT25"; Str "v5_OCT25"; Str "v5_OCT25";
                                         Str "v5_JAN26"; Str "v5_JAN26"; Str "v5_JAN26"]);
                            ("count", [Num 100; Num 0; Num 100; Num 150; Num 10; Num 50]) ] |}.
Proof.
  assert (Hwf : well_formed sample) by solve_well_formed.
  split; [exact Hwf|].
  destruct (proj1 (reshape_wide_to_long_rows str_of_float_demo
                     {| heap := [sample]; page := [] |} 0
                     sample [Str "Associate"; NA; Str "Doctorate"] (count_columns false) "count"
                     count_version_map eq_refl Hwf eq_refl eq_refl
                     ltac:(discriminate) ltac:(solve_nodup)
                     ltac:(simpl; intros H; repeat (destruct H as [H|H]; [discriminate|]);
                           exact H)
                     sample_has_count_columns))
    as (long_ref & st' & long & F & V & X & Hrun & Hheap & Hrows & _).
  exists long_ref, st', long. split; [exact Hrun|]. split; [exact Hheap|].
  split; [exact Hrows|].
  assert (E : Ok long_ref
              = fst (reshape_wide_to_long str_of_float_demo 0 (count_columns false)
                       "count" count_version_map {| heap := [sample]; page := [] |})).
  { rewrite Hrun. reflexivity. }
  vm_compute in E. injection E as ->.
  assert (Hlong : Some long
                  = heap (snd (reshape_wide_to_long str_of_float_demo 0 (count_columns false)
                                 "count" count_version_map
                                 {| heap := [sample]; page := [] |})) !! 2).
  { rewrite Hrun. cbn [snd]. symmetry. exact Hheap. }
  vm_compute in Hlong. injection Hlong as ->. reflexivity.
Defined.

Lemma chart_transforms_keep_input_witness :
  heap (snd (chart_percentages str_of_float_demo stable_argsort 0 "Percentages"
               {| heap := [sample]; page := [] |})) !! 0 = Some sample
  /\ heap (snd (chart_counts str_of_float_demo stable_argsort 0 "Counts"
                  {| heap := [sample]; page := [] |})) !! 0 = Some sample.
Proof.
  destruct (chart_transforms_keep_input str_of_float_demo stable_argsort
              {| heap := [sample]; page := [] |} 0 0 sample "Percentages" "Counts"
              (count_columns false) "count" eq_refl)
    as (Hpct & _ & _ & _ & _).
  destruct (chart_transforms_keep_input str_of_float_demo stable_argsort
              {| heap := [sample]; page := [] |} 0 0 sample "Counts" "Counts"
              (count_columns false) "count" eq_refl)
    as (_ & _ & _ & Hcnt & _).
  split; [exact Hpct|exact Hcnt].
Defined.

(** *** The further facts at concrete inputs *)

Lemma alias_normal_form_witness :
  is_ascii_string BASE_VERSION
  /\ lower (_alias BASE_VERSION) = _alias BASE_VERSION
  /\ _alias (_alias BASE_VERSION) = "v5_oct25".
Proof.
  assert (H : is_ascii_string BASE_VERSION).
  { unfold is_ascii_string. simpl. repeat (constructor; [vm_compute; lia|]). constructor. }
  destruct (alias_normal_form BASE_VERSION H) as (H1 & H2 & _).
  split; [exact H|]. split; [exact H1|]. rewrite H2. reflexivity.
Defined.

Lemma pct_name_of_count_column_witness :
  pct_name ("cnt_" +:+ BASE_A) = "pct_v5_oct25".
Proof. rewrite (pct_name_of_count_column BASE_A eq_refl). reflexivity. Defined.

Lemma lower_columns_lookup_witness :
  getcol (lower_columns warehouse_table) "cnt_v5_jan26" = Ok [Num 120; Num 10].
Proof.
  assert (H : List.NoDup (map lower (column_names warehouse_table))).
  { vm_compute. solve_nodup. }
  exact (proj1 (lower_columns_lookup warehouse_table "CNT_V5_JAN26" _ H eq_refl)).
Defined.

Lemma pct_change_sign_and_floor_witness :
  exists q, compute_pct_change (Some 100%Q) (Some 150%Q) = Num q /\ (-1 <= q)%Q /\ (0 < q)%Q.
Proof.
  destruct (pct_change_sign_and_floor 100 150) as (q & Hq & Hfloor & Hsign & _); [lra|lra|].
  exists q. split; [exact Hq|]. split; [exact Hfloor|]. apply Hsign. lra.
Defined.

Lemma sample_counts_nonneg (col : string) :
  In col (count_columns false) ->
  exists xs, getcol sample col = Ok (of_nums xs) /\ forall x, In (Some x) xs -> (0 <= x)%Q.
Proof.
  intros [<-|[<-|[]]].
  - exists [Some 100%Q; Some 0%Q; Some 100%Q]. split; [reflexivity|].
    intros x [[= <-]|[[= <-]|[[= <-]|[]]]]; lra.
  - exists [Some 150%Q; Some 10%Q; Some 50%Q]. split; [reflexivity|].
    intros x [[= <-]|[[= <-]|[[= <-]|[]]]]; lra.
Defined.

Lemma percentages_within_unit_interval_witness :
  exists df_pct st' d_pct pct,
    compute_percentages 0 (count_columns false) {| heap := [sample]; page := [] |}
      = (Ok df_pct, st')
    /\ heap st' !! df_pct = Some d_pct
    /\ getcol d_pct (pct_name ("cnt_" +:+ NEW_A)) = Ok pct
    /\ forall i q, pct !! i = Some (Num q) -> (0 <= q <= 1)%Q.
Proof.
  destruct (percentages_within_unit_interval {| heap := [sample]; page := [] |} 0 sample
              (count_columns false) eq_refl sample_counts_nonneg
              (proj1 (count_columns_pct_names false)))
    as (df_pct & st' & d_pct & Hrun & Hheap & Hcols).
  destruct (Hcols ("cnt_" +:+ NEW_A)) as (pct & Hpct & Hunit); [right; left; reflexivity|].
  exists df_pct, st', d_pct, pct. repeat split; try assumption; apply (Hunit i q); assumption.
Defined.

Lemma melt_missing_column_raises_witness :
  _melt str_of_float_demo 0 ["perc_bls"] "pct" {| heap := [industry_table]; page := [] |}
  = (Raise (KeyError "field_value"), {| heap := [industry_table; industry_table]; page := [] |}).
Proof.
  exact (proj1 (melt_missing_column_raises str_of_float_demo
                  {| heap := [industry_table]; page := [] |} 0 industry_table
                  ["perc_bls"] "pct" eq_refl) eq_refl).
Defined.

Lemma chart_counts_missing_new_count_witness :
  chart_counts str_of_float_demo stable_argsort 0 "Counts"
    {| heap := [industry_table]; page := [] |}
  = (Raise (KeyError "cnt_v5_jan26"), {| heap := [industry_table]; page := [] |}).
Proof.
  exact (chart_counts_missing_new_count str_of_float_demo stable_argsort
           {| heap := [industry_table]; page := [] |} 0 industry_table "Counts"
           eq_refl eq_refl eq_refl).
Defined.

Lemma compute_percentages_missing_column_witness :
  compute_percentages 0 ["cnt_" +:+ BASE_A; "cnt_lightcast"; "cnt_" +:+ NEW_A]
    {| heap := [sample]; page := [] |}
  = (Raise (KeyError "cnt_lightcast"), {| heap := [sample]; page := [] |}).
Proof.
  apply (compute_percentages_missing_column {| heap := [sample]; page := [] |} 0 sample
           ["cnt_" +:+ BASE_A] ["cnt_" +:+ NEW_A] "cnt_lightcast" eq_refl).
  - intros col [<-|[]]. exists [Some 100%Q; Some 0%Q; Some 100%Q]. reflexivity.
  - reflexivity.
Defined.

Lemma rank_top_n_keeps_largest_witness :
  exists order : list nat,
    Permutation order (seq 0 3)
    /\ rank_top_n stable_argsort ("cnt_" +:+ NEW_A) 2 tied = Ok (iloc tied (take 2 order))
    /\ forall i j, In i (take 2 order) -> In j (drop 2 order) ->
         ranks_before (nth i [Some 7%Q; Some 7%Q; Some 9%Q] None)
                      (nth j [Some 7%Q; Some 7%Q; Some 9%Q] None).
Proof.
  exact (rank_top_n_keeps_largest stable_argsort tied ("cnt_" +:+ NEW_A) 2
           [Some 7%Q; Some 7%Q; Some 9%Q] stable_argsort_kind eq_refl).
Defined.

Lemma sample_well_formed : well_formed sample.
Proof. solve_well_formed. Defined.

Lemma sort_by_new_by_count_witness :
  exists order : list nat,
    Permutation order (seq 0 3)
    /\ _sort_by_new str_of_float_demo stable_argsort 0 ("cnt_" +:+ NEW_A)
         {| heap := [sample]; page := [] |}
       = (Ok (map (fun i => Str (_prepare_scalar str_of_float_demo
                                   (nth i [Str "Associate"; NA; Str "Doctorate"] NA))) order),
          {| heap := [sample]; page := [] |}).
Proof.
  destruct (sort_by_new_by_count str_of_float_demo stable_argsort
              {| heap := [sample]; page := [] |} 0 sample ("cnt_" +:+ NEW_A)
              [Some 150%Q; Some 10%Q; Some 50%Q] [Str "Associate"; NA; Str "Doctorate"]
              stable_argsort_kind eq_refl sample_well_formed eq_refl eq_refl eq_refl)
    as (order & Hperm & _ & Hrun).
  exists order. split; [exact Hperm|exact Hrun].
Defined.

Lemma sort_by_new_degree_order_witness :
  exists degrees others : list string,
    _sort_by_new str_of_float_demo stable_argsort 0 ("cnt_" +:+ NEW_A)
      {| heap := [degree_table]; page := [] |}
    = (Ok (map Str (degrees ++ others)), {| heap := [degree_table]; page := [] |})
    /\ sublist degrees _DEGREE_ORDER
    /\ In "<NULL>" others.
Proof.
  destruct (sort_by_new_degree_order str_of_float_demo stable_argsort
              {| heap := [degree_table]; page := [] |} 0 degree_table ("cnt_" +:+ NEW_A)
              [Str "Doctorate"; NA; Str "Associate"] eq_refl eq_refl eq_refl)
    as (degrees & others & Hrun & Hsub & _ & _ & _ & Hothers & _).
  exists degrees, others. split; [exact Hrun|]. split; [exact Hsub|].
  apply Hothers. split.
  - right. left. reflexivity.
  - unfold _DEGREE_ORDER. simpl. intros H.
    repeat (destruct H as [H|H]; [discriminate|]). exact H.
Defined.

Lemma chart_counts_draws_long_table_witness :
  exists c values,
    page (snd (chart_counts str_of_float_demo stable_argsort 0 "Counts"
                 {| heap := [sample]; page := [] |})) = [AltairChart c]
    /\ ch_data c = long_table 3 (_prepare str_of_float_demo [Str "Associate"; NA; Str "Doctorate"])
                     (version_labels false) "count" values
    /\ values = [ [Num 100; Num 0; Num 100]; [Num 150; Num 10; Num 50] ].
Proof.
  destruct (chart_counts_draws_long_table str_of_float_demo stable_argsort
              {| heap := [sample]; page := [] |} 0 sample "Counts"
              [Str "Associate"; NA; Str "Doctorate"] [Some 150%Q; Some 10%Q; Some 50%Q]
              eq_refl eq_refl eq_refl eq_refl eq_refl)
    as (c & values & _ & Hpage & Hvals & Hdata & _).
  exists c, values. split; [exact Hpage|]. split; [exact Hdata|].
  injection Hvals as <-. reflexivity.
Defined.

Lemma chart_percentages_draws_long_table_witness :
  exists c,
    page (snd (chart_percentages str_of_float_demo stable_argsort 0 "Percentages"
                 {| heap := [sample]; page := [] |})) = [AltairChart c]
    /\ getcol (ch_data c) "pct"
       = Ok [Num (1 # 2); Num 0; Num (1 # 2); Num (5 # 7); Num (1 # 21); Num (5 # 21)].
Proof.
  destruct (chart_percentages_draws_long_table str_of_float_demo stable_argsort
              {| heap := [sample]; page := [] |} 0 sample "Percentages"
              [Str "Associate"; NA; Str "Doctorate"] eq_refl eq_refl eq_refl sample_numeric)
    as (c & _ & Hpage & Hdata & _).
  exists c. split; [exact Hpage|]. rewrite Hdata. vm_compute. reflexivity.
Defined.

Lemma changes_table_well_formed : well_formed changes_table.
Proof. solve_well_formed. Defined.

Lemma chart_pct_change_order_witness :
  exists c order,
    page (snd (chart_pct_change str_of_float_demo stable_argsort 0 "Largest"
                 {| heap := [changes_table]; page := [] |})) = [AltairChart c]
    /\ Permutation order (seq 0 4)
    /\ StronglySorted ranks_before
         (map (fun i => num_abs (nth i [Some (1 # 2); Some (-3 # 4); None; Some (1 # 4)]%Q None))
              order)
    /\ ch_y_sort c
       = map (fun i => Str (_prepare_scalar str_of_float_demo
                              (nth i [Str "Associate"; NA; Str "Doctorate"; Str "Certificate"]
                                   NA))) order
    /\ ch_y_sort c = [Str "<NULL>"; Str "Associate"; Str "Certificate"; Str "Doctorate"]
    /\ getcol (ch_data c) "field_value"
       = Ok [Str "Associate"; Str "<NULL>"; Str "Doctorate"; Str "Certificate"].
Proof.
  destruct (proj1 (chart_pct_change_order str_of_float_demo stable_argsort
                     {| heap := [changes_table]; page := [] |} 0 changes_table "Largest"
                     [Str "Associate"; NA; Str "Doctorate"; Str "Certificate"]
                     stable_argsort_kind eq_refl
                     changes_table_well_formed eq_refl)
                  [Some (1 # 2); Some (-3 # 4); None; Some (1 # 4)]%Q eq_refl)
    as (c & order & _ & Hpage & Hdata & Hperm & Hsorted & Hsort).
  exists c, order. split; [exact Hpage|]. split; [exact Hperm|]. split; [exact Hsorted|].
  split; [exact Hsort|].
  assert (Hc : AltairChart c
               = nth 0 (page (snd (chart_pct_change str_of_float_demo stable_argsort 0
                                     "Largest" {| heap := [changes_table]; page := [] |})))
                     Divider).
  { rewrite Hpage. reflexivity. }
  split; [|rewrite Hdata; reflexivity].
  vm_compute in Hc. injection Hc as ->. reflexivity.
Defined.

Lemma scenario_well_formed : well_formed scenario.
Proof. solve_well_formed. Defined.


Lemma industry_table_well_formed : well_formed industry_table.
Proof. solve_well_formed. Defined.

Lemma chart_employer_industry_draws_witness :
  exists c,
    page (snd (chart_employer_industry str_of_float_demo stable_argsort 0 "Industries"
                 {| heap := [industry_table]; page := [] |})) = [AltairChart c]
    /\ getcol (ch_data c) "industry"
       = Ok [Str "Retail Trade"; NA; Str "Retail Trade"; NA; Str "Retail Trade"; NA]
    /\ column_names (ch_data c) = ["industry"; "source"; "pct"; "version"].
Proof.
  destruct (chart_employer_industry_draws str_of_float_demo stable_argsort
              {| heap := [industry_table]; page := [] |} 0 industry_table "Industries"
              [Str "Retail Trade"; NA] [Some (7 # 10)%Q; Some (3 # 10)%Q]
              stable_argsort_kind eq_refl industry_table_well_formed
              eq_refl eq_refl eq_refl eq_refl eq_refl)
    as (c & values & order & _ & Hpage & _ & _ & Hdata & _).
  exists c. split; [exact Hpage|]. rewrite Hdata. split; reflexivity.
Defined.

Lemma roles_table_well_formed : well_formed roles_table.
Proof. solve_well_formed. Defined.

Lemma employers_table_well_formed : well_formed employers_table.
Proof. solve_well_formed. Defined.


Lemma comparison_section_missing_counts_witness :
  page (snd (comparison_section str_of_float_demo stable_argsort (Ok industry_table) "COMP_T"
               {| heap := []; page := [] |}))
  = [Error "Error loading comparison data" (KeyError "cnt_v5_jan26");
     Info "Expected table: COMP_T"; Divider].
Proof.
  rewrite (comparison_section_missing_counts str_of_float_demo stable_argsort industry_table
             "COMP_T" {| heap := []; page := [] |} eq_refl eq_refl).
  reflexivity.
Defined.

Lemma roles_section_draws_witness :
  exists order c,
    Permutation order (seq 0 2)
    /\ StronglySorted ranks_before (map (fun i => nth i [Some 40; Some 60]%Q None) order)
    /\ page (snd (roles_section str_of_float_demo stable_argsort (Ok roles_table) "ROLES_T"
                    {| heap := []; page := [] |})) = [AltairChart c; Divider]
    /\ nrows (ch_data c) = 8
    /\ getcol (ch_data c) "field_value"
       = Ok [Str "<NULL>"; Str "Management"; Str "<NULL>"; Str "Management";
             Str "<NULL>"; Str "Management"; Str "<NULL>"; Str "Management"]
    /\ getcol (ch_data c) "pct"
       = Ok [Num (3 # 5); Num (2 # 5); Num (9 # 20); Num (11 # 20);
             Num (1 # 2); Num (1 # 2); Num (12 # 25); Num (13 # 25)].
Proof.
  destruct (roles_section_draws str_of_float_demo stable_argsort roles_table roles_table
              "ROLES_T" {| heap := []; page := [] |} [Str "Management"; NA]
              [Some 40%Q; Some 60%Q] [Some 55%Q; Some 45%Q]
              [Some 50%Q; Some 50%Q] [Some 52%Q; Some 48%Q]
              stable_argsort_kind eq_refl roles_table_well_formed eq_refl
              eq_refl eq_refl eq_refl eq_refl eq_refl eq_refl)
    as (order & c & Hperm & Hsorted & _ & Hpage & _ & Hrows & _).
  exists order, c. split; [exact Hperm|]. split; [exact Hsorted|].
  split; [exact Hpage|]. split; [exact Hrows|].
  assert (Hc : AltairChart c
               = nth 0 (page (snd (roles_section str_of_float_demo stable_argsort
                                     (Ok roles_table) "ROLES_T"
                                     {| heap := []; page := [] |}))) Divider).
  { rewrite Hpage. reflexivity. }
  vm_compute in Hc. injection Hc as ->. split; reflexivity.
Defined.

Lemma employers_section_draws_witness :
  exists order c,
    Permutation order (seq 0 3)
    /\ StronglySorted ranks_before
         (map (fun i => nth i [Some (1 # 5); Some (1 # 2); Some (3 # 10)]%Q None) order)
    /\ page (snd (employers_section str_of_float_demo stable_argsort (Ok employers_table)
                    "EMPLOYERS_T" {| heap := []; page := [] |})) = [AltairChart c; Divider]
    /\ nrows (ch_data c) = 9
    /\ getcol (ch_data c) "industry"
       = Ok [Str "Retail Trade"; Str "Finance"; NA; Str "Retail Trade"; Str "Finance"; NA;
             Str "Retail Trade"; Str "Finance"; NA]
    /\ getcol (ch_data c) "pct"
       = Ok [Num (2 # 5); Num (7 # 20); Num (1 # 4); Num (9 # 20); Num (3 # 10); Num (1 # 4);
             Num (1 # 2); Num (3 # 10); Num (1 # 5)].
Proof.
  destruct (employers_section_draws str_of_float_demo stable_argsort employers_table
              employers_table "EMPLOYERS_T" {| heap := []; page := [] |}
              [NA; Str "Retail Trade"; Str "Finance"]
              [Some (1 # 5)%Q; Some (1 # 2)%Q; Some (3 # 10)%Q]
              stable_argsort_kind eq_refl employers_table_well_formed eq_refl
              eq_refl eq_refl eq_refl eq_refl eq_refl)
    as (order & c & bls & base & Hperm & Hsorted & _ & _ & _ & Hpage & _ & Hrows & _).
  exists order, c. split; [exact Hperm|]. split; [exact Hsorted|].
  split; [exact Hpage|]. split; [exact Hrows|].
  assert (Hc : AltairChart c
               = nth 0 (page (snd (employers_section str_of_float_demo stable_argsort
                                     (Ok employers_table) "EMPLOYERS_T"
                                     {| heap := []; page := [] |}))) Divider).
  { rewrite Hpage. reflexivity. }
  vm_compute in Hc. injection Hc as ->. split; reflexivity.
Defined.

(** *** The charts of [sample] *)

(** The long frame [chart_counts] charts: the placeholder for the missing
    category, the version labels in place of the column names, one row per
    (row, version). *)
Example chart_counts_sample :
  map ch_data (charts_of (page (snd (chart_counts str_of_float_demo stable_argsort 0 "Counts"
                                       {| heap := [sample]; page := [] |}))))
  = [ {| nrows := 6;
         columns := [ ("field_value", [Str "Associate"; Str "<NULL>"; Str "Doctorate";
                                       Str "Associate"; Str "<NULL>"; Str "Doctorate"]);
                      ("version", [Str "v5_OCT25"; Str "v5_OCT25"; Str "v5_OCT25";
                                   Str "v5_JAN26"; Str "v5_JAN26"; Str "v5_JAN26"]);
                      ("count", [Num 100; Num 0; Num 100; Num 150; Num 10; Num 50]) ] |} ].
Proof. vm_compute. reflexivity. Qed.

(** The sort order [chart_employer_industry] hands to the chart does name
    the placeholder, which none of its rows carries. *)
Example employer_industry_order :
  map ch_y_sort (charts_of (page (snd (chart_employer_industry str_of_float_demo stable_argsort 0
                                         "Comparison with BLS, Year = 2023"
                                         {| heap := [industry_table]; page := [] |}))))
  = [ [Str "Retail Trade"; Str "<NULL>"] ].
Proof. vm_compute. reflexivity. Qed.

(** One field of [main] on the scenario: three charts and the divider; the
    last chart shows only "Bachelor's Degree". *)
Example comparison_section_scenario :
  let st := snd (comparison_section str_of_float_demo stable_argsort (Ok scenario) "COMP_T"
                   {| heap := []; page := [] |}) in
  map ch_x (charts_of (page st)) = ["pct"; "count"; "pct_change"]
  /\ last (page st) = Some Divider
  /\ map (fun c => getcol (ch_data c) "field_value") (skipn 2 (charts_of (page st)))
     = [Ok [Str "Bachelor's Degree"]].
Proof. vm_compute. repeat split. Qed.

End Dashboard.
